(** * WiredTiger transaction table (src/third_party/wiredtiger/src/txn/txn.c)

    A shallow embedding of the snapshot allocator, the oldest-id scanner and
    the commit / prepare / rollback paths of [txn.c], with the properties
    the design document states about them.

    Conventions of the embedding:
    - [uint64_t] and [uint32_t] values are integers of [Z]; arithmetic that
      can wrap in C is written with [wrap32] / [wrap64];
    - a C array is a [list] read with stdpp's lookup [!!] and written with
      [<[i:=x]>]; a read outside the array has no C meaning and makes the
      embedded function return [None];
    - loops whose bound is not syntactic take a fuel argument; running out of
      fuel is [None] as well, and the theorems show it does not happen. *)

From Stdlib Require Import ZArith List Lia Bool String.
From Stdlib Require Import Sorting.Sorted Sorting.Permutation.
From stdpp Require Import base tactics option list sorting.

Local Open Scope Z_scope.

(** ** Machine integers *)

Definition wrap32 (z : Z) : Z := z mod 2 ^ 32.
Definition wrap64 (z : Z) : Z := z mod 2 ^ 64.

Definition UINT64_MAX : Z := 2 ^ 64 - 1.

(** Modelled from the spec: [WT_TXN_NONE] is declared in txn.h, which is not
    part of the sources at hand; section 3 of the design document gives
    "WT_TXN_NONE (0) means slot unused". *)
Definition WT_TXN_NONE : Z := 0.

(** Modelled from the spec: [WT_TXNID_LT] and [WT_TXNID_LE] are macros of
    txn.h (not part of the sources at hand); section 3 makes transaction ids
    unsigned 64-bit integers in allocation order, compared as integers. *)
Definition WT_TXNID_LT (t1 t2 : Z) : bool := t1 <? t2.
Definition WT_TXNID_LE (t1 t2 : Z) : bool := t1 <=? t2.

Definition WT_MIN (a b : Z) : Z := if a <? b then a else b.

(** ** The snapshot sort *)

(** [array[i]] for an unsigned index. *)
Definition aget (array : list Z) (i : Z) : option Z := array !! Z.to_nat i.

Definition aset (array : list Z) (i : Z) (v : Z) : list Z :=
  <[Z.to_nat i := v]> array.

(** [while (pivot < array[--j]) ;] -- returns the final [j]. *)
Fixpoint scan_down (fuel : nat) (array : list Z) (pivot j : Z) : option Z :=
  match fuel with
  | O => None
  | S fuel' =>
      let j' := wrap32 (j - 1) in
      v ← aget array j';
      if pivot <? v then scan_down fuel' array pivot j' else Some j'
  end.

(** [while (array[++i] < pivot) ;] -- returns the final [i]. *)
Fixpoint scan_up (fuel : nat) (array : list Z) (pivot i : Z) : option Z :=
  match fuel with
  | O => None
  | S fuel' =>
      let i' := wrap32 (i + 1) in
      v ← aget array i';
      if v <? pivot then scan_up fuel' array pivot i' else Some i'
  end.

(** The [for (;;)] loop of [__snapsort_partition], entered with the current
    [i] and [j]. *)
Fixpoint partition_loop (fuel : nat) (array : list Z) (pivot i j : Z)
  : option (list Z * Z) :=
  match fuel with
  | O => None
  | S fuel' =>
      j' ← scan_down (S (length array)) array pivot j;
      i' ← scan_up (S (length array)) array pivot i;
      if i' <? j' then
        tmp ← aget array i';
        vj ← aget array j';
        partition_loop fuel' (aset (aset array i' vj) j' tmp) pivot i' j'
      else Some (array, j')
  end.

Definition __snapsort_partition (array : list Z) (f l pivot : Z)
  : option (list Z * Z) :=
  let i := wrap32 (f - 1) in
  let j := wrap32 (l + 1) in
  partition_loop (S (length array)) array pivot i j.

Fixpoint __snapsort_impl (fuel : nat) (array : list Z) (f l : Z)
  : option (list Z) :=
  match fuel with
  | O => None
  | S fuel' =>
      if wrap32 (f + 16) <? l then
        v1 ← aget array f;
        v2 ← aget array l;
        v3 ← aget array (wrap32 (f + l) / 2);
        let median :=
          if v1 <? v2
          then (if v3 <? v1 then v1 else WT_MIN v2 v3)
          else (if v3 <? v2 then v2 else WT_MIN v1 v3) in
        '(array1, m) ← __snapsort_partition array f l median;
        array2 ← __snapsort_impl fuel' array1 f m;
        __snapsort_impl fuel' array2 (wrap32 (m + 1)) l
      else Some array
  end.

(** Modelled from the spec: [WT_INSERTION_SORT] is a macro of misc.h, which is
    not part of the sources at hand.  Section 4.2 (step 7) describes it as the
    insertion sort that finishes the quicksort; it orders the array ascending
    by the comparison it is given, here [WT_TXNID_LT]. *)
Fixpoint insert_ordered (v : Z) (sorted : list Z) : list Z :=
  match sorted with
  | [] => [v]
  | x :: rest =>
      if WT_TXNID_LT v x then v :: x :: rest else x :: insert_ordered v rest
  end.

Definition WT_INSERTION_SORT (array : list Z) : list Z :=
  foldl (fun sorted v => insert_ordered v sorted) [] array.

(** [array] holds the [size] entries handed to the sort. *)
Definition __snapsort (array : list Z) (size : Z) : option (list Z) :=
  array1 ← __snapsort_impl (S (length array)) array 0 (wrap32 (size - 1));
  Some (WT_INSERTION_SORT array1).

(** ** Constants *)

(** Modelled from the spec: [WT_TXN_FIRST] is declared in txn.h (not part of
    the sources at hand); ids are allocated upwards from the first value
    after [WT_TXN_NONE]. *)
Definition WT_TXN_FIRST : Z := 1.

(** Modelled from the spec: [WT_TXN_ABORTED] is declared in txn.h (not part of
    the sources at hand); section 4.6 calls it the tombstone sentinel, an id
    no transaction is ever given -- the largest 64-bit value. *)
Definition WT_TXN_ABORTED : Z := UINT64_MAX.

Definition WT_TS_NONE : Z := 0.

(** errno values and WiredTiger return codes used by txn.c. *)
Definition EBUSY : Z := 16.
Definition EINVAL : Z := 22.
Definition WT_DUPLICATE_KEY : Z := -31801.
Definition WT_NOTFOUND : Z := -31803.
Definition WT_PANIC : Z := -31804.
Definition WT_RESTART : Z := -31805.

(** ** Data model *)

(** The flags of [WT_TXN] that txn.c tests, sets or clears.  [F_ISSET],
    [F_SET] and [F_CLR] act on the set of flags that are on. *)
Inductive txn_flag :=
| WT_TXN_ERROR
| WT_TXN_HAS_ID
| WT_TXN_HAS_SNAPSHOT
| WT_TXN_HAS_TS_COMMIT
| WT_TXN_HAS_TS_DURABLE
| WT_TXN_HAS_TS_PREPARE
| WT_TXN_PREPARE
| WT_TXN_RUNNING
| WT_TXN_SYNC_SET
| WT_TXN_TS_COMMIT_ALWAYS
| WT_TXN_TS_COMMIT_KEYS
| WT_TXN_TS_COMMIT_NEVER
| WT_TXN_TS_DURABLE_ALWAYS
| WT_TXN_TS_DURABLE_KEYS
| WT_TXN_TS_DURABLE_NEVER
| WT_TXN_TS_ROUND_PREPARED.

#[global] Instance txn_flag_eq_dec : EqDecision txn_flag.
Proof. solve_decision. Defined.

Definition F_ISSET (flags : list txn_flag) (f : txn_flag) : bool :=
  bool_decide (f ∈ flags).
Definition F_SET (flags : list txn_flag) (f : txn_flag) : list txn_flag :=
  f :: flags.
Definition F_CLR (flags : list txn_flag) (f : txn_flag) : list txn_flag :=
  filter (fun g => g <> f) flags.

Inductive wt_isolation :=
| WT_ISO_READ_COMMITTED
| WT_ISO_READ_UNCOMMITTED
| WT_ISO_SNAPSHOT.

(** [WT_TXN_STATE]: the slot a session publishes in the global table. *)
Record WT_TXN_STATE := mk_state {
  s_id : Z;
  s_pinned_id : Z;
  s_metadata_pinned : Z;
  s_is_allocating : bool
}.

(** [WT_TXN_GLOBAL].  [g_states] holds the [session_cnt] slots that the scans
    walk; the slot of session [k] is [g_states !! k]. *)
Record WT_TXN_GLOBAL := mk_global {
  g_current : Z;
  g_last_running : Z;
  g_oldest_id : Z;
  g_metadata_pinned : Z;
  g_durable_timestamp : Z;
  g_has_durable_timestamp : bool;
  g_checkpoint_state : WT_TXN_STATE;
  g_checkpoint_timestamp : Z;
  g_checkpoint_id : Z;
  g_nsnap_oldest_id : Z;
  g_states : list WT_TXN_STATE
}.

Inductive wt_prepare_state :=
| WT_PREPARE_INIT
| WT_PREPARE_INPROGRESS
| WT_PREPARE_LOCKED
| WT_PREPARE_RESOLVED.

Inductive wt_update_type :=
| WT_UPDATE_MODIFY
| WT_UPDATE_RESERVE
| WT_UPDATE_STANDARD
| WT_UPDATE_TOMBSTONE.

(** [WT_UPDATE]: a node of a version chain.  Updates live in the arena
    [c_updates] of the connection; a pointer to one is its index, [upd_next]
    is the [next] pointer ([None] for NULL). *)
Record WT_UPDATE := mk_update {
  upd_txnid : Z;
  upd_start_ts : Z;
  upd_durable_ts : Z;
  upd_prepare_state : wt_prepare_state;
  upd_type : wt_update_type;
  upd_next : option nat
}.

Inductive wt_txn_type :=
| WT_TXN_OP_NONE
| WT_TXN_OP_BASIC_COL
| WT_TXN_OP_BASIC_ROW
| WT_TXN_OP_INMEM_COL
| WT_TXN_OP_INMEM_ROW
| WT_TXN_OP_REF_DELETE
| WT_TXN_OP_TRUNCATE_COL
| WT_TXN_OP_TRUNCATE_ROW.

(** [WT_TXN_OP]: one entry of [txn->mod].  [op_upd] is [op->u.op_upd]
    ([None] for NULL), [op_key] stands for the key or record number kept in
    the same union, [op_fileid] is [op->btree->id], [op_metadata] is
    [WT_IS_METADATA(op->btree->dhandle)]. *)
Record WT_TXN_OP := mk_op {
  op_type : wt_txn_type;
  op_fileid : Z;
  op_metadata : bool;
  op_upd : option nat;
  op_key : Z;
  op_key_repeated : bool;      (* WT_TXN_OP_KEY_REPEATED *)
  op_key_reserved : bool       (* WT_TXN_OP_KEY_RESERVED *)
}.

(** [WT_TXN].  [t_snapshot] holds the [t_snapshot_count] live entries of
    [txn->snapshot]; [t_mod] holds the [mod_count] live entries of
    [txn->mod]; [t_notify] is the result the notification callback returns
    for (transaction id, committed) when one is installed. *)
Record WT_TXN := mk_txn {
  t_id : Z;
  t_isolation : wt_isolation;
  t_flags : list txn_flag;
  t_snap_min : Z;
  t_snap_max : Z;
  t_snapshot : list Z;
  t_snapshot_count : Z;
  t_commit_timestamp : Z;
  t_durable_timestamp : Z;
  t_prepare_timestamp : Z;
  t_mod : list WT_TXN_OP;
  t_notify : option (Z -> bool -> Z);
  t_logrec : bool;             (* txn->logrec != NULL *)
  t_txn_logsync : Z
}.

(** [WT_SESSION_IMPL]: [ss_id] is the index of the session, hence of its
    slot; [ss_gen_commit] is the session's commit generation. *)
Record WT_SESSION_IMPL := mk_session {
  ss_id : nat;
  ss_txn : WT_TXN;
  ss_isolation : wt_isolation;
  ss_ncursors : Z;
  ss_gen_commit : Z;
  ss_no_logging : bool;        (* F_ISSET(session, WT_SESSION_NO_LOGGING) *)
  ss_operation_timeout_us : Z
}.

(** [WT_CONNECTION_IMPL]: the shared part. *)
Record WT_CONNECTION_IMPL := mk_conn {
  c_txn_global : WT_TXN_GLOBAL;
  c_gen_commit : Z;            (* the connection's commit generation *)
  c_log_enabled : bool;        (* FLD_ISSET(log_flags, WT_CONN_LOG_ENABLED) *)
  c_log_debug_mode : bool;     (* FLD_ISSET(log_flags, WT_CONN_LOG_DEBUG_MODE) *)
  c_las_fileid : Z;            (* conn->cache->las_fileid *)
  c_updates : list WT_UPDATE
}.

Definition state : Type := WT_CONNECTION_IMPL * WT_SESSION_IMPL.

(** *** Field updates *)

Definition set_s_id (v : Z) (s : WT_TXN_STATE) : WT_TXN_STATE :=
  mk_state v (s_pinned_id s) (s_metadata_pinned s) (s_is_allocating s).
Definition set_s_pinned_id (v : Z) (s : WT_TXN_STATE) : WT_TXN_STATE :=
  mk_state (s_id s) v (s_metadata_pinned s) (s_is_allocating s).
Definition set_s_metadata_pinned (v : Z) (s : WT_TXN_STATE) : WT_TXN_STATE :=
  mk_state (s_id s) (s_pinned_id s) v (s_is_allocating s).

Definition set_g_ids (metadata_pinned oldest_id last_running : Z)
    (g : WT_TXN_GLOBAL) : WT_TXN_GLOBAL :=
  mk_global (g_current g) last_running oldest_id metadata_pinned
    (g_durable_timestamp g) (g_has_durable_timestamp g) (g_checkpoint_state g)
    (g_checkpoint_timestamp g) (g_checkpoint_id g) (g_nsnap_oldest_id g)
    (g_states g).
Definition set_g_current (v : Z) (g : WT_TXN_GLOBAL) : WT_TXN_GLOBAL :=
  mk_global v (g_last_running g) (g_oldest_id g) (g_metadata_pinned g)
    (g_durable_timestamp g) (g_has_durable_timestamp g) (g_checkpoint_state g)
    (g_checkpoint_timestamp g) (g_checkpoint_id g) (g_nsnap_oldest_id g)
    (g_states g).
Definition set_g_durable (ts : Z) (has : bool) (g : WT_TXN_GLOBAL)
  : WT_TXN_GLOBAL :=
  mk_global (g_current g) (g_last_running g) (g_oldest_id g)
    (g_metadata_pinned g) ts has (g_checkpoint_state g)
    (g_checkpoint_timestamp g) (g_checkpoint_id g) (g_nsnap_oldest_id g)
    (g_states g).
Definition set_g_checkpoint (cs : WT_TXN_STATE) (cts cid : Z)
    (g : WT_TXN_GLOBAL) : WT_TXN_GLOBAL :=
  mk_global (g_current g) (g_last_running g) (g_oldest_id g)
    (g_metadata_pinned g) (g_durable_timestamp g) (g_has_durable_timestamp g)
    cs cts cid (g_nsnap_oldest_id g) (g_states g).
Definition set_g_states (states : list WT_TXN_STATE) (g : WT_TXN_GLOBAL)
  : WT_TXN_GLOBAL :=
  mk_global (g_current g) (g_last_running g) (g_oldest_id g)
    (g_metadata_pinned g) (g_durable_timestamp g) (g_has_durable_timestamp g)
    (g_checkpoint_state g) (g_checkpoint_timestamp g) (g_checkpoint_id g)
    (g_nsnap_oldest_id g) states.

Definition set_c_txn_global (g : WT_TXN_GLOBAL) (c : WT_CONNECTION_IMPL)
  : WT_CONNECTION_IMPL :=
  mk_conn g (c_gen_commit c) (c_log_enabled c) (c_log_debug_mode c)
    (c_las_fileid c) (c_updates c).
Definition set_c_gen_commit (v : Z) (c : WT_CONNECTION_IMPL)
  : WT_CONNECTION_IMPL :=
  mk_conn (c_txn_global c) v (c_log_enabled c) (c_log_debug_mode c)
    (c_las_fileid c) (c_updates c).
Definition set_c_updates (u : list WT_UPDATE) (c : WT_CONNECTION_IMPL)
  : WT_CONNECTION_IMPL :=
  mk_conn (c_txn_global c) (c_gen_commit c) (c_log_enabled c)
    (c_log_debug_mode c) (c_las_fileid c) u.

Definition set_t_id (v : Z) (t : WT_TXN) : WT_TXN :=
  mk_txn v (t_isolation t) (t_flags t) (t_snap_min t) (t_snap_max t)
    (t_snapshot t) (t_snapshot_count t) (t_commit_timestamp t)
    (t_durable_timestamp t) (t_prepare_timestamp t) (t_mod t) (t_notify t)
    (t_logrec t) (t_txn_logsync t).
Definition set_t_flags (v : list txn_flag) (t : WT_TXN) : WT_TXN :=
  mk_txn (t_id t) (t_isolation t) v (t_snap_min t) (t_snap_max t)
    (t_snapshot t) (t_snapshot_count t) (t_commit_timestamp t)
    (t_durable_timestamp t) (t_prepare_timestamp t) (t_mod t) (t_notify t)
    (t_logrec t) (t_txn_logsync t).
Definition set_t_snapshot (snapshot : list Z) (n snap_min snap_max : Z)
    (t : WT_TXN) : WT_TXN :=
  mk_txn (t_id t) (t_isolation t) (t_flags t) snap_min snap_max
    snapshot n (t_commit_timestamp t)
    (t_durable_timestamp t) (t_prepare_timestamp t) (t_mod t) (t_notify t)
    (t_logrec t) (t_txn_logsync t).
Definition set_t_commit_timestamp (v : Z) (t : WT_TXN) : WT_TXN :=
  mk_txn (t_id t) (t_isolation t) (t_flags t) (t_snap_min t) (t_snap_max t)
    (t_snapshot t) (t_snapshot_count t) v
    (t_durable_timestamp t) (t_prepare_timestamp t) (t_mod t) (t_notify t)
    (t_logrec t) (t_txn_logsync t).
Definition set_t_durable_timestamp (v : Z) (t : WT_TXN) : WT_TXN :=
  mk_txn (t_id t) (t_isolation t) (t_flags t) (t_snap_min t) (t_snap_max t)
    (t_snapshot t) (t_snapshot_count t) (t_commit_timestamp t)
    v (t_prepare_timestamp t) (t_mod t) (t_notify t)
    (t_logrec t) (t_txn_logsync t).
Definition set_t_prepare_timestamp (v : Z) (t : WT_TXN) : WT_TXN :=
  mk_txn (t_id t) (t_isolation t) (t_flags t) (t_snap_min t) (t_snap_max t)
    (t_snapshot t) (t_snapshot_count t) (t_commit_timestamp t)
    (t_durable_timestamp t) v (t_mod t) (t_notify t)
    (t_logrec t) (t_txn_logsync t).
Definition set_t_mod (v : list WT_TXN_OP) (t : WT_TXN) : WT_TXN :=
  mk_txn (t_id t) (t_isolation t) (t_flags t) (t_snap_min t) (t_snap_max t)
    (t_snapshot t) (t_snapshot_count t) (t_commit_timestamp t)
    (t_durable_timestamp t) (t_prepare_timestamp t) v (t_notify t)
    (t_logrec t) (t_txn_logsync t).
Definition set_t_isolation (v : wt_isolation) (t : WT_TXN) : WT_TXN :=
  mk_txn (t_id t) v (t_flags t) (t_snap_min t) (t_snap_max t)
    (t_snapshot t) (t_snapshot_count t) (t_commit_timestamp t)
    (t_durable_timestamp t) (t_prepare_timestamp t) (t_mod t) (t_notify t)
    (t_logrec t) (t_txn_logsync t).
Definition set_t_notify (v : option (Z -> bool -> Z)) (t : WT_TXN) : WT_TXN :=
  mk_txn (t_id t) (t_isolation t) (t_flags t) (t_snap_min t) (t_snap_max t)
    (t_snapshot t) (t_snapshot_count t) (t_commit_timestamp t)
    (t_durable_timestamp t) (t_prepare_timestamp t) (t_mod t) v
    (t_logrec t) (t_txn_logsync t).
Definition set_t_logrec (v : bool) (t : WT_TXN) : WT_TXN :=
  mk_txn (t_id t) (t_isolation t) (t_flags t) (t_snap_min t) (t_snap_max t)
    (t_snapshot t) (t_snapshot_count t) (t_commit_timestamp t)
    (t_durable_timestamp t) (t_prepare_timestamp t) (t_mod t) (t_notify t)
    v (t_txn_logsync t).
Definition set_t_txn_logsync (v : Z) (t : WT_TXN) : WT_TXN :=
  mk_txn (t_id t) (t_isolation t) (t_flags t) (t_snap_min t) (t_snap_max t)
    (t_snapshot t) (t_snapshot_count t) (t_commit_timestamp t)
    (t_durable_timestamp t) (t_prepare_timestamp t) (t_mod t) (t_notify t)
    (t_logrec t) v.

Definition set_ss_txn (t : WT_TXN) (s : WT_SESSION_IMPL) : WT_SESSION_IMPL :=
  mk_session (ss_id s) t (ss_isolation s) (ss_ncursors s) (ss_gen_commit s)
    (ss_no_logging s) (ss_operation_timeout_us s).
Definition set_ss_gen_commit (v : Z) (s : WT_SESSION_IMPL) : WT_SESSION_IMPL :=
  mk_session (ss_id s) (ss_txn s) (ss_isolation s) (ss_ncursors s) v
    (ss_no_logging s) (ss_operation_timeout_us s).
Definition set_ss_operation_timeout_us (v : Z) (s : WT_SESSION_IMPL)
  : WT_SESSION_IMPL :=
  mk_session (ss_id s) (ss_txn s) (ss_isolation s) (ss_ncursors s)
    (ss_gen_commit s) (ss_no_logging s) v.

(** State-level shorthands. *)
Definition st_global (st : state) : WT_TXN_GLOBAL := c_txn_global (fst st).
Definition st_txn (st : state) : WT_TXN := ss_txn (snd st).

Definition upd_global (f : WT_TXN_GLOBAL -> WT_TXN_GLOBAL) (st : state) : state :=
  (set_c_txn_global (f (c_txn_global (fst st))) (fst st), snd st).
Definition upd_txn (f : WT_TXN -> WT_TXN) (st : state) : state :=
  (fst st, set_ss_txn (f (ss_txn (snd st))) (snd st)).

(** [WT_SESSION_TXN_STATE(session)] is the slot [states[session->id]]; a
    store through that pointer rewrites the slot in place. *)
Definition upd_txn_state (f : WT_TXN_STATE -> WT_TXN_STATE) (st : state)
  : state :=
  upd_global
    (fun g => set_g_states (alter f (ss_id (snd st)) (g_states g)) g) st.

(** The flag macros applied to [txn]. *)
Definition txn_isset (st : state) (f : txn_flag) : bool :=
  F_ISSET (t_flags (st_txn st)) f.
Definition txn_set (f : txn_flag) (st : state) : state :=
  upd_txn (fun t => set_t_flags (F_SET (t_flags t) f) t) st.
Definition txn_clr (f : txn_flag) (st : state) : state :=
  upd_txn (fun t => set_t_flags (F_CLR (t_flags t) f) t) st.

(** ** Callees outside txn.c

    txn.c calls into the lock, log, cursor and btree layers.  Their code is
    not part of the sources at hand; the embedding takes what each call
    returns (and, where the callee writes update records, the arena it
    leaves) from this record, so every statement below holds for whatever
    those callees do. *)
Record WT_EXTERN := mk_extern {
  x_update_pinned_timestamp : Z;   (* __wt_txn_update_pinned_timestamp *)
  x_try_readlock : Z;              (* __wt_try_readlock *)
  x_try_writelock : Z;             (* __wt_try_writelock *)
  x_session_copy_values : Z;       (* __wt_session_copy_values *)
  x_log_commit : Z;                (* __wt_txn_log_commit *)
  x_delete_page_rollback : WT_TXN_OP -> Z;
  (* __wt_txn_resolve_prepared_op (txn, op, commit, count in, arena):
     return value, count out, arena out *)
  x_resolve_prepared_op :
    WT_TXN -> WT_TXN_OP -> bool -> Z -> list WT_UPDATE ->
    Z * Z * list WT_UPDATE;
  (* __wt_txn_op_set_timestamp *)
  x_op_set_timestamp : WT_TXN -> WT_TXN_OP -> list WT_UPDATE -> list WT_UPDATE;
  x_open_cursor : WT_TXN_OP -> Z;  (* __wt_open_cursor *)
  (* __wt_btcur_search_uncommitted: return value and the update found *)
  x_search_uncommitted : WT_TXN_OP -> list WT_UPDATE -> Z * option nat;
  x_cursor_close : WT_TXN_OP -> Z; (* cursor->close *)
  (* values other threads store into txn_global->durable_timestamp, one
     before each compare-and-swap attempt of a commit *)
  x_durable_writes : list Z
}.

(** ** Snapshot allocation *)

(** Modelled from the spec: [WT_SESSION_IS_CHECKPOINT] is a macro of
    session.h (not part of the sources at hand).  The checkpoint transaction
    of section 4.2 is run by one session, whose id [__wt_txn_release] clears
    from [txn_global->checkpoint_id]; a session is the checkpoint session when
    its (non-zero) id is the one recorded there. *)
Definition WT_SESSION_IS_CHECKPOINT (st : state) : bool :=
  negb (Z.of_nat (ss_id (snd st)) =? 0) &&
  (Z.of_nat (ss_id (snd st)) =? g_checkpoint_id (st_global st)).

(** [__wt_txn_release_snapshot].  (The closing call to
    [__wt_txn_clear_read_timestamp] acts on the read-timestamp queue, which
    the embedding does not carry.) *)
Definition __wt_txn_release_snapshot (st : state) : state :=
  let st1 :=
    upd_txn_state
      (fun s => set_s_metadata_pinned WT_TXN_NONE
                  (set_s_pinned_id WT_TXN_NONE s)) st in
  let st2 := txn_clr WT_TXN_HAS_SNAPSHOT st1 in
  if WT_SESSION_IS_CHECKPOINT st2 then
    upd_global
      (fun g => set_g_checkpoint
                  (set_s_pinned_id WT_TXN_NONE (g_checkpoint_state g))
                  0 (g_checkpoint_id g) g) st2
  else st2.

(** [__txn_sort_snapshot]: [txn->snapshot] already holds the [n] collected
    ids. *)
Definition __txn_sort_snapshot (n snap_max : Z) (st : state) : option state :=
  let txn := st_txn st in
  snapshot ← (if 1 <? n then __snapsort (t_snapshot txn) n
              else Some (t_snapshot txn));
  snap_min ← (if 0 <? n then
                s0 ← aget snapshot 0;
                Some (if WT_TXNID_LE s0 snap_max then s0 else snap_max)
              else Some snap_max);
  Some (txn_set WT_TXN_HAS_SNAPSHOT
          (upd_txn (set_t_snapshot snapshot n snap_min snap_max) st)).

(** The [while] loop of [__wt_txn_get_snapshot] at one slot: [Some (Some id)]
    when the slot's id joins the snapshot, [Some None] when the slot is
    passed over.  The slot is read in one state (this is a sequential
    embedding), so a slot that is still allocating an id in range never lets
    the loop exit: [None]. *)
Definition snapshot_visit (own : bool) (s : WT_TXN_STATE)
    (prev_oldest_id current_id : Z) : option (option Z) :=
  let id := s_id s in
  if negb own && negb (id =? WT_TXN_NONE) &&
     WT_TXNID_LE prev_oldest_id id && WT_TXNID_LT id current_id
  then
    if negb (s_is_allocating s) then
      if id =? s_id s then Some (Some id) else None
    else None
  else Some None.

(** The [for] loop over the slots, from slot [i] on: the ids collected so
    far ([snapshot], [n] of them) and the running [pinned_id]. *)
Fixpoint snapshot_walk (i txn_state : nat) (states : list WT_TXN_STATE)
    (prev_oldest_id current_id : Z) (snapshot : list Z) (n pinned_id : Z)
  : option (list Z * Z * Z) :=
  match states with
  | [] => Some (snapshot, n, pinned_id)
  | s :: rest =>
      r ← snapshot_visit (bool_decide (i = txn_state)) s
            prev_oldest_id current_id;
      match r with
      | Some id =>
          snapshot_walk (S i) txn_state rest prev_oldest_id current_id
            (snapshot ++ [id]) (wrap32 (n + 1))
            (if WT_TXNID_LT id pinned_id then id else pinned_id)
      | None =>
          snapshot_walk (S i) txn_state rest prev_oldest_id current_id
            snapshot n pinned_id
      end
  end.

(** Modelled from the spec: the generation calls ([__wt_session_gen],
    [__wt_gen], [__wt_session_gen_enter], [__wt_session_gen_leave]) live in
    gen.c (not part of the sources at hand).  Section 4.2: snapshots are
    cached per commit generation, a global counter bumped on every
    non-read-only commit; a session that entered a generation records its
    number, 0 meaning it is in none. *)
Definition __wt_session_gen_commit (st : state) : Z := ss_gen_commit (snd st).
Definition __wt_gen_commit (st : state) : Z := c_gen_commit (fst st).
Definition __wt_session_gen_leave (st : state) : state :=
  (fst st, set_ss_gen_commit 0 (snd st)).
Definition __wt_session_gen_enter (st : state) : state :=
  (fst st, set_ss_gen_commit (c_gen_commit (fst st)) (snd st)).
Definition __wt_gen_next (st : state) : state :=
  (set_c_gen_commit (c_gen_commit (fst st) + 1) (fst st), snd st).

Definition __wt_txn_get_snapshot (st : state) : option state :=
  let commit_gen := __wt_session_gen_commit st in
  (* Fast path if we already have the current snapshot. *)
  if negb (commit_gen =? 0) && txn_isset st WT_TXN_HAS_SNAPSHOT &&
     (commit_gen =? __wt_gen_commit st)
  then Some st
  else
    let st := if negb (commit_gen =? 0) then __wt_session_gen_leave st else st in
    let st := __wt_session_gen_enter st in
    let txn_global := st_global st in
    let current_id := g_current txn_global in
    let prev_oldest_id := g_oldest_id txn_global in
    (* Include the checkpoint transaction, if one is running. *)
    let id := s_id (g_checkpoint_state txn_global) in
    let '(snapshot, n, st) :=
      if negb (id =? WT_TXN_NONE)
      then ([id], 1, upd_txn_state (set_s_metadata_pinned id) st)
      else ([], 0, st) in
    if prev_oldest_id =? current_id then
      (* For pure read-only workloads, avoid scanning. *)
      let st := upd_txn_state (set_s_pinned_id current_id) st in
      __txn_sort_snapshot n current_id
        (upd_txn (fun t => set_t_snapshot snapshot (t_snapshot_count t)
                             (t_snap_min t) (t_snap_max t) t) st)
    else
      '(snapshot, n, pinned_id) ←
        snapshot_walk 0 (ss_id (snd st)) (g_states txn_global)
          prev_oldest_id current_id snapshot n current_id;
      let st := upd_txn_state (set_s_pinned_id pinned_id) st in
      __txn_sort_snapshot n current_id
        (upd_txn (fun t => set_t_snapshot snapshot (t_snapshot_count t)
                             (t_snap_min t) (t_snap_max t) t) st).

(** ** The oldest-id scan *)

(** The [while] loop of [__txn_oldest_scan] at one slot: the new
    [last_running], or [None] while the slot is still allocating. *)
Definition oldest_scan_visit (s : WT_TXN_STATE)
    (prev_oldest_id last_running : Z) : option Z :=
  let id := s_id s in
  if negb (id =? WT_TXN_NONE) && WT_TXNID_LE prev_oldest_id id &&
     WT_TXNID_LT id last_running
  then
    if negb (s_is_allocating s) then
      if id =? s_id s then Some id else None
    else None
  else Some last_running.

Record oldest_scan := mk_scan {
  sc_oldest_id : Z;
  sc_last_running : Z;
  sc_metadata_pinned : Z;
  sc_oldest_session : option nat
}.

Fixpoint oldest_scan_walk (i : nat) (states : list WT_TXN_STATE)
    (prev_oldest_id : Z) (acc : oldest_scan) : option oldest_scan :=
  match states with
  | [] => Some acc
  | s :: rest =>
      (* Update the last running transaction ID. *)
      last_running ← oldest_scan_visit s prev_oldest_id (sc_last_running acc);
      (* Update the metadata pinned ID. *)
      let metadata_pinned :=
        let id := s_metadata_pinned s in
        if negb (id =? WT_TXN_NONE) && WT_TXNID_LT id (sc_metadata_pinned acc)
        then id else sc_metadata_pinned acc in
      let '(oldest_id, oldest_session) :=
        let id := s_pinned_id s in
        if negb (id =? WT_TXN_NONE) && WT_TXNID_LT id (sc_oldest_id acc)
        then (id, Some i) else (sc_oldest_id acc, sc_oldest_session acc) in
      oldest_scan_walk (S i) rest prev_oldest_id
        (mk_scan oldest_id last_running metadata_pinned oldest_session)
  end.

Definition __txn_oldest_scan (txn_global : WT_TXN_GLOBAL) : option oldest_scan :=
  let prev_oldest_id := g_oldest_id txn_global in
  let last_running := g_current txn_global in
  let oldest_id := g_current txn_global in
  let metadata_pinned :=
    if s_id (g_checkpoint_state txn_global) =? WT_TXN_NONE
    then oldest_id else s_id (g_checkpoint_state txn_global) in
  acc ← oldest_scan_walk 0 (g_states txn_global) prev_oldest_id
          (mk_scan oldest_id last_running metadata_pinned None);
  let last_running := sc_last_running acc in
  let oldest_id := sc_oldest_id acc in
  let metadata_pinned := sc_metadata_pinned acc in
  let oldest_id :=
    if WT_TXNID_LT last_running oldest_id then last_running else oldest_id in
  (* The oldest ID can't move past any named snapshots. *)
  let oldest_id :=
    let id := g_nsnap_oldest_id txn_global in
    if negb (id =? WT_TXN_NONE) && WT_TXNID_LT id oldest_id
    then id else oldest_id in
  (* The metadata pinned ID can't move past the oldest ID. *)
  let metadata_pinned :=
    if WT_TXNID_LT oldest_id metadata_pinned then oldest_id
    else metadata_pinned in
  Some (mk_scan oldest_id last_running metadata_pinned (sc_oldest_session acc)).

(** [__wt_txn_update_oldest]; [strict] and [wait] are the two bits of
    [flags].  The result is the return value and the state left. *)
Definition __wt_txn_update_oldest (E : WT_EXTERN) (strict wait : bool)
    (st : state) : option (Z * state) :=
  let txn_global := st_global st in
  let current_id := g_current txn_global in
  let prev_last_running := g_last_running txn_global in
  let prev_metadata_pinned := g_metadata_pinned txn_global in
  let prev_oldest_id := g_oldest_id txn_global in
  (* Try to move the pinned timestamp forward. *)
  if strict && negb (x_update_pinned_timestamp E =? 0)
  then Some (x_update_pinned_timestamp E, st)
  else if ((prev_oldest_id =? current_id) &&
           (prev_metadata_pinned =? current_id)) ||
          (negb strict &&
           WT_TXNID_LT current_id (wrap64 (prev_oldest_id + 100)))
  then Some (0, st)
  (* First do a read-only scan. *)
  else if negb wait && negb (x_try_readlock E =? 0)
  then Some (if x_try_readlock E =? EBUSY then 0 else x_try_readlock E, st)
  else
    sc ← __txn_oldest_scan txn_global;
    let oldest_id := sc_oldest_id sc in
    let last_running := sc_last_running sc in
    let metadata_pinned := sc_metadata_pinned sc in
    if ((oldest_id =? prev_oldest_id) ||
        (negb strict &&
         WT_TXNID_LT oldest_id (wrap64 (prev_oldest_id + 100)))) &&
       ((last_running =? prev_last_running) ||
        (negb strict &&
         WT_TXNID_LT last_running (wrap64 (prev_last_running + 100)))) &&
       (metadata_pinned =? prev_metadata_pinned)
    then Some (0, st)
    (* It looks like an update is necessary, wait for exclusive access. *)
    else if negb wait && negb (x_try_writelock E =? 0)
    then Some (if x_try_writelock E =? EBUSY then 0 else x_try_writelock E, st)
    else if WT_TXNID_LE oldest_id (g_oldest_id txn_global) &&
            WT_TXNID_LE last_running (g_last_running txn_global) &&
            WT_TXNID_LE metadata_pinned (g_metadata_pinned txn_global)
    then Some (0, st)
    else
      (* Re-scan now that we have exclusive access. *)
      sc ← __txn_oldest_scan txn_global;
      let oldest_id := sc_oldest_id sc in
      let last_running := sc_last_running sc in
      let metadata_pinned := sc_metadata_pinned sc in
      (* Update the public IDs. *)
      let new_metadata_pinned :=
        if WT_TXNID_LT (g_metadata_pinned txn_global) metadata_pinned
        then metadata_pinned else g_metadata_pinned txn_global in
      let new_oldest_id :=
        if WT_TXNID_LT (g_oldest_id txn_global) oldest_id
        then oldest_id else g_oldest_id txn_global in
      let new_last_running :=
        if WT_TXNID_LT (g_last_running txn_global) last_running
        then last_running else g_last_running txn_global in
      Some (0, upd_global
                 (set_g_ids new_metadata_pinned new_oldest_id new_last_running)
                 st).

(** ** Control flow of the int-returning functions

    A function body is a state transformer that either falls through to the
    next statement ([Next]), leaves through [WT_RET] / [WT_ERR] with an error
    code ([Exit]: a return, or a jump to the function's [err] label), aborts
    the process ([Abort]), or has no C meaning ([Fault]: a NULL or dangling
    update pointer is followed).

    txn.c is embedded as built without HAVE_DIAGNOSTIC: the blocks under
    [#ifdef HAVE_DIAGNOSTIC] are left out and [WT_ASSERT], which that build
    compiles away, is not a statement of the embedding.  The assertion
    macros are the one place of txn.c where the process is aborted, and they
    do so in a build with HAVE_DIAGNOSTIC only: no statement of the build
    embedded here yields [Abort]. *)
Inductive step (A : Type) : Type :=
| Next (a : A) (st : state)
| Exit (ret : Z) (st : state)
| Abort (st : state)
| Fault.
Arguments Next {A} a st.
Arguments Exit {A} ret st.
Arguments Abort {A} st.
Arguments Fault {A}.

Definition M (A : Type) : Type := state -> step A.

#[global] Instance M_ret : MRet M := fun A a st => Next a st.
#[global] Instance M_bind : MBind M := fun A B k m st =>
  match m st with
  | Next a st' => k a st'
  | Exit r st' => Exit r st'
  | Abort st' => Abort st'
  | Fault => Fault
  end.

(** What a call of an int-returning function leaves. *)
Inductive outcome : Type :=
| Returns (ret : Z) (st : state)
| Aborts (st : state)
| Faults.

(** [WT_RET(a)] and [WT_ERR(a)] on the value [a] returned by a call. *)
Definition WT_RET (a : Z) : M unit :=
  fun st => if a =? 0 then Next tt st else Exit a st.

(** [WT_RET_MSG(session, v, ...)] and [WT_ERR_MSG(session, v, ...)]. *)
Definition WT_RET_MSG (v : Z) : M unit := fun st => Exit v st.

(** Modelled from the spec: [WT_ERR_ASSERT] and [WT_RET_ASSERT] are macros of
    error.h (not part of the sources at hand).  Their call sites in txn.c
    hand them the expression, an error value [v] and a message for the
    caller.  Section 7 knows two ways for a failed check to end, an error
    returned to the caller and an abort of the process; the abort of
    sections 4.4 (step 4) and 9 is that of a build with HAVE_DIAGNOSTIC.  In
    the build embedded here, where [WT_ASSERT] is compiled away, a failed
    expression leaves with the value [v] as [WT_RET_MSG] / [WT_ERR_MSG]
    do. *)
Definition WT_RET_ASSERT (exp : bool) (v : Z) : M unit :=
  fun st => if exp then Next tt st else WT_RET_MSG v st.

(** Modelled from the spec: [WT_TRET] is a macro of error.h (not part of the
    sources at hand).  It merges the value [a] of a later call into [ret]:
    the first error is kept (section 7: errors reach the caller), except that
    a panic always replaces it and that the codes WT_DUPLICATE_KEY,
    WT_NOTFOUND and WT_RESTART give way to a later error. *)
Definition WT_TRET (ret a : Z) : Z :=
  if negb (a =? 0) &&
     ((a =? WT_PANIC) || (ret =? 0) || (ret =? WT_DUPLICATE_KEY) ||
      (ret =? WT_NOTFOUND) || (ret =? WT_RESTART))
  then a else ret.

Definition modify (f : state -> state) : M unit := fun st => Next tt (f st).

(** ** Timestamps given to commit and prepare *)

(** The configuration of a commit or prepare call, parsed: the timestamps
    given, and the value of "sync" (empty when absent). *)
Record txn_cfg := mk_cfg {
  cfg_commit_timestamp : option Z;
  cfg_durable_timestamp : option Z;
  cfg_prepare_timestamp : option Z;
  cfg_sync : string
}.

(** Modelled from the spec: [__wt_txn_set_timestamp] lives in
    txn_timestamp.c (not part of the sources at hand).  Section 6: commit
    takes an optional commit and durable timestamp, prepare a prepare
    timestamp; section 8 (prepare ordering): a commit timestamp before the
    prepare timestamp of a prepared transaction is rejected, one at or after
    it is accepted; section 7: the rejection is the synchronous
    invalid-timestamp error. *)
Definition set_commit_timestamp (cfg : txn_cfg) : M unit :=
  fun st =>
  match cfg_commit_timestamp cfg with
  | Some ts =>
      if txn_isset st WT_TXN_PREPARE && (ts <? t_prepare_timestamp (st_txn st))
      then Exit EINVAL st
      else Next tt (txn_set WT_TXN_HAS_TS_COMMIT
                      (upd_txn (set_t_commit_timestamp ts) st))
  | None => Next tt st
  end.

Definition set_durable_timestamp (cfg : txn_cfg) : M unit :=
  fun st =>
  match cfg_durable_timestamp cfg with
  | Some ts => Next tt (txn_set WT_TXN_HAS_TS_DURABLE
                          (upd_txn (set_t_durable_timestamp ts) st))
  | None => Next tt st
  end.

Definition set_prepare_timestamp (cfg : txn_cfg) : M unit :=
  fun st =>
  match cfg_prepare_timestamp cfg with
  | Some ts => Next tt (txn_set WT_TXN_HAS_TS_PREPARE
                          (upd_txn (set_t_prepare_timestamp ts) st))
  | None => Next tt st
  end.

Definition __wt_txn_set_timestamp (cfg : txn_cfg) : M unit :=
  set_commit_timestamp cfg ;;
  set_durable_timestamp cfg ;;
  set_prepare_timestamp cfg.

(** ** Release *)

(** [__txn_remove_from_global_table]. *)
Definition __txn_remove_from_global_table (st : state) : state :=
  upd_txn_state (set_s_id WT_TXN_NONE) st.

(** [__wt_txn_release].  (The durable-timestamp queue, the log record buffer
    contents, the session stash and the rollback reason are not carried by
    the embedding.) *)
Definition __wt_txn_release (st : state) : state :=
  let st := upd_txn (set_t_notify None) st in
  (* Clear the transaction's ID from the global table. *)
  let st :=
    if WT_SESSION_IS_CHECKPOINT st then
      upd_txn (set_t_id WT_TXN_NONE)
        (upd_global
           (fun g => set_g_checkpoint
                       (set_s_id WT_TXN_NONE (g_checkpoint_state g))
                       (g_checkpoint_timestamp g) 0 g) st)
    else if txn_isset st WT_TXN_HAS_ID then
      let st :=
        if negb (txn_isset st WT_TXN_PREPARE)
        then __txn_remove_from_global_table st else st in
      upd_txn (set_t_id WT_TXN_NONE) st
    else st in
  (* Free the scratch buffer allocated for logging. *)
  let st := upd_txn (set_t_logrec false) st in
  (* Reset the transaction state to not running and release the snapshot. *)
  let st := __wt_txn_release_snapshot st in
  let st := upd_txn (set_t_isolation (ss_isolation (snd st))) st in
  let st := upd_txn (set_t_flags []) st in
  let st := upd_txn (set_t_prepare_timestamp WT_TS_NONE) st in
  (* Clear operation timer. *)
  (fst st, set_ss_operation_timeout_us 0 (snd st)).

(** ** Operations and update records *)

Definition set_upd_txnid (v : Z) (u : WT_UPDATE) : WT_UPDATE :=
  mk_update v (upd_start_ts u) (upd_durable_ts u) (upd_prepare_state u)
    (upd_type u) (upd_next u).
Definition set_upd_prepared (start_ts : Z) (u : WT_UPDATE) : WT_UPDATE :=
  mk_update (upd_txnid u) start_ts (upd_durable_ts u) WT_PREPARE_INPROGRESS
    (upd_type u) (upd_next u).

Definition set_op_upd (v : option nat) (op : WT_TXN_OP) : WT_TXN_OP :=
  mk_op (op_type op) (op_fileid op) (op_metadata op) v (op_key op)
    (op_key_repeated op) (op_key_reserved op).
Definition set_op_key_repeated (op : WT_TXN_OP) : WT_TXN_OP :=
  mk_op (op_type op) (op_fileid op) (op_metadata op) (op_upd op) (op_key op)
    true (op_key_reserved op).
Definition set_op_key_reserved (op : WT_TXN_OP) : WT_TXN_OP :=
  mk_op (op_type op) (op_fileid op) (op_metadata op) (op_upd op) (op_key op)
    (op_key_repeated op) true.

(** Modelled from the spec: [__wt_txn_op_free] is not part of the sources at
    hand.  Section 3: the operation list is freed by commit, rollback or
    prepare; txn.c's prepare loop adds that the free function clears the
    operation type, so that the entry is not visited again. *)
Definition __wt_txn_op_free (op : WT_TXN_OP) : WT_TXN_OP :=
  mk_op WT_TXN_OP_NONE (op_fileid op) (op_metadata op) (op_upd op) (op_key op)
    false false.

(** [upd = op->u.op_upd] followed by a dereference. *)
Definition deref (updates : list WT_UPDATE) (p : option nat) : option WT_UPDATE :=
  p ≫= fun i => updates !! i.

(** The result of a loop over [txn->mod]: the array and the update arena it
    leaves, with the loop's locals when it ran to the end, or the error that
    left the function from inside the loop. *)
Inductive ops_result (A : Type) : Type :=
| OpsDone (ops : list WT_TXN_OP) (updates : list WT_UPDATE) (acc : A)
| OpsExit (ret : Z) (ops : list WT_TXN_OP) (updates : list WT_UPDATE)
| OpsFault.
Arguments OpsDone {A} ops updates acc.
Arguments OpsExit {A} ret ops updates.
Arguments OpsFault {A}.

(** The result of the loop body for one operation. *)
Inductive op_result (A : Type) : Type :=
| OpNext (updates : list WT_UPDATE) (acc : A)
| OpExit (ret : Z) (updates : list WT_UPDATE)
| OpFault.
Arguments OpNext {A} updates acc.
Arguments OpExit {A} ret updates.
Arguments OpFault {A}.

Definition ops_cons {A} (op : WT_TXN_OP) (r : ops_result A) : ops_result A :=
  match r with
  | OpsDone ops updates acc => OpsDone (op :: ops) updates acc
  | OpsExit ret ops updates => OpsExit ret (op :: ops) updates
  | OpsFault => OpsFault
  end.

(** The locals of the commit and rollback loops. *)
Record resolve_acc := mk_acc {
  ra_ret : Z;                       (* ret *)
  ra_resolved_update_count : Z;
  ra_visited_update_count : Z;
  ra_skip_update_assert : bool
}.

(** [upd->type == WT_UPDATE_RESERVE]. *)
Definition is_reserve (t : wt_update_type) : bool :=
  match t with WT_UPDATE_RESERVE => true | _ => false end.

(** The prepared branch shared by the commit and rollback loops:
    [visited_update_count++], then the call of
    [__wt_txn_resolve_prepared_op] unless the key is flagged repeated.
    The result is the callee's return value, the arena and the locals. *)
Definition resolve_prepared (E : WT_EXTERN) (txn : WT_TXN) (commit : bool)
    (op : WT_TXN_OP) (updates : list WT_UPDATE) (acc : resolve_acc)
  : Z * list WT_UPDATE * resolve_acc :=
  let visited := ra_visited_update_count acc + 1 in
  if negb (op_key_repeated op) then
    let skip := ra_skip_update_assert acc || op_key_reserved op in
    let '(r, resolved, updates') :=
      x_resolve_prepared_op E txn op commit
        (ra_resolved_update_count acc) updates in
    (r, updates', mk_acc (ra_ret acc) resolved visited skip)
  else
    (0, updates,
     mk_acc (ra_ret acc) (ra_resolved_update_count acc) visited
       (ra_skip_update_assert acc)).

(** *** Rollback *)

(** The body of rollback's loop for one operation that is not a metadata
    operation, up to (not including) [__wt_txn_op_free]. *)
Definition rollback_op (E : WT_EXTERN) (txn : WT_TXN) (op : WT_TXN_OP)
    (updates : list WT_UPDATE) (acc : resolve_acc) : op_result resolve_acc :=
  match op_type op with
  | WT_TXN_OP_NONE => OpNext updates acc
  | WT_TXN_OP_BASIC_COL | WT_TXN_OP_BASIC_ROW
  | WT_TXN_OP_INMEM_COL | WT_TXN_OP_INMEM_ROW =>
      if F_ISSET (t_flags txn) WT_TXN_PREPARE then
        let '(r, updates', acc') := resolve_prepared E txn false op updates acc in
        if r =? 0 then OpNext updates' acc' else OpExit r updates'
      else
        match op_upd op with
        | Some p =>
            match updates !! p with
            | Some upd =>
                OpNext (<[p := set_upd_txnid WT_TXN_ABORTED upd]> updates) acc
            | None => OpFault
            end
        | None => OpFault
        end
  | WT_TXN_OP_REF_DELETE =>
      OpNext updates
        (mk_acc (WT_TRET (ra_ret acc) (x_delete_page_rollback E op))
           (ra_resolved_update_count acc) (ra_visited_update_count acc)
           (ra_skip_update_assert acc))
  | WT_TXN_OP_TRUNCATE_COL | WT_TXN_OP_TRUNCATE_ROW => OpNext updates acc
  end.

Fixpoint rollback_ops (E : WT_EXTERN) (txn : WT_TXN) (ops : list WT_TXN_OP)
    (updates : list WT_UPDATE) (acc : resolve_acc) : ops_result resolve_acc :=
  match ops with
  | [] => OpsDone [] updates acc
  | op :: rest =>
      (* Metadata updates should never be rolled back. *)
      if op_metadata op then
        ops_cons op (rollback_ops E txn rest updates acc)
      else
        match rollback_op E txn op updates acc with
        | OpNext updates' acc' =>
            ops_cons (__wt_txn_op_free op)
              (rollback_ops E txn rest updates' acc')
        | OpExit r updates' => OpsExit r (op :: rest) updates'
        | OpFault => OpsFault
        end
  end.

(** The state once a loop over [txn->mod] has written the array and the
    update arena back. *)
Definition store_ops (ops : list WT_TXN_OP) (updates : list WT_UPDATE)
    (st : state) : state :=
  upd_txn (set_t_mod ops) (set_c_updates updates (fst st), snd st).

(** Rollback notification: [ret] once the handler, if any, has run. *)
Definition rollback_notify (txn : WT_TXN) : Z :=
  let ret := 0 in
  match t_notify txn with
  | Some notify => WT_TRET ret (notify (t_id txn) false)
  | None => ret
  end.

Definition __wt_txn_rollback (E : WT_EXTERN) (st : state) : outcome :=
  let txn := st_txn st in
  let ret := rollback_notify txn in
  (* Rollback updates. *)
  match rollback_ops E txn (t_mod txn) (c_updates (fst st))
          (mk_acc ret 0 0 false) with
  | OpsFault => Faults
  | OpsExit r ops updates => Returns r (store_ops ops updates st)
  | OpsDone ops updates acc =>
      match WT_RET_ASSERT
              (ra_skip_update_assert acc ||
               (ra_resolved_update_count acc =? ra_visited_update_count acc))
              EINVAL (store_ops ops updates st) with
      | Next _ st =>
          let st := upd_txn (set_t_mod []) st in
          let st := __wt_txn_release st in
          Returns (ra_ret acc) st
      | Exit r st => Returns r st
      | Abort st => Aborts st
      | Fault => Faults
      end
  end.

(** *** Commit *)

(** Fuel-bounded walk of [__txn_commit_timestamps_assert] down a version
    chain: skip aborted updates, internally created ones and the
    transaction's own.  [None] when a pointer dangles or the chain does not
    end within [fuel] nodes. *)
Fixpoint skip_own_updates (fuel : nat) (updates : list WT_UPDATE) (txnid : Z)
    (upd : option nat) : option (option nat) :=
  match upd with
  | None => Some None
  | Some p =>
      match fuel with
      | O => None
      | S fuel' =>
          u ← updates !! p;
          if (upd_txnid u =? WT_TXN_ABORTED) || (upd_txnid u =? WT_TXN_NONE) ||
             (upd_txnid u =? txnid)
          then skip_own_updates fuel' updates txnid (upd_next u)
          else Some (Some p)
      end
  end.

(** The per-key check of [__txn_commit_timestamps_assert] for one operation:
    [Some 0] to go on with the next operation, [Some v] for a return of [v],
    [None] for a fault. *)
Definition commit_timestamps_assert_op (E : WT_EXTERN) (txn : WT_TXN)
    (updates : list WT_UPDATE) (op : WT_TXN_OP) : option Z :=
  match op_type op with
  | WT_TXN_OP_BASIC_COL | WT_TXN_OP_BASIC_ROW =>
      let prepared := F_ISSET (t_flags txn) WT_TXN_PREPARE in
      (* Search for prepared updates, so that they will be restored. *)
      if prepared && negb (x_open_cursor E op =? 0)
      then Some (x_open_cursor E op)
      else if prepared && negb (fst (x_search_uncommitted E op updates) =? 0)
      then Some EINVAL
      else
        let upd0 :=
          if prepared then snd (x_search_uncommitted E op updates)
          else op_upd op in
        u0 ← deref updates upd0;
        let op_timestamp := upd_start_ts u0 in
        upd ← skip_own_updates (S (length updates)) updates (t_id txn) upd0;
        if prepared && negb (x_cursor_close E op =? 0)
        then Some (x_cursor_close E op)
        else
          match upd with
          | None => Some 0
          | Some p =>
              u ← updates !! p;
              let prev_op_timestamp := upd_start_ts u in
              let durable_op_timestamp := upd_durable_ts u in
              let op_zero_ts := negb (F_ISSET (t_flags txn) WT_TXN_HAS_TS_COMMIT) in
              let upd_zero_ts := prev_op_timestamp =? WT_TS_NONE in
              if negb (eqb op_zero_ts upd_zero_ts) then Some EINVAL
              else if op_zero_ts then Some 0
              else
                let op_timestamp :=
                  if op_timestamp =? WT_TS_NONE then t_commit_timestamp txn
                  else op_timestamp in
                if F_ISSET (t_flags txn) WT_TXN_TS_COMMIT_KEYS &&
                   (op_timestamp <? prev_op_timestamp)
                then Some EINVAL
                else if F_ISSET (t_flags txn) WT_TXN_TS_DURABLE_KEYS &&
                        (t_durable_timestamp txn <? durable_op_timestamp)
                then Some EINVAL
                else Some 0
          end
  | _ => Some 0
  end.

Fixpoint commit_timestamps_assert_ops (E : WT_EXTERN) (txn : WT_TXN)
    (updates : list WT_UPDATE) (ops : list WT_TXN_OP) : option Z :=
  match ops with
  | [] => Some 0
  | op :: rest =>
      r ← commit_timestamps_assert_op E txn updates op;
      if r =? 0 then commit_timestamps_assert_ops E txn updates rest
      else Some r
  end.

Definition __txn_commit_timestamps_assert (E : WT_EXTERN) : M unit :=
  fun st =>
  let txn := st_txn st in
  let isset := F_ISSET (t_flags txn) in
  let has_mods := negb (Nat.eqb (length (t_mod txn)) 0) in
  (* Debugging checks on timestamps, if user requested them. *)
  if isset WT_TXN_TS_COMMIT_ALWAYS && negb (isset WT_TXN_HAS_TS_COMMIT) && has_mods
  then Exit EINVAL st
  else if isset WT_TXN_TS_COMMIT_NEVER && isset WT_TXN_HAS_TS_COMMIT && has_mods
  then Exit EINVAL st
  else if isset WT_TXN_TS_DURABLE_ALWAYS && negb (isset WT_TXN_HAS_TS_DURABLE) &&
          has_mods
  then Exit EINVAL st
  else if isset WT_TXN_TS_DURABLE_NEVER && isset WT_TXN_HAS_TS_DURABLE && has_mods
  then Exit EINVAL st
  (* If we're not doing any key consistency checking, we're done. *)
  else if negb (isset WT_TXN_TS_COMMIT_KEYS || isset WT_TXN_TS_DURABLE_KEYS)
  then Next tt st
  else
    match commit_timestamps_assert_ops E txn (c_updates (fst st)) (t_mod txn) with
    | None => Fault
    | Some r => WT_RET r st
    end.

(** Bits of [txn->txn_logsync] (log.h). *)
Definition WT_LOG_BACKGROUND : Z := 1.
Definition WT_LOG_SYNC_ENABLED : Z := 16.

(** The "sync" setting of commit. *)
Definition commit_sync (cfg : txn_cfg) : M unit :=
  fun st =>
  if String.eqb (cfg_sync cfg) "" then
    if (Z.land (t_txn_logsync (st_txn st)) WT_LOG_SYNC_ENABLED =? 0) &&
       negb (txn_isset st WT_TXN_SYNC_SET)
    then Next tt (upd_txn (set_t_txn_logsync 0) st)
    else Next tt st
  else if txn_isset st WT_TXN_SYNC_SET then Exit EINVAL st
  else if String.eqb (cfg_sync cfg) "background"
  then Next tt (upd_txn (set_t_txn_logsync WT_LOG_BACKGROUND) st)
  else if String.eqb (cfg_sync cfg) "off"
  then Next tt (upd_txn (set_t_txn_logsync 0) st)
  else Next tt st.

(** The body of commit's loop for one operation, up to (not including)
    [__wt_txn_op_free]. *)
Definition commit_op (E : WT_EXTERN) (txn : WT_TXN) (prepare : bool)
    (las_fileid : Z) (op : WT_TXN_OP) (updates : list WT_UPDATE)
    (acc : resolve_acc) : op_result resolve_acc :=
  let fileid := op_fileid op in
  match op_type op with
  | WT_TXN_OP_NONE => OpNext updates acc
  | WT_TXN_OP_BASIC_COL | WT_TXN_OP_BASIC_ROW
  | WT_TXN_OP_INMEM_COL | WT_TXN_OP_INMEM_ROW =>
      if negb prepare then
        match op_upd op with
        | Some p =>
            match updates !! p with
            | Some upd =>
                (* Switch reserved operations to abort. *)
                if is_reserve (upd_type upd) then
                  OpNext (<[p := set_upd_txnid WT_TXN_ABORTED upd]> updates) acc
                (* Writes to the lookaside file can be evicted as soon as
                   they commit. *)
                else if negb (las_fileid =? 0) && (fileid =? las_fileid) then
                  OpNext (<[p := set_upd_txnid WT_TXN_NONE upd]> updates) acc
                else OpNext (x_op_set_timestamp E txn op updates) acc
            | None => OpFault
            end
        | None => OpFault
        end
      else
        let '(r, updates', acc') := resolve_prepared E txn true op updates acc in
        if r =? 0 then OpNext updates' acc' else OpExit r updates'
  | WT_TXN_OP_REF_DELETE => OpNext (x_op_set_timestamp E txn op updates) acc
  | WT_TXN_OP_TRUNCATE_COL | WT_TXN_OP_TRUNCATE_ROW => OpNext updates acc
  end.

Fixpoint commit_ops (E : WT_EXTERN) (txn : WT_TXN) (prepare : bool)
    (las_fileid : Z) (ops : list WT_TXN_OP) (updates : list WT_UPDATE)
    (acc : resolve_acc) : ops_result resolve_acc :=
  match ops with
  | [] => OpsDone [] updates acc
  | op :: rest =>
      match commit_op E txn prepare las_fileid op updates acc with
      | OpNext updates' acc' =>
          ops_cons (__wt_txn_op_free op)
            (commit_ops E txn prepare las_fileid rest updates' acc')
      | OpExit r updates' => OpsExit r (op :: rest) updates'
      | OpFault => OpsFault
      end
  end.

(** "Process and free updates" as a statement of commit. *)
Definition commit_process_updates (E : WT_EXTERN) (prepare : bool)
  : M resolve_acc :=
  fun st =>
  match commit_ops E (st_txn st) prepare (c_las_fileid (fst st))
          (t_mod (st_txn st)) (c_updates (fst st)) (mk_acc 0 0 0 false) with
  | OpsFault => Fault
  | OpsExit r ops updates => Exit r (store_ops ops updates st)
  | OpsDone ops updates acc => Next acc (store_ops ops updates st)
  end.

(** [__wt_atomic_cas64(&v, old, new)] on a location holding [mem]: whether
    the swap happened, and the value the location holds afterwards. *)
Definition __wt_atomic_cas64 (mem old new : Z) : bool * Z :=
  if mem =? old then (true, new) else (false, mem).

(** The compare-and-swap loop that ends commit.  [prev] was read from
    [txn_global->durable_timestamp]; [writes] are the values other threads
    store there afterwards, one before each swap attempt (none left: the
    location still holds [prev]).  The result lists the values the location
    holds one after the other from then on, ending with the value it holds
    when the loop ends, and tells whether this thread's swap happened. *)
Fixpoint durable_cas_loop (writes : list Z) (prev candidate : Z)
  : list Z * bool :=
  if candidate >? prev then
    match writes with
    | [] =>
        let '(swapped, mem) := __wt_atomic_cas64 prev prev candidate in
        ([mem], swapped)
    | w :: rest =>
        let '(swapped, mem) := __wt_atomic_cas64 w prev candidate in
        if swapped then ([w; mem], true)
        else
          let '(history, swapped) := durable_cas_loop rest mem candidate in
          (w :: history, swapped)
    end
  else ([], false).

(** The values [txn_global->durable_timestamp] holds during the last step of
    a commit with candidate [candidate]. *)
Definition durable_history (E : WT_EXTERN) (candidate : Z) (st : state)
  : list Z * bool :=
  if negb (candidate =? WT_TS_NONE) then
    let prev_durable_timestamp := g_durable_timestamp (st_global st) in
    let update_durable_ts := candidate >? prev_durable_timestamp in
    if update_durable_ts then
      durable_cas_loop (x_durable_writes E) prev_durable_timestamp candidate
    else ([], false)
  else ([], false).

(** "First check if we've made something durable in the future" and the
    loop after it. *)
Definition commit_update_durable (E : WT_EXTERN) (candidate : Z) (st : state)
  : state :=
  let '(history, swapped) := durable_history E candidate st in
  upd_global
    (fun g => set_g_durable (default (g_durable_timestamp g) (last history))
                (if swapped then true else g_has_durable_timestamp g) g) st.

(** The candidate durable timestamp of a commit. *)
Definition candidate_durable_timestamp (txn : WT_TXN) : Z :=
  if F_ISSET (t_flags txn) WT_TXN_HAS_TS_DURABLE then t_durable_timestamp txn
  else if F_ISSET (t_flags txn) WT_TXN_HAS_TS_COMMIT then t_commit_timestamp txn
  else WT_TS_NONE.

(** The checks of commit on the timestamps the transaction carries. *)
Definition commit_check_timestamps (prepare : bool) : M unit :=
  fun st =>
  if prepare then
    if negb (txn_isset st WT_TXN_HAS_TS_COMMIT) then WT_RET_MSG EINVAL st
    else if negb (txn_isset st WT_TXN_HAS_TS_DURABLE) then WT_RET_MSG EINVAL st
    else Next tt st
  else
    if txn_isset st WT_TXN_HAS_TS_PREPARE then WT_RET_MSG EINVAL st
    else if txn_isset st WT_TXN_HAS_TS_DURABLE then WT_RET_MSG EINVAL st
    else Next tt st.

(** [__wt_txn_commit] in four stages; an [Exit] is a jump to the [err]
    label.  First stage: the timestamps are set and checked. *)
Definition commit_timestamps (cfg : txn_cfg) (prepare : bool) : M unit :=
  modify (fun st => if negb prepare
                    then txn_clr WT_TXN_TS_ROUND_PREPARED st else st) ;;
  (* Set the commit and the durable timestamps. *)
  __wt_txn_set_timestamp cfg ;;
  commit_check_timestamps prepare.

(** Commit notification. *)
Definition commit_notify : M unit :=
  fun st => match t_notify (st_txn st) with
            | Some notify => WT_RET (notify (t_id (st_txn st)) true) st
            | None => Next tt st
            end.

(** Values are copied into positioned cursors before the snapshot goes. *)
Definition commit_copy_values (E : WT_EXTERN) (prepare : bool) : M unit :=
  fun st => if (0 <? ss_ncursors (snd st)) && negb prepare
            then WT_RET (x_session_copy_values E) st else Next tt st.

(** If we are logging, write a commit log record. *)
Definition commit_log (E : WT_EXTERN) : M unit :=
  fun st => if t_logrec (st_txn st) && c_log_enabled (fst st) &&
               negb (ss_no_logging (snd st))
            then WT_RET (x_log_commit E) (__wt_txn_release_snapshot st)
            else Next tt st.

(** Second stage: per-key checks, sync setting, notification, cursors and
    the log record. *)
Definition commit_prepare_to_resolve (E : WT_EXTERN) (cfg : txn_cfg)
    (prepare : bool) : M unit :=
  __txn_commit_timestamps_assert E ;;
  commit_sync cfg ;;
  commit_notify ;;
  commit_copy_values E prepare ;;
  commit_log E.

(** Third stage: the updates are processed and the counts compared. *)
Definition commit_resolve (E : WT_EXTERN) (prepare : bool) : M unit :=
  acc ← commit_process_updates E prepare;
  WT_RET_ASSERT
    (ra_skip_update_assert acc ||
     (ra_resolved_update_count acc =? ra_visited_update_count acc)) EINVAL.

(** Fourth stage: nothing can fail any more. *)
Definition commit_finish (E : WT_EXTERN) (readonly : bool) (st : state)
  : state :=
  let st := upd_txn (set_t_mod []) st in
  let candidate := candidate_durable_timestamp (st_txn st) in
  let st := __wt_txn_release st in
  let st := if negb readonly then __wt_gen_next st else st in
  commit_update_durable E candidate st.

Definition commit_body (E : WT_EXTERN) (cfg : txn_cfg) : M unit :=
  fun st =>
  let readonly := Nat.eqb (length (t_mod (st_txn st))) 0 in
  let prepare := txn_isset st WT_TXN_PREPARE in
  (commit_timestamps cfg prepare ;;
   commit_prepare_to_resolve E cfg prepare ;;
   commit_resolve E prepare ;;
   modify (commit_finish E readonly)) st.

(** What the [err] label of commit returns: [ret] merged with what rollback
    returned. *)
Definition commit_err (ret : Z) (rollback : outcome) : outcome :=
  match rollback with
  | Returns r st => Returns (WT_TRET ret r) st
  | Aborts st => Aborts st
  | Faults => Faults
  end.

Definition __wt_txn_commit (E : WT_EXTERN) (cfg : txn_cfg) (st : state)
  : outcome :=
  match commit_body E cfg st with
  | Next _ st => Returns 0 st
  | Exit ret st =>
      (* err: if anything went wrong, roll back. *)
      commit_err ret (__wt_txn_rollback E st)
  | Abort st => Aborts st
  | Fault => Faults
  end.

(** *** Prepare *)

(** The body of prepare's loop for one operation that is not a metadata
    operation: the operation and the arena it leaves. *)
Definition prepare_op (txn : WT_TXN) (op : WT_TXN_OP)
    (updates : list WT_UPDATE) : option (WT_TXN_OP * list WT_UPDATE) :=
  match op_type op with
  | WT_TXN_OP_NONE => Some (op, updates)
  | WT_TXN_OP_BASIC_COL | WT_TXN_OP_BASIC_ROW
  | WT_TXN_OP_INMEM_COL | WT_TXN_OP_INMEM_ROW =>
      p ← op_upd op;
      upd ← updates !! p;
      if is_reserve (upd_type upd) then
        (* Switch reserved operation to abort. *)
        Some (__wt_txn_op_free op,
              <[p := set_upd_txnid WT_TXN_ABORTED upd]> updates)
      else
        (* Set prepare timestamp. *)
        let upd := set_upd_prepared (t_prepare_timestamp txn) upd in
        let updates := <[p := upd]> updates in
        let op := set_op_upd None op in
        match upd_next upd with
        | None => Some (op, updates)
        | Some q =>
            next ← updates !! q;
            if upd_txnid upd =? upd_txnid next then
              if is_reserve (upd_type next)
              then Some (set_op_key_reserved op, updates)
              else Some (set_op_key_repeated op, updates)
            else Some (op, updates)
        end
  | WT_TXN_OP_REF_DELETE => Some (op, updates)
  | WT_TXN_OP_TRUNCATE_COL | WT_TXN_OP_TRUNCATE_ROW => Some (op, updates)
  end.

(** Prepare's loop; [rops] is [txn->mod] from its last entry to its first,
    and so is the result. *)
Fixpoint prepare_ops (txn : WT_TXN) (rops : list WT_TXN_OP)
    (updates : list WT_UPDATE) : option (list WT_TXN_OP * list WT_UPDATE) :=
  match rops with
  | [] => Some ([], updates)
  | op :: rest =>
      if op_metadata op then
        '(rest', updates') ← prepare_ops txn rest updates;
        Some (op :: rest', updates')
      else
        '(op', updates1) ← prepare_op txn op updates;
        '(rest', updates') ← prepare_ops txn rest updates1;
        Some (op' :: rest', updates')
  end.

Definition prepare_body (E : WT_EXTERN) (cfg : txn_cfg) : M Z :=
  fun st =>
  ((fun st => if negb (c_log_debug_mode (fst st))
              then WT_RET_ASSERT (negb (t_logrec (st_txn st))) EINVAL st
              else Next tt st) ;;
   (* Set the prepare timestamp. *)
   __wt_txn_set_timestamp cfg ;;
   (fun st => if negb (txn_isset st WT_TXN_HAS_TS_PREPARE)
              then WT_RET_MSG EINVAL st else Next tt st) ;;
   (fun st => if 0 <? ss_ncursors (snd st)
              then WT_RET (x_session_copy_values E) st else Next tt st) ;;
   (fun st =>
      match prepare_ops (st_txn st) (rev (t_mod (st_txn st)))
              (c_updates (fst st)) with
      | Some (rops, updates) => Next tt (store_ops (rev rops) updates st)
      | None => Fault
      end) ;;
   (* Set transaction state to prepare. *)
   modify (txn_set WT_TXN_PREPARE) ;;
   (* Release our snapshot in case it is keeping data pinned. *)
   modify __wt_txn_release_snapshot ;;
   (* Clear the transaction's ID from the global table. *)
   modify (fun st => if txn_isset st WT_TXN_HAS_ID
                     then __txn_remove_from_global_table st else st) ;;
   mret 0) st.

Definition __wt_txn_prepare (E : WT_EXTERN) (cfg : txn_cfg) (st : state)
  : outcome :=
  match prepare_body E cfg st with
  | Next r st => Returns r st
  | Exit r st => Returns r st
  | Abort st => Aborts st
  | Fault => Faults
  end.

(** *** Begin and id allocation *)

(** Modelled from the spec: [__wt_txn_id_check] and [__wt_txn_id_alloc] live
    in txn.i (not part of the sources at hand).  Section 4.1: a transaction
    without an id is given the table's [current] id, which is then advanced,
    so that every id is strictly greater than all ids allocated before; the
    slot is marked allocating while the id is obtained and carries the id
    once the mark is cleared. *)
Definition __wt_txn_id_check (st : state) : state :=
  if txn_isset st WT_TXN_HAS_ID then st
  else
    let id := g_current (st_global st) in
    let st := upd_txn_state (set_s_id id) st in
    let st := upd_global (set_g_current (id + 1)) st in
    txn_set WT_TXN_HAS_ID (upd_txn (set_t_id id) st).

(** Modelled from the spec: [__wt_txn_begin] lives in txn.i (not part of the
    sources at hand).  Sections 2 and 3: begin creates the running
    transaction with the session's isolation, and a snapshot-isolation
    transaction fixes its read view by calling the snapshot allocator. *)
Definition __wt_txn_begin (st : state) : option state :=
  let st := upd_txn (set_t_isolation (ss_isolation (snd st))) st in
  st ← (match t_isolation (st_txn st) with
        | WT_ISO_SNAPSHOT => __wt_txn_get_snapshot st
        | _ => Some st
        end);
  Some (txn_set WT_TXN_RUNNING st).

(** [__wt_txn_global_init] for a connection of [session_size] sessions: the
    fields of a zeroed structure that the function sets. *)
Definition zero_state : WT_TXN_STATE := mk_state 0 0 0 false.

Definition __wt_txn_global_init (session_size : nat) : WT_TXN_GLOBAL :=
  mk_global WT_TXN_FIRST WT_TXN_FIRST WT_TXN_FIRST WT_TXN_FIRST
    0 false zero_state 0 0 WT_TXN_NONE
    (replicate session_size (mk_state WT_TXN_NONE WT_TXN_NONE WT_TXN_NONE false)).

(** ** Sessions running against one table

    The connection with all its sessions, and the calls of txn.c that the
    sessions make one after the other, in any order. *)
Record system := mk_system {
  sy_conn : WT_CONNECTION_IMPL;
  sy_sessions : list WT_SESSION_IMPL
}.

(** A call a session makes, with its arguments and the behaviour of the
    callees outside txn.c during the call. *)
Inductive call :=
| call_begin
| call_id_check
| call_get_snapshot
| call_update_oldest (E : WT_EXTERN) (strict wait : bool)
| call_prepare (E : WT_EXTERN) (cfg : txn_cfg)
| call_commit (E : WT_EXTERN) (cfg : txn_cfg)
| call_rollback (E : WT_EXTERN).

Definition returned (o : outcome) : option state :=
  match o with
  | Returns _ st => Some st
  | Aborts _ => None
  | Faults => None
  end.

(** The state a call returns with; [None] when it does not return. *)
Definition run_call (c : call) (st : state) : option state :=
  match c with
  | call_begin => __wt_txn_begin st
  | call_id_check => Some (__wt_txn_id_check st)
  | call_get_snapshot => __wt_txn_get_snapshot st
  | call_update_oldest E strict wait =>
      snd <$> __wt_txn_update_oldest E strict wait st
  | call_prepare E cfg => returned (__wt_txn_prepare E cfg st)
  | call_commit E cfg => returned (__wt_txn_commit E cfg st)
  | call_rollback E => returned (__wt_txn_rollback E st)
  end.

(** The system once session [i] has returned from a call with the state
    [st]: the connection it leaves, and its own session structure. *)
Definition install (i : nat) (st : state) (sy : system) : system :=
  mk_system (fst st) (<[i := snd st]> (sy_sessions sy)).

(** Session [i] makes a call and returns from it. *)
Inductive sys_step (sy : system) : system -> Prop :=
| sys_step_call (i : nat) (se : WT_SESSION_IMPL) (c : call) (st' : state) :
    sy_sessions sy !! i = Some se ->
    run_call c (sy_conn sy, se) = Some st' ->
    sys_step sy (install i st' sy).

(** The system as [__wt_txn_global_init] and [__wt_txn_init] leave it: the
    table initialised for the sessions, session [i] owning slot [i], no
    transaction running. *)
Definition initial (sy : system) : Prop :=
  c_txn_global (sy_conn sy) = __wt_txn_global_init (length (sy_sessions sy)) /\
  forall i se, sy_sessions sy !! i = Some se ->
    ss_id se = i /\ t_id (ss_txn se) = WT_TXN_NONE /\ t_flags (ss_txn se) = [].

Inductive reachable : system -> Prop :=
| reachable_initial sy : initial sy -> reachable sy
| reachable_step sy sy' : reachable sy -> sys_step sy sy' -> reachable sy'.

(** The ordering of the published ids of the table. *)
Definition ids_ordered (g : WT_TXN_GLOBAL) : Prop :=
  g_metadata_pinned g <= g_oldest_id g /\
  g_oldest_id g <= g_last_running g /\
  g_last_running g <= g_current g.

(** Example systems and states used below. *)
Definition ex_txn : WT_TXN :=
  mk_txn WT_TXN_NONE WT_ISO_SNAPSHOT [] 0 0 [] 0 0 0 0 [] None false 0.
Definition ex_session (i : nat) : WT_SESSION_IMPL :=
  mk_session i ex_txn WT_ISO_SNAPSHOT 0 0 false 0.
Definition ex_conn : WT_CONNECTION_IMPL :=
  mk_conn (__wt_txn_global_init 3) 1 false false 0 [].
Definition ex_system : system :=
  mk_system ex_conn [ex_session 0; ex_session 1; ex_session 2].

(** Callees that all succeed; [__wt_txn_resolve_prepared_op] resolves one
    update per call. *)
Definition ex_extern : WT_EXTERN :=
  mk_extern 0 0 0 0 0 (fun _ => 0)
    (fun _ _ _ n updates => (0, n + 1, updates)) (fun _ _ updates => updates)
    (fun _ => 0) (fun op _ => (0, op_upd op)) (fun _ => 0) [].

(** A table whose published ids lag behind [current], and callees whose
    non-blocking lock acquisitions report EBUSY. *)
Definition ex_stale_state : state :=
  (mk_conn
     (mk_global 200 1 1 1 0 false zero_state 0 0 WT_TXN_NONE
        [mk_state 0 0 0 false; mk_state 150 150 0 false])
     1 false false 0 [],
   ex_session 0).

(** ** Predicates used in the statements *)

(** The test of the fast path of [__wt_txn_get_snapshot]: the session is in
    the current commit generation and its snapshot is of that generation. *)
Definition has_current_snapshot (st : state) : bool :=
  negb (__wt_session_gen_commit st =? 0) && txn_isset st WT_TXN_HAS_SNAPSHOT &&
  (__wt_session_gen_commit st =? __wt_gen_commit st).

(** [x] is the id published at a slot other than [own], in the window the
    snapshot walk accepts. *)
Definition published_elsewhere (states : list WT_TXN_STATE) (own : nat)
    (prev_oldest_id current_id x : Z) : Prop :=
  exists j s, states !! j = Some s /\ j <> own /\ s_id s = x /\
              x <> WT_TXN_NONE /\ prev_oldest_id <= x < current_id.

(** The slots [states'] are the slots [states] except that the slot [own]
    may have been rewritten, its id kept or cleared. *)
Definition slots_frame (own : nat) (states states' : list WT_TXN_STATE)
  : Prop :=
  length states' = length states /\
  forall j s', states' !! j = Some s' ->
    exists s, states !! j = Some s /\
              (s_id s' = s_id s \/ (j = own /\ s_id s' = WT_TXN_NONE)).

(** What a call leaves untouched in the table and in the calling session:
    the session's slot index, [current], the published ids, the checkpoint
    id, the ids in the slots of the other sessions; the caller's own ids are
    kept or cleared. *)
Definition table_frame (st st' : state) : Prop :=
  ss_id (snd st') = ss_id (snd st) /\
  g_current (st_global st') = g_current (st_global st) /\
  g_metadata_pinned (st_global st') = g_metadata_pinned (st_global st) /\
  g_oldest_id (st_global st') = g_oldest_id (st_global st) /\
  g_last_running (st_global st') = g_last_running (st_global st) /\
  g_checkpoint_id (st_global st') = g_checkpoint_id (st_global st) /\
  s_id (g_checkpoint_state (st_global st')) =
    s_id (g_checkpoint_state (st_global st)) /\
  slots_frame (ss_id (snd st)) (g_states (st_global st))
    (g_states (st_global st')) /\
  (t_id (st_txn st') = t_id (st_txn st) \/ t_id (st_txn st') = WT_TXN_NONE).

(** A snapshot the session holds afterwards is the one it held before. *)
Definition snapshot_kept (st st' : state) : Prop :=
  txn_isset st' WT_TXN_HAS_SNAPSHOT = true ->
  txn_isset st WT_TXN_HAS_SNAPSHOT = true /\
  t_id (st_txn st') = t_id (st_txn st) /\
  t_snapshot (st_txn st') = t_snapshot (st_txn st) /\
  t_snap_max (st_txn st') = t_snap_max (st_txn st).

Definition frame (st st' : state) : Prop :=
  table_frame st st' /\ snapshot_kept st st'.

(** No session is the checkpoint session. *)
Definition no_checkpoint (st : state) : Prop :=
  g_checkpoint_id (st_global st) = 0.

(** The state in which [__wt_txn_get_snapshot] walks the slots: the session
    has entered the current commit generation. *)
Definition entered (st : state) : state :=
  __wt_session_gen_enter
    (if negb (__wt_session_gen_commit st =? 0)
     then __wt_session_gen_leave st else st).

(** No transaction but the caller's is active: no checkpoint runs and the
    slots of the other sessions publish no id. *)
Definition no_other_active (st : state) : Prop :=
  s_id (g_checkpoint_state (st_global st)) = WT_TXN_NONE /\
  forall j s, g_states (st_global st) !! j = Some s ->
              j <> ss_id (snd st) -> s_id s = WT_TXN_NONE.

(** A table with one running transaction (id 5, session 1), seen from
    session 0, and the same table with no transaction running. *)
Definition ex_busy_table_state : state :=
  (mk_conn
     (mk_global 9 3 3 3 0 false zero_state 0 0 WT_TXN_NONE
        [mk_state 0 0 0 false; mk_state 5 3 0 false; mk_state 0 0 0 false])
     1 false false 0 [],
   ex_session 0).
Definition ex_empty_table_state : state :=
  (mk_conn
     (mk_global 9 3 3 3 0 false zero_state 0 0 WT_TXN_NONE
        [mk_state 0 0 0 false; mk_state 0 0 0 false; mk_state 0 0 0 false])
     1 false false 0 [],
   ex_session 0).

(** A table with two running transactions, id 7 in the slot of session 1
    and id 5 in the slot of session 2, seen from session 0: the walk over
    the slots meets 7 before 5. *)
Definition ex_two_running_state : state :=
  (mk_conn
     (mk_global 9 3 3 3 0 false zero_state 0 0 WT_TXN_NONE
        [mk_state 0 0 0 false; mk_state 7 3 0 false; mk_state 5 3 0 false])
     1 false false 0 [],
   ex_session 0).

(** A table on which the transaction of session 1, id 6, runs a checkpoint:
    its id is published in [checkpoint_state] and is gone from its slot;
    sessions 0 and 2 run the transactions 7 and 5.  The table seen from
    session [i], whose transaction has the id [id]. *)
Definition ex_checkpoint_conn : WT_CONNECTION_IMPL :=
  mk_conn
    (mk_global 8 5 5 5 0 false (mk_state 6 0 0 false) 0 1 WT_TXN_NONE
       [mk_state 7 0 0 false; mk_state 0 0 0 false; mk_state 5 0 0 false])
    1 false false 0 [].
Definition ex_checkpoint_state (i : nat) (id : Z) : state :=
  (ex_checkpoint_conn,
   mk_session i
     (mk_txn id WT_ISO_SNAPSHOT [WT_TXN_HAS_ID; WT_TXN_RUNNING]
        0 0 [] 0 0 0 0 [] None false 0)
     WT_ISO_SNAPSHOT 0 0 false 0).

(** A statement of a function body keeps the frame, whichever way it is
    left. *)
Definition frames {A} (m : M A) : Prop :=
  forall st, no_checkpoint st ->
    match m st with
    | Next _ st' => frame st st'
    | Exit _ st' => frame st st'
    | Abort st' => frame st st'
    | Fault => True
    end.

Definition outcome_frames (st : state) (o : outcome) : Prop :=
  match o with
  | Returns _ st' => frame st st'
  | Aborts st' => frame st st'
  | Faults => True
  end.

(** The invariant of the system: session [i] owns slot [i], no checkpoint
    runs, the published ids are ordered, every id in a slot or held by a
    transaction was allocated (it is below [current]), no slot publishes the
    id of another session's transaction, and a snapshot a transaction holds
    was cut at a [snap_max] that [current] has reached, above all of its
    entries, none of which is the transaction's own id. *)
Definition sys_inv (sy : system) : Prop :=
  let g := c_txn_global (sy_conn sy) in
  length (g_states g) = length (sy_sessions sy) /\
  (forall i se, sy_sessions sy !! i = Some se -> ss_id se = i) /\
  g_checkpoint_id g = 0 /\
  s_id (g_checkpoint_state g) = WT_TXN_NONE /\
  ids_ordered g /\
  0 < g_current g /\
  (forall j s, g_states g !! j = Some s -> s_id s < g_current g) /\
  (forall i se, sy_sessions sy !! i = Some se ->
     t_id (ss_txn se) < g_current g) /\
  (forall i j se s, i <> j -> sy_sessions sy !! i = Some se ->
     g_states g !! j = Some s -> s_id s <> WT_TXN_NONE ->
     s_id s <> t_id (ss_txn se)) /\
  (forall i se, sy_sessions sy !! i = Some se ->
     F_ISSET (t_flags (ss_txn se)) WT_TXN_HAS_SNAPSHOT = true ->
     t_snap_max (ss_txn se) <= g_current g /\
     forall x, x ∈ t_snapshot (ss_txn se) ->
       x < t_snap_max (ss_txn se) /\ x <> t_id (ss_txn se)).

(** Session [i] of [sy] makes the call [c]; the system is left as it is when
    there is no such session or the call does not return. *)
Definition sys_run (i : nat) (c : call) (sy : system) : system :=
  match sy_sessions sy !! i with
  | Some se =>
      match run_call c (sy_conn sy, se) with
      | Some st' => install i st' sy
      | None => sy
      end
  | None => sy
  end.

(** Sessions 1 and 2 begin and are given ids 1 and 2, then session 0 begins
    and takes its snapshot, then scans for the oldest id. *)
Definition ex_trace_system : system :=
  sys_run 0 (call_update_oldest ex_extern true true)
    (sys_run 0 call_begin
       (sys_run 2 call_id_check
          (sys_run 2 call_begin
             (sys_run 1 call_id_check
                (sys_run 1 call_begin ex_system))))).

(** ** Example transactions *)

(** A prepared transaction of session 0: id 7, prepared at timestamp 100,
    with one row update, the update [c_updates !! 0].  Prepare has taken the
    id out of the slot and the update pointer out of the operation. *)
Definition ex_prepared_op : WT_TXN_OP :=
  mk_op WT_TXN_OP_BASIC_ROW 3 false None 1 false false.
Definition ex_prepared_txn : WT_TXN :=
  mk_txn 7 WT_ISO_SNAPSHOT
    [WT_TXN_PREPARE; WT_TXN_HAS_TS_PREPARE; WT_TXN_HAS_ID; WT_TXN_RUNNING]
    0 0 [] 0 0 0 100 [ex_prepared_op] None false 0.
Definition ex_table : WT_TXN_GLOBAL :=
  mk_global 8 8 8 8 90 true zero_state 0 0 WT_TXN_NONE
    [mk_state 0 0 0 false; mk_state 0 0 0 false; mk_state 0 0 0 false].
Definition ex_prepared_state : state :=
  (mk_conn ex_table 1 false false 0
     [mk_update 7 100 0 WT_PREPARE_INPROGRESS WT_UPDATE_STANDARD None],
   mk_session 0 ex_prepared_txn WT_ISO_SNAPSHOT 0 0 false 0).

(** A running transaction of session 0: id 7, with one row update. *)
Definition ex_running_op : WT_TXN_OP :=
  mk_op WT_TXN_OP_BASIC_ROW 3 false (Some 0%nat) 1 false false.
Definition ex_running_txn (notify : option (Z -> bool -> Z)) : WT_TXN :=
  mk_txn 7 WT_ISO_SNAPSHOT [WT_TXN_HAS_ID; WT_TXN_RUNNING]
    0 0 [] 0 0 0 0 [ex_running_op] notify false 0.
Definition ex_running_table : WT_TXN_GLOBAL :=
  mk_global 8 7 7 7 90 true zero_state 0 0 WT_TXN_NONE
    [mk_state 7 0 0 false; mk_state 0 0 0 false; mk_state 0 0 0 false].
Definition ex_running_state (notify : option (Z -> bool -> Z)) : state :=
  (mk_conn ex_running_table 1 false false 0
     [mk_update 7 0 0 WT_PREPARE_INIT WT_UPDATE_STANDARD None],
   mk_session 0 (ex_running_txn notify) WT_ISO_SNAPSHOT 0 0 false 0).

(** Configurations of commit. *)
Definition ex_cfg (commit_ts durable_ts : option Z) : txn_cfg :=
  mk_cfg commit_ts durable_ts None "".


(** ** Rollback: what is returned, and when the loop runs to its end *)

(** [op->type] is one of the four update kinds. *)
Definition is_update_op (t : wt_txn_type) : bool :=
  match t with
  | WT_TXN_OP_BASIC_COL | WT_TXN_OP_BASIC_ROW
  | WT_TXN_OP_INMEM_COL | WT_TXN_OP_INMEM_ROW => true
  | _ => false
  end.

(** [ret] after the operation [op] of rollback's loop, when the operation
    does not leave the function. *)
Definition rollback_op_status (E : WT_EXTERN) (ret : Z) (op : WT_TXN_OP) : Z :=
  if op_metadata op then ret
  else match op_type op with
       | WT_TXN_OP_REF_DELETE => WT_TRET ret (x_delete_page_rollback E op)
       | _ => ret
       end.


(** The operation as rollback's loop leaves it. *)
Definition rolled_back_op (op : WT_TXN_OP) : WT_TXN_OP :=
  if op_metadata op then op else __wt_txn_op_free op.


(** ** The global durable timestamp *)

Definition durable_kept (st st' : state) : Prop :=
  g_durable_timestamp (st_global st') = g_durable_timestamp (st_global st).

(** The statement leaves the global durable timestamp alone, and leaves
    the function with an error only. *)
Definition keeps_durable {A} (m : M A) : Prop :=
  forall st,
    match m st with
    | Next _ st' => durable_kept st st'
    | Exit r st' => r <> 0 /\ durable_kept st st'
    | Abort st' => durable_kept st st'
    | Fault => True
    end.

(** The candidate durable timestamp of a call of commit: that of the
    transaction once the timestamps of the configuration are set and
    checked (the first stage of commit); none when that stage leaves
    commit. *)
Definition commit_candidate (cfg : txn_cfg) (st : state) : Z :=
  match commit_timestamps cfg (txn_isset st WT_TXN_PREPARE) st with
  | Next _ st1 => candidate_durable_timestamp (st_txn st1)
  | _ => WT_TS_NONE
  end.

Definition candidate_kept (st st' : state) : Prop :=
  candidate_durable_timestamp (st_txn st') =
  candidate_durable_timestamp (st_txn st).

(** The statement, when it falls through, leaves the timestamps of the
    transaction that make its candidate. *)
Definition keeps_candidate {A} (m : M A) : Prop :=
  forall st,
    match m st with
    | Next _ st' => candidate_kept st st'
    | _ => True
    end.

(** Callees during a commit while two other commits move the global durable
    timestamp to 95 and then to 140. *)
Definition ex_extern_durable_writes : WT_EXTERN :=
  mk_extern 0 0 0 0 0 (fun _ => 0)
    (fun _ _ _ n updates => (0, n + 1, updates)) (fun _ _ updates => updates)
    (fun _ => 0) (fun op _ => (0, op_upd op)) (fun _ => 0) [95; 140].

(** ** Further predicates and examples *)

(** No slot of the table publishes anything, no checkpoint runs and no
    named snapshot is held. *)
Definition idle_table (g : WT_TXN_GLOBAL) : Prop :=
  s_id (g_checkpoint_state g) = WT_TXN_NONE /\
  g_nsnap_oldest_id g = WT_TXN_NONE /\
  forall s, s ∈ g_states g ->
    s_id s = WT_TXN_NONE /\ s_pinned_id s = WT_TXN_NONE /\
    s_metadata_pinned s = WT_TXN_NONE.

(** An idle table whose published ids were left behind at 3 while [current]
    went on to 9. *)
Definition ex_idle_state : state :=
  (mk_conn
     (mk_global 9 3 3 3 0 false zero_state 0 0 WT_TXN_NONE
        [mk_state 0 0 0 false; mk_state 0 0 0 false; mk_state 0 0 0 false])
     1 false false 0 [],
   ex_session 0).

(** Callees whose pinned-timestamp update fails with EINVAL. *)
Definition ex_extern_pinned_fails : WT_EXTERN :=
  mk_extern EINVAL 0 0 0 0 (fun _ => 0)
    (fun _ _ _ n updates => (0, n + 1, updates)) (fun _ _ updates => updates)
    (fun _ => 0) (fun op _ => (0, op_upd op)) (fun _ => 0) [].

(** ** Eviction's questions to a transaction *)

(** [WT_ROLLBACK], an error code of wiredtiger.h (not part of the sources at
    hand), next to the codes above. *)
Definition WT_ROLLBACK : Z := -31800.

(** [__wt_txn_rollback_required]: the value returned and the reason stored
    in [session->txn.rollback_reason] (a field the transaction record of the
    embedding does not carry, so it is handed back). *)
Definition __wt_txn_rollback_required (reason : string) : Z * option string :=
  (WT_ROLLBACK, Some reason).

(** The [for] loop of [__wt_txn_is_blocking_old] from slot [i] on: the value
    of [i] when the loop is left, by [break] or at [session_cnt]. *)
Fixpoint blocking_old_walk (states : list WT_TXN_STATE) (txn_id : Z) (i : nat)
  : nat :=
  match states with
  | [] => i
  | state :: rest =>
      if s_is_allocating state then blocking_old_walk rest txn_id (S i)
      else
        let id := s_id state in
        if negb (id =? WT_TXN_NONE) && WT_TXNID_LT id txn_id then i
        else blocking_old_walk rest txn_id (S i)
  end.

(** [__wt_txn_is_blocking_old]: the value returned and the rollback reason
    stored, if any. *)
Definition __wt_txn_is_blocking_old (st : state) : Z * option string :=
  let txn := st_txn st in
  let txn_global := st_global st in
  if (t_id txn =? WT_TXN_NONE) || F_ISSET (t_flags txn) WT_TXN_PREPARE
  then (0, None)
  else
    let session_cnt := length (g_states txn_global) in
    let i := blocking_old_walk (g_states txn_global) (t_id txn) 0 in
    if Nat.eqb i session_cnt
    then __wt_txn_rollback_required
           "oldest transaction ID rolled back for eviction"
    else (0, None).

(** The [for] loop of [__wt_txn_is_blocking_pin] over [conn->sessions] from
    entry [i] on; an entry is a session with its WT_SESSION_INTERNAL flag
    (a flag the session record of the embedding does not carry). *)
Fixpoint blocking_pin_walk (sessions : list (bool * WT_SESSION_IMPL))
    (txn_snap_min : Z) (i : nat) : nat :=
  match sessions with
  | [] => i
  | (internal, s) :: rest =>
      if internal || negb (F_ISSET (t_flags (ss_txn s)) WT_TXN_HAS_SNAPSHOT)
      then blocking_pin_walk rest txn_snap_min (S i)
      else
        let snap_min := t_snap_min (ss_txn s) in
        if negb (snap_min =? WT_TXN_NONE) && (snap_min <? txn_snap_min) then i
        else blocking_pin_walk rest txn_snap_min (S i)
  end.

(** [__wt_txn_is_blocking_pin] for the transaction [txn] of the calling
    session; [timer_fired] is what [__wt_op_timer_fired] (not part of the
    sources at hand) returns. *)
Definition __wt_txn_is_blocking_pin (timer_fired : bool)
    (sessions : list (bool * WT_SESSION_IMPL)) (txn : WT_TXN)
  : Z * option string :=
  if negb (F_ISSET (t_flags txn) WT_TXN_HAS_SNAPSHOT) ||
     (t_snap_min txn =? WT_TXN_NONE)
  then (0, None)
  else if negb timer_fired then (0, None)
  else
    let session_cnt := length sessions in
    let i := blocking_pin_walk sessions (t_snap_min txn) 0 in
    if Nat.eqb i session_cnt
    then __wt_txn_rollback_required
           "oldest pinned transaction ID rolled back for eviction"
    else (0, None).

(** Two running transactions, ids 5 (session 1) and 7 (session 2), seen from
    each of the two sessions. *)
Definition ex_two_running_conn : WT_CONNECTION_IMPL :=
  mk_conn
    (mk_global 9 5 5 5 0 false zero_state 0 0 WT_TXN_NONE
       [mk_state 0 0 0 false; mk_state 5 0 0 false; mk_state 7 0 0 false])
    1 false false 0 [].
Definition ex_running_session (i : nat) (id snap_min : Z) : WT_SESSION_IMPL :=
  mk_session i
    (mk_txn id WT_ISO_SNAPSHOT
       [WT_TXN_HAS_SNAPSHOT; WT_TXN_HAS_ID; WT_TXN_RUNNING]
       snap_min 9 [] 0 0 0 0 [] None false 0)
    WT_ISO_SNAPSHOT 0 0 false 0.

(** ** Prepare and commit: the shape of the arena *)

(** The update as prepare leaves it: a reserved update carries the aborted
    id, any other is in the prepare state in progress, with the prepare
    timestamp as its start timestamp. *)
Definition prepared_update (ts : Z) (u : WT_UPDATE) : Prop :=
  if is_reserve (upd_type u) then upd_txnid u = WT_TXN_ABORTED
  else upd_prepare_state u = WT_PREPARE_INPROGRESS /\ upd_start_ts u = ts.

(** The update operation [op] points at an update of the arena whose [next]
    pointer is NULL or points into the arena. *)
Definition op_points (updates : list WT_UPDATE) (op : WT_TXN_OP) : Prop :=
  op_metadata op = false -> is_update_op (op_type op) = true ->
  exists p u, op_upd op = Some p /\ updates !! p = Some u /\
              match upd_next u with
              | None => True
              | Some q => (q < length updates)%nat
              end.

(** The arena [updates'] has the updates of [updates] with their types and
    [next] pointers, those prepared still prepared. *)
Definition prepared_kept (ts : Z) (updates updates' : list WT_UPDATE) : Prop :=
  length updates' = length updates /\
  forall p u, updates !! p = Some u ->
    exists u', updates' !! p = Some u' /\ upd_type u' = upd_type u /\
               upd_next u' = upd_next u /\
               (prepared_update ts u -> prepared_update ts u').

(** A running transaction of session 0 with two row updates of one key, the
    newer one ([c_updates !! 1]) chained to the older. *)
Definition ex_two_updates_state : state :=
  (mk_conn ex_running_table 1 false false 0
     [mk_update 7 0 0 WT_PREPARE_INIT WT_UPDATE_STANDARD None;
      mk_update 7 0 0 WT_PREPARE_INIT WT_UPDATE_STANDARD (Some 0%nat)],
   mk_session 0
     (mk_txn 7 WT_ISO_SNAPSHOT [WT_TXN_HAS_ID; WT_TXN_RUNNING]
        0 0 [] 0 0 0 0
        [mk_op WT_TXN_OP_BASIC_ROW 3 false (Some 0%nat) 1 false false;
         mk_op WT_TXN_OP_BASIC_ROW 3 false (Some 1%nat) 1 false false]
        None false 0)
     WT_ISO_SNAPSHOT 0 0 false 0).

(** The update operation [op] points into an arena of [n] updates. *)
Definition op_in_arena (n : nat) (op : WT_TXN_OP) : Prop :=
  is_update_op (op_type op) = true ->
  exists p, op_upd op = Some p /\ (p < n)%nat.

(** The per-key timestamp checks of commit are off. *)
Definition keys_off (st : state) : Prop :=
  txn_isset st WT_TXN_TS_COMMIT_KEYS = false /\
  txn_isset st WT_TXN_TS_DURABLE_KEYS = false.

(** What the statements of commit before the updates are processed leave
    alone: the update arena, the operation list, and the flags that select
    the prepared path and the per-key checks. *)
Definition commit_kept (st st' : state) : Prop :=
  c_updates (fst st') = c_updates (fst st) /\
  t_mod (st_txn st') = t_mod (st_txn st) /\
  txn_isset st' WT_TXN_PREPARE = txn_isset st WT_TXN_PREPARE /\
  txn_isset st' WT_TXN_TS_COMMIT_KEYS = txn_isset st WT_TXN_TS_COMMIT_KEYS /\
  txn_isset st' WT_TXN_TS_DURABLE_KEYS = txn_isset st WT_TXN_TS_DURABLE_KEYS.

Definition runs_kept {A} (m : M A) : Prop :=
  forall st, keys_off st ->
    match m st with
    | Next _ st' => commit_kept st st'
    | Exit _ st' => commit_kept st st'
    | Abort _ => False
    | Fault => False
    end.

(** ** Auxiliary notions of the proofs *)

(** The pivot of [__snapsort_impl] is the median of three array entries. *)
Definition median3 (v1 v2 v3 : Z) : Z :=
  if v1 <? v2
  then (if v3 <? v1 then v1 else WT_MIN v2 v3)
  else (if v3 <? v2 then v2 else WT_MIN v1 v3).

(** A session whose transaction has collected 22 ids, in no order. *)
Definition ex_sort_state : state :=
  (mk_conn (mk_global 41 1 1 1 0 false (mk_state 0 0 0 false) 0 0 0 [])
     1 false false 0 [],
   mk_session 0
     (mk_txn 0 WT_ISO_SNAPSHOT [] 0 0
        [40; 7; 33; 12; 5; 29; 18; 3; 36; 21; 9; 27; 14; 38; 1; 24;
         31; 16; 10; 35; 2; 22] 0 0 0 0 [] None false 0)
     WT_ISO_SNAPSHOT 0 0 false 0).

(** [st'] is [st] with the three published ids replaced by ids that are not
    behind them and that are ordered whenever those of [st] are. *)
Definition same_but_ids (st st' : state) : Prop :=
  snd st' = snd st /\
  exists metadata_pinned oldest_id last_running,
    st' = upd_global (set_g_ids metadata_pinned oldest_id last_running) st /\
    g_metadata_pinned (st_global st) <= metadata_pinned /\
    g_oldest_id (st_global st) <= oldest_id /\
    g_last_running (st_global st) <= last_running /\
    (ids_ordered (st_global st) ->
     metadata_pinned <= oldest_id <= last_running /\
     last_running <= g_current (st_global st)).

(** The projections the frame speaks about. *)
Definition frame_view (st : state) :=
  (ss_id (snd st), g_current (st_global st), g_metadata_pinned (st_global st),
   g_oldest_id (st_global st), g_last_running (st_global st),
   g_checkpoint_id (st_global st), s_id (g_checkpoint_state (st_global st)),
   g_states (st_global st), t_id (st_txn st)).

(** The projections [snapshot_kept] speaks about. *)
Definition snapshot_view (st : state) :=
  (txn_isset st WT_TXN_HAS_SNAPSHOT, t_id (st_txn st), t_snapshot (st_txn st),
   t_snap_max (st_txn st)).

(** The arena [updates'] has the updates of [updates], those aborted still
    aborted. *)
Definition aborted_kept (updates updates' : list WT_UPDATE) : Prop :=
  length updates' = length updates /\
  forall p u, updates !! p = Some u -> upd_txnid u = WT_TXN_ABORTED ->
    exists u', updates' !! p = Some u' /\ upd_txnid u' = WT_TXN_ABORTED.

(** * Properties *)

(** ** Machine arithmetic *)

Lemma wrap32_small z : 0 <= z < 2 ^ 32 -> wrap32 z = z.
Proof. intros H. unfold wrap32. apply Z.mod_small. exact H. Qed.

Lemma wrap32_succ_pred z : 0 <= z < 2 ^ 32 -> wrap32 (wrap32 (z - 1) + 1) = z.
Proof.
  intros H. unfold wrap32.
  rewrite Zplus_mod_idemp_l.
  replace (z - 1 + 1) with z by lia.
  apply Z.mod_small. exact H.
Qed.

Lemma aget_Some_lt (array : list Z) i v :
  0 <= i -> aget array i = Some v -> i < Z.of_nat (length array).
Proof.
  unfold aget. intros Hi H. apply lookup_lt_Some in H. lia.
Qed.

Lemma aget_is_Some (array : list Z) i :
  0 <= i < Z.of_nat (length array) -> exists v, aget array i = Some v.
Proof.
  intros Hi. unfold aget.
  destruct (lookup_lt_is_Some_2 array (Z.to_nat i)) as [v Hv]; [lia|].
  exists v. exact Hv.
Qed.

(** ** The two inner scans stop at a sentinel *)

Lemma scan_down_stops fuel : forall (array : list Z) pivot j p vp,
  0 <= p < j -> j <= Z.of_nat (length array) -> Z.of_nat (length array) < 2 ^ 32 ->
  aget array p = Some vp -> vp <= pivot ->
  (j - p <= Z.of_nat fuel) ->
  exists j' v, scan_down fuel array pivot j = Some j' /\
            p <= j' < j /\ aget array j' = Some v /\ v <= pivot.
Proof.
  induction fuel as [|fuel IH]; intros array pivot j p vp Hp Hj Hlen Hvp Hle Hfuel.
  - lia.
  - cbn [scan_down].
    rewrite (wrap32_small (j - 1)) by lia.
    destruct (aget_is_Some array (j - 1)) as [v Hv]; [lia|].
    rewrite Hv. cbn.
    destruct (Z.ltb_spec pivot v) as [Hlt|Hge].
    + assert (p <> j - 1) by (intros ->; rewrite Hvp in Hv; inversion Hv; lia).
      destruct (IH array pivot (j - 1) p vp) as (j' & v' & Hs & Hr & Hg & Hv');
        try lia; auto.
      exists j', v'. repeat split; auto; lia.
    + exists (j - 1), v. repeat split; auto; lia.
Qed.

Lemma scan_up_stops fuel : forall (array : list Z) pivot i q vq,
  -1 <= i < q -> q < Z.of_nat (length array) -> Z.of_nat (length array) < 2 ^ 32 ->
  aget array q = Some vq -> pivot <= vq ->
  (q - i <= Z.of_nat fuel) ->
  exists i' v, scan_up fuel array pivot (wrap32 i) = Some i' /\
            i < i' <= q /\ aget array i' = Some v /\ pivot <= v.
Proof.
  induction fuel as [|fuel IH]; intros array pivot i q vq Hq Hql Hlen Hvq Hle Hfuel.
  - lia.
  - cbn [scan_up].
    replace (wrap32 (wrap32 i + 1)) with (i + 1).
    2:{ unfold wrap32. rewrite Zplus_mod_idemp_l. rewrite Z.mod_small; lia. }
    destruct (aget_is_Some array (i + 1)) as [v Hv]; [lia|].
    rewrite Hv. cbn.
    destruct (Z.ltb_spec v pivot) as [Hlt|Hge].
    + assert (q <> i + 1) by (intros ->; rewrite Hvq in Hv; inversion Hv; lia).
      destruct (IH array pivot (i + 1) q vq) as (i' & v' & Hs & Hr & Hg & Hv');
        try lia; auto.
      rewrite (wrap32_small (i + 1)) in Hs by lia.
      exists i', v'. repeat split; auto; lia.
    + exists (i + 1), v. repeat split; auto; lia.
Qed.

Lemma aget_aset_eq (array : list Z) i v :
  0 <= i < Z.of_nat (length array) -> aget (aset array i v) i = Some v.
Proof.
  intros Hi. unfold aget, aset. apply list_lookup_insert_eq. lia.
Qed.

Lemma aget_aset_ne (array : list Z) i k v :
  0 <= i -> 0 <= k -> i <> k -> aget (aset array i v) k = aget array k.
Proof.
  intros Hi Hk Hne. unfold aget, aset. apply list_lookup_insert_ne. lia.
Qed.

Lemma aset_length (array : list Z) i v : length (aset array i v) = length array.
Proof. unfold aset. apply length_insert. Qed.

Lemma swap_Permutation (array : list Z) i j vi vj :
  aget array i = Some vi -> aget array j = Some vj ->
  aset (aset array i vj) j vi ≡ₚ array.
Proof. unfold aget, aset. apply Permutation_insert_swap. Qed.

(** ** The partition loop: in bounds, terminating, a permutation, and the
    split point lies in [f, l) *)

Lemma partition_loop_ok fuel : forall (array : list Z) pivot f l i j,
  0 <= f -> l < Z.of_nat (length array) -> Z.of_nat (length array) < 2 ^ 32 ->
  f - 1 <= i -> i < j -> j <= l + 1 ->
  (exists p vp, f <= p /\ i <= p /\ p < j /\ aget array p = Some vp /\ vp <= pivot) ->
  (exists q vq, i < q /\ q <= l /\ q <= j /\ aget array q = Some vq /\ pivot <= vq /\
                (q < l \/ j <= l)) ->
  j - i <= Z.of_nat fuel ->
  exists array' m,
    partition_loop fuel array pivot (wrap32 i) j = Some (array', m) /\
    array ≡ₚ array' /\ f <= m < l.
Proof.
  induction fuel as [|fuel IH];
    intros array pivot f l i j Hf Hl Hlen Hi Hij Hj
      (p & vp & Hp1 & Hp2 & Hp3 & Hp4 & Hp5)
      (q & vq & Hq1 & Hq2 & Hq3 & Hq4 & Hq5 & Hq6) Hfuel.
  - lia.
  - cbn [partition_loop].
    destruct (scan_down_stops (S (length array)) array pivot j p vp)
      as (j' & vj & Hsd & Hj' & Hgj & Hvj); try lia; auto.
    destruct (scan_up_stops (S (length array)) array pivot i q vq)
      as (i' & vi & Hsu & Hi' & Hgi & Hvi); try lia; auto.
    rewrite Hsd, Hsu. cbn.
    destruct (Z.ltb_spec i' j') as [Hlt|Hge].
    + rewrite Hgi, Hgj. cbn.
      set (array2 := aset (aset array i' vj) j' vi).
      assert (Hperm : array2 ≡ₚ array) by (apply swap_Permutation; auto).
      assert (Hlen2 : length array2 = length array)
        by (unfold array2; rewrite !aset_length; reflexivity).
      destruct (IH array2 pivot f l i' j') as (array' & m & Hpl & Hperm' & Hm);
        try lia.
      * exists i', vj. repeat split; try lia.
        unfold array2. rewrite aget_aset_ne by lia.
        apply aget_aset_eq. lia.
      * exists j', vi. repeat split; try lia.
        unfold array2. apply aget_aset_eq. rewrite aset_length. lia.
      * rewrite (wrap32_small i') in Hpl by lia.
        exists array', m. split; [exact Hpl|]. split; [|exact Hm].
        rewrite <- Hperm'. symmetry. exact Hperm.
    + exists array, j'. split; [reflexivity|]. split; [reflexivity|]. lia.
Qed.

Lemma __snapsort_partition_ok (array : list Z) f l pivot :
  0 <= f -> f < l -> l < Z.of_nat (length array) -> Z.of_nat (length array) < 2 ^ 32 ->
  (exists p vp, f <= p <= l /\ aget array p = Some vp /\ vp <= pivot) ->
  (exists q vq, f <= q < l /\ aget array q = Some vq /\ pivot <= vq) ->
  exists array' m,
    __snapsort_partition array f l pivot = Some (array', m) /\
    array ≡ₚ array' /\ f <= m < l.
Proof.
  intros Hf Hfl Hl Hlen (p & vp & Hp & Hgp & Hvp) (q & vq & Hq & Hgq & Hvq).
  unfold __snapsort_partition.
  rewrite (wrap32_small (l + 1)) by lia.
  apply (partition_loop_ok (S (length array)) array pivot f l (f - 1) (l + 1));
    try lia.
  - exists p, vp. repeat split; auto; lia.
  - exists q, vq. repeat split; auto; lia.
Qed.

Lemma median3_bounds v1 v2 v3 :
  let m := median3 v1 v2 v3 in
  (v1 <= m \/ v2 <= m \/ v3 <= m) /\ (m <= v1 \/ m <= v3).
Proof.
  unfold median3, WT_MIN.
  repeat match goal with
         | |- context [?a <? ?b] => destruct (Z.ltb_spec a b)
         end; cbn; lia.
Qed.

Lemma __snapsort_impl_ok fuel : forall (array : list Z) f l,
  0 <= f -> f < 2 ^ 31 -> l < Z.of_nat (length array) ->
  Z.of_nat (length array) < 2 ^ 31 ->
  (0 < fuel)%nat -> l - f < Z.of_nat fuel ->
  exists array', __snapsort_impl fuel array f l = Some array' /\ array ≡ₚ array'.
Proof.
  induction fuel as [|fuel IH]; intros array f l Hf Hf31 Hl Hlen Hpos Hfuel.
  - lia.
  - cbn [__snapsort_impl].
    rewrite (wrap32_small (f + 16)) by lia.
    destruct (Z.ltb_spec (f + 16) l) as [Hlt|Hge].
    2:{ exists array. split; reflexivity. }
    rewrite (wrap32_small (f + l)) by lia.
    assert (Hmid : f < (f + l) / 2 < l).
    { assert (f + 1 <= (f + l) / 2) by (apply Z.div_le_lower_bound; lia).
      assert ((f + l) / 2 < l) by (apply Z.div_lt_upper_bound; lia).
      lia. }
    destruct (aget_is_Some array f) as [v1 Hv1]; [lia|].
    destruct (aget_is_Some array l) as [v2 Hv2]; [lia|].
    destruct (aget_is_Some array ((f + l) / 2)) as [v3 Hv3]; [lia|].
    rewrite Hv1, Hv2, Hv3. cbn -[WT_MIN Z.ltb __snapsort_partition].
    change (if v1 <? v2 then if v3 <? v1 then v1 else WT_MIN v2 v3
            else if v3 <? v2 then v2 else WT_MIN v1 v3)
      with (median3 v1 v2 v3).
    destruct (median3_bounds v1 v2 v3) as [Hlo Hhi].
    destruct (__snapsort_partition_ok array f l (median3 v1 v2 v3))
      as (array1 & m & Hpart & Hperm1 & Hm); try lia.
    { destruct Hlo as [H|[H|H]].
      - exists f, v1. repeat split; auto; lia.
      - exists l, v2. repeat split; auto; lia.
      - exists ((f + l) / 2), v3. repeat split; auto; lia. }
    { destruct Hhi as [H|H].
      - exists f, v1. repeat split; auto; lia.
      - exists ((f + l) / 2), v3. repeat split; auto; lia. }
    rewrite Hpart. cbn.
    assert (Hlen1 : length array1 = length array)
      by (symmetry; apply Permutation_length; exact Hperm1).
    destruct (IH array1 f m) as (array2 & Himpl1 & Hperm2); try lia.
    rewrite Himpl1. cbn.
    assert (Hlen2 : length array2 = length array1)
      by (symmetry; apply Permutation_length; exact Hperm2).
    rewrite (wrap32_small (m + 1)) by lia.
    destruct (IH array2 (m + 1) l) as (array3 & Himpl2 & Hperm3); try lia.
    exists array3. split; [exact Himpl2|].
    rewrite Hperm1, Hperm2. exact Hperm3.
Qed.

(** ** The insertion sort that finishes the job *)

Lemma insert_ordered_Permutation v (sorted : list Z) :
  insert_ordered v sorted ≡ₚ v :: sorted.
Proof.
  induction sorted as [|x rest IH]; cbn; [reflexivity|].
  destruct (WT_TXNID_LT v x); [reflexivity|].
  rewrite IH. apply Permutation_swap.
Qed.

Lemma insert_ordered_sorted v (sorted : list Z) :
  StronglySorted Z.le sorted -> StronglySorted Z.le (insert_ordered v sorted).
Proof.
  induction sorted as [|x rest IH]; intros Hs; cbn.
  - repeat constructor.
  - apply StronglySorted_inv in Hs as [Hrest Hx].
    unfold WT_TXNID_LT. destruct (Z.ltb_spec v x) as [Hlt|Hge].
    + constructor; [constructor; assumption|].
      constructor; [lia|].
      eapply Forall_impl; [exact Hx|]. cbn. intros; lia.
    + constructor; [apply IH; exact Hrest|].
      rewrite insert_ordered_Permutation. constructor; assumption.
Qed.

Lemma WT_INSERTION_SORT_acc (array sorted : list Z) :
  StronglySorted Z.le sorted ->
  let out := foldl (fun sorted v => insert_ordered v sorted) sorted array in
  StronglySorted Z.le out /\ out ≡ₚ sorted ++ array.
Proof.
  revert sorted. induction array as [|v rest IH]; intros sorted Hs; cbn.
  - split; [exact Hs|]. rewrite app_nil_r. reflexivity.
  - destruct (IH (insert_ordered v sorted)) as [H1 H2].
    { apply insert_ordered_sorted. exact Hs. }
    split; [exact H1|].
    cbn in H2. rewrite H2, insert_ordered_Permutation.
    rewrite <- Permutation_middle. reflexivity.
Qed.

Lemma WT_INSERTION_SORT_ok (array : list Z) :
  StronglySorted Z.le (WT_INSERTION_SORT array) /\
  WT_INSERTION_SORT array ≡ₚ array.
Proof.
  unfold WT_INSERTION_SORT.
  destruct (WT_INSERTION_SORT_acc array []) as [H1 H2]; [constructor|].
  split; [exact H1|exact H2].
Qed.

Lemma __snapsort_ok (array : list Z) size :
  size = Z.of_nat (length array) -> 1 < size < 2 ^ 31 ->
  exists out, __snapsort array size = Some out /\
              StronglySorted Z.le out /\ array ≡ₚ out.
Proof.
  intros Hsize Hrange. unfold __snapsort.
  rewrite (wrap32_small (size - 1)) by lia.
  destruct (__snapsort_impl_ok (S (length array)) array 0 (size - 1))
    as (array1 & Himpl & Hperm); try lia.
  rewrite Himpl. cbn.
  exists (WT_INSERTION_SORT array1).
  destruct (WT_INSERTION_SORT_ok array1) as [Hs Hp].
  split; [reflexivity|]. split; [exact Hs|].
  rewrite Hperm. symmetry. exact Hp.
Qed.

(** A sequence without repetition that ascends weakly ascends strictly. *)
Lemma StronglySorted_le_lt (l : list Z) :
  NoDup l -> StronglySorted Z.le l -> StronglySorted Z.lt l.
Proof.
  induction l as [|x rest IH]; intros Hnd Hs; [constructor|].
  apply NoDup_cons in Hnd as [Hx Hnd].
  apply StronglySorted_inv in Hs as [Hrest Hle].
  constructor; [apply IH; assumption|].
  rewrite Forall_forall in Hle |- *.
  intros y Hy. specialize (Hle y Hy).
  assert (x <> y) by (intros ->; apply Hx; exact Hy).
  lia.
Qed.

(** The array [__txn_sort_snapshot] leaves in [txn->snapshot]. *)
Lemma __txn_sort_snapshot_array n snap_max st st' :
  __txn_sort_snapshot n snap_max st = Some st' ->
  (if 1 <? n then __snapsort (t_snapshot (st_txn st)) n
   else Some (t_snapshot (st_txn st))) = Some (t_snapshot (st_txn st')).
Proof.
  unfold __txn_sort_snapshot. intros H.
  destruct (if 1 <? n then _ else _) as [snapshot|]; [|discriminate].
  cbn in H.
  destruct (if 0 <? n then _ else _) as [snap_min|]; [|discriminate].
  cbn in H. inversion H. reflexivity.
Qed.

Lemma __txn_sort_snapshot_returns n snap_max st :
  n = Z.of_nat (length (t_snapshot (st_txn st))) -> n < 2 ^ 31 ->
  exists st', __txn_sort_snapshot n snap_max st = Some st'.
Proof.
  intros Hn Hlt. unfold __txn_sort_snapshot.
  destruct (Z.ltb_spec 1 n) as [H1|H1].
  - destruct (__snapsort_ok (t_snapshot (st_txn st)) n) as (out & Hout & _ & Hp);
      [exact Hn|lia|].
    rewrite Hout. cbn.
    destruct (Z.ltb_spec 0 n); [|lia].
    destruct (aget_is_Some out 0) as [s0 Hs0].
    { apply Permutation_length in Hp. lia. }
    rewrite Hs0. cbn. eexists. reflexivity.
  - cbn. destruct (Z.ltb_spec 0 n) as [H0|H0].
    + destruct (aget_is_Some (t_snapshot (st_txn st)) 0) as [s0 Hs0]; [lia|].
      rewrite Hs0. cbn. eexists. reflexivity.
    + cbn. eexists. reflexivity.
Qed.

(** C3 -- Sort property.  For every snapshot array of distinct ids, the
    empty array and arrays of one entry included, the sort that
    [__txn_sort_snapshot] runs (a quicksort finished by an insertion sort)
    returns, and the array it leaves is strictly ascending and a
    permutation of the array it was given: it is the input in sorted order,
    the only strictly ascending arrangement of the input. *)
Theorem snapshot_sort_sorts (st : state) (n snap_max : Z) :
  n = Z.of_nat (length (t_snapshot (st_txn st))) ->
  n < 2 ^ 31 ->
  NoDup (t_snapshot (st_txn st)) ->
  exists st',
    __txn_sort_snapshot n snap_max st = Some st' /\
    StronglySorted Z.lt (t_snapshot (st_txn st')) /\
    t_snapshot (st_txn st) ≡ₚ t_snapshot (st_txn st') /\
    (forall sorted, StronglySorted Z.lt sorted ->
                    sorted ≡ₚ t_snapshot (st_txn st) ->
                    sorted = t_snapshot (st_txn st')).
Proof.
  intros Hn Hlt Hnd.
  destruct (__txn_sort_snapshot_returns n snap_max st Hn Hlt) as [st' Hst'].
  exists st'. split; [exact Hst'|].
  apply __txn_sort_snapshot_array in Hst'.
  assert (Hcore : StronglySorted Z.lt (t_snapshot (st_txn st')) /\
                  t_snapshot (st_txn st) ≡ₚ t_snapshot (st_txn st')).
  { destruct (Z.ltb_spec 1 n) as [H1|H1].
    - destruct (__snapsort_ok (t_snapshot (st_txn st)) n) as (out & Hout & Hs & Hp);
        [exact Hn|lia|].
      rewrite Hout in Hst'. inversion Hst'; subst out.
      split; [|exact Hp].
      apply StronglySorted_le_lt; [|exact Hs].
      rewrite <- Hp. exact Hnd.
    - inversion Hst' as [Heq]. split; [|reflexivity].
      destruct (t_snapshot (st_txn st)) as [|x [|y rest]]; cbn in Hn.
      + constructor.
      + repeat constructor.
      + lia. }
  destruct Hcore as [Hsorted Hperm].
  split; [exact Hsorted|]. split; [exact Hperm|].
  intros sorted Hs Hp.
  apply (StronglySorted_unique_strong Z.lt).
  - intros x y _ _ Hxy Hyx. lia.
  - exact Hs.
  - exact Hsorted.
  - rewrite Hp. exact Hperm.
Qed.

Lemma snapshot_sort_sorts_witness :
  exists st',
    __txn_sort_snapshot 22 41 ex_sort_state = Some st' /\
    StronglySorted Z.lt (t_snapshot (st_txn st')) /\
    t_snapshot (st_txn ex_sort_state) ≡ₚ t_snapshot (st_txn st') /\
    (forall sorted, StronglySorted Z.lt sorted ->
                    sorted ≡ₚ t_snapshot (st_txn ex_sort_state) ->
                    sorted = t_snapshot (st_txn st')).
Proof.
  apply (snapshot_sort_sorts ex_sort_state 22 41).
  - reflexivity.
  - reflexivity.
  - apply (bool_decide_unpack _). vm_compute. reflexivity.
Defined.

(** ** The oldest-id scan *)

Ltac id_cmp :=
  unfold WT_TXNID_LT, WT_TXNID_LE, WT_TXN_NONE in *;
  repeat match goal with
         | |- context [?a <? ?b] => destruct (Z.ltb_spec a b)
         | |- context [?a <=? ?b] => destruct (Z.leb_spec a b)
         | |- context [?a =? ?b] => destruct (Z.eqb_spec a b)
         | H : context [?a <? ?b] |- _ => destruct (Z.ltb_spec a b)
         | H : context [?a <=? ?b] |- _ => destruct (Z.leb_spec a b)
         | H : context [?a =? ?b] |- _ => destruct (Z.eqb_spec a b)
         end.

Lemma oldest_scan_visit_le s prev_oldest_id last_running r :
  oldest_scan_visit s prev_oldest_id last_running = Some r -> r <= last_running.
Proof.
  unfold oldest_scan_visit. intros H.
  destruct (s_is_allocating s); id_cmp; cbn in H; inversion H; lia.
Qed.

Lemma oldest_scan_walk_last_running states : forall i prev_oldest_id acc acc',
  oldest_scan_walk i states prev_oldest_id acc = Some acc' ->
  sc_last_running acc' <= sc_last_running acc.
Proof.
  induction states as [|s rest IH]; intros i prev acc acc' H; cbn in H.
  - inversion H. lia.
  - destruct (oldest_scan_visit s prev (sc_last_running acc)) as [lr|] eqn:Hv;
      [|discriminate].
    cbn in H. apply oldest_scan_visit_le in Hv.
    destruct (negb (s_pinned_id s =? WT_TXN_NONE) &&
              WT_TXNID_LT (s_pinned_id s) (sc_oldest_id acc));
      apply IH in H; cbn in H; lia.
Qed.

(** The values [__txn_oldest_scan] hands back are ordered, whatever the
    slots hold. *)
Lemma __txn_oldest_scan_ordered g sc :
  __txn_oldest_scan g = Some sc ->
  sc_metadata_pinned sc <= sc_oldest_id sc /\
  sc_oldest_id sc <= sc_last_running sc /\
  sc_last_running sc <= g_current g.
Proof.
  unfold __txn_oldest_scan. intros H.
  destruct (oldest_scan_walk 0 (g_states g) (g_oldest_id g) _) as [acc|] eqn:Hw;
    [|discriminate].
  apply oldest_scan_walk_last_running in Hw. cbn in Hw.
  cbn in H. inversion H; subst sc; clear H. cbn.
  destruct (g_nsnap_oldest_id g =? WT_TXN_NONE); cbn; id_cmp; lia.
Qed.

(** ** [__wt_txn_update_oldest] *)

Lemma upd_global_same_ids st :
  upd_global (set_g_ids (g_metadata_pinned (st_global st))
                (g_oldest_id (st_global st)) (g_last_running (st_global st))) st
  = st.
Proof. destruct st as [[[] ? ? ? ? ?] ?]. reflexivity. Qed.

Lemma same_but_ids_refl st : same_but_ids st st.
Proof.
  split; [reflexivity|].
  exists (g_metadata_pinned (st_global st)), (g_oldest_id (st_global st)),
    (g_last_running (st_global st)).
  rewrite upd_global_same_ids. unfold ids_ordered.
  repeat split; try reflexivity; intros; lia.
Qed.

(** Each published id is replaced by the larger of itself and the scanned
    value. *)
Lemma advance_ids_ordered (md o lr cur smd so slr : Z) :
  smd <= so -> so <= slr -> slr <= cur ->
  let nmd := if WT_TXNID_LT md smd then smd else md in
  let no := if WT_TXNID_LT o so then so else o in
  let nlr := if WT_TXNID_LT lr slr then slr else lr in
  md <= nmd /\ o <= no /\ lr <= nlr /\
  (md <= o /\ o <= lr /\ lr <= cur -> nmd <= no <= nlr /\ nlr <= cur).
Proof.
  intros H1 H2 H3. cbn. unfold WT_TXNID_LT.
  destruct (Z.ltb_spec md smd), (Z.ltb_spec o so), (Z.ltb_spec lr slr); lia.
Qed.

(** [__wt_txn_update_oldest] writes nothing but the three published ids, and
    moves none of them backwards. *)
Lemma __wt_txn_update_oldest_effect E strict wait st r st' :
  __wt_txn_update_oldest E strict wait st = Some (r, st') ->
  same_but_ids st st'.
Proof.
  unfold __wt_txn_update_oldest.
  destruct (strict && negb (x_update_pinned_timestamp E =? 0)).
  { intros H; inversion H; apply same_but_ids_refl. }
  match goal with |- (if ?c then _ else _) = _ -> _ => destruct c end.
  { intros H; inversion H; apply same_but_ids_refl. }
  destruct (negb wait && negb (x_try_readlock E =? 0)).
  { intros H; inversion H; apply same_but_ids_refl. }
  destruct (__txn_oldest_scan (st_global st)) as [sc|] eqn:Hsc;
    [|discriminate].
  cbn [mbind option_bind].
  match goal with |- (if ?c then _ else _) = _ -> _ => destruct c end.
  { intros H; inversion H; apply same_but_ids_refl. }
  destruct (negb wait && negb (x_try_writelock E =? 0)).
  { intros H; inversion H; apply same_but_ids_refl. }
  match goal with |- (if ?c then _ else _) = _ -> _ => destruct c end.
  { intros H; inversion H; apply same_but_ids_refl. }
  intros H; inversion H; subst; clear H.
  pose proof (__txn_oldest_scan_ordered _ _ Hsc) as (Ho1 & Ho2 & Ho3).
  split; [reflexivity|].
  eexists _, _, _. split; [reflexivity|].
  pose proof (advance_ids_ordered
                (g_metadata_pinned (st_global st)) (g_oldest_id (st_global st))
                (g_last_running (st_global st)) (g_current (st_global st))
                _ _ _ Ho1 Ho2 Ho3) as Hadv.
  cbn in Hadv. destruct Hadv as (A1 & A2 & A3 & A4).
  repeat split; try assumption; unfold ids_ordered in *; intros; apply A4; lia.
Qed.




(** ** Snapshot allocation *)

(** *** The sort keeps the collected ids *)

Lemma partition_loop_Permutation fuel : forall (array : list Z) pivot i j array' m,
  partition_loop fuel array pivot i j = Some (array', m) -> array ≡ₚ array'.
Proof.
  induction fuel as [|fuel IH]; intros array pivot i j array' m H; [discriminate|].
  cbn [partition_loop] in H.
  destruct (scan_down _ array pivot j) as [j'|]; [|discriminate].
  destruct (scan_up _ array pivot i) as [i'|]; [|discriminate].
  cbn [mbind option_bind] in H.
  destruct (i' <? j').
  - destruct (aget array i') as [tmp|] eqn:Hi; [|discriminate].
    destruct (aget array j') as [vj|] eqn:Hj; [|discriminate].
    cbn [mbind option_bind] in H. apply IH in H.
    rewrite <- H. symmetry. apply swap_Permutation; assumption.
  - inversion H. reflexivity.
Qed.

Lemma __snapsort_impl_Permutation fuel : forall (array : list Z) f l array',
  __snapsort_impl fuel array f l = Some array' -> array ≡ₚ array'.
Proof.
  induction fuel as [|fuel IH]; intros array f l array' H; [discriminate|].
  cbn [__snapsort_impl] in H.
  destruct (wrap32 (f + 16) <? l); [|inversion H; reflexivity].
  destruct (aget array f) as [v1|]; [|discriminate].
  destruct (aget array l) as [v2|]; [|discriminate].
  destruct (aget array (wrap32 (f + l) / 2)) as [v3|]; [|discriminate].
  cbn [mbind option_bind] in H.
  destruct (__snapsort_partition array f l _) as [[array1 m]|] eqn:Hp;
    [|discriminate].
  cbn [mbind option_bind] in H.
  destruct (__snapsort_impl fuel array1 f m) as [array2|] eqn:H1; [|discriminate].
  cbn [mbind option_bind] in H.
  apply partition_loop_Permutation in Hp. apply IH in H1. apply IH in H.
  rewrite Hp, H1. exact H.
Qed.

Lemma __snapsort_Permutation (array : list Z) size out :
  __snapsort array size = Some out -> array ≡ₚ out.
Proof.
  unfold __snapsort. intros H.
  destruct (__snapsort_impl _ array 0 _) as [array1|] eqn:H1; [|discriminate].
  cbn in H. inversion H; subst out.
  apply __snapsort_impl_Permutation in H1. rewrite H1.
  symmetry. apply WT_INSERTION_SORT_ok.
Qed.

Lemma __snapsort_sorted (array : list Z) size out :
  __snapsort array size = Some out -> StronglySorted Z.le out.
Proof.
  unfold __snapsort. intros H.
  destruct (__snapsort_impl _ array 0 _) as [array1|]; [|discriminate].
  cbn in H. inversion H; subst out. apply WT_INSERTION_SORT_ok.
Qed.

(** *** Flags *)

Lemma F_ISSET_F_SET flags f g :
  F_ISSET (F_SET flags f) g = bool_decide (g = f) || F_ISSET flags g.
Proof.
  unfold F_ISSET, F_SET.
  destruct (decide (g = f)) as [->|Hne].
  - rewrite (bool_decide_eq_true_2 (f = f)) by reflexivity. cbn.
    apply bool_decide_eq_true_2. apply elem_of_cons. left. reflexivity.
  - rewrite (bool_decide_eq_false_2 (g = f)) by assumption. cbn.
    apply bool_decide_ext. rewrite elem_of_cons. tauto.
Qed.

Lemma F_ISSET_F_CLR flags f g :
  F_ISSET (F_CLR flags f) g = negb (bool_decide (g = f)) && F_ISSET flags g.
Proof.
  unfold F_ISSET, F_CLR.
  destruct (decide (g = f)) as [->|Hne].
  - rewrite (bool_decide_eq_true_2 (f = f)) by reflexivity. cbn.
    apply bool_decide_eq_false_2. rewrite list_elem_of_filter. tauto.
  - rewrite (bool_decide_eq_false_2 (g = f)) by assumption. cbn.
    apply bool_decide_ext. rewrite list_elem_of_filter. tauto.
Qed.

Lemma F_ISSET_nil g : F_ISSET [] g = false.
Proof. reflexivity. Qed.

(** *** What [__txn_sort_snapshot] writes *)

Lemma __txn_sort_snapshot_spec n snap_max st st' :
  __txn_sort_snapshot n snap_max st = Some st' ->
  exists snapshot snap_min,
    st' = txn_set WT_TXN_HAS_SNAPSHOT
            (upd_txn (set_t_snapshot snapshot n snap_min snap_max) st) /\
    t_snapshot (st_txn st) ≡ₚ snapshot /\
    (1 < n -> StronglySorted Z.le snapshot) /\
    (if 0 <? n
     then exists s0, aget snapshot 0 = Some s0 /\
                     snap_min = if WT_TXNID_LE s0 snap_max then s0 else snap_max
     else snap_min = snap_max).
Proof.
  unfold __txn_sort_snapshot. intros H.
  destruct (if 1 <? n then _ else _) as [snapshot|] eqn:Hs; [|discriminate].
  cbn [mbind option_bind] in H.
  destruct (if 0 <? n then _ else _) as [snap_min|] eqn:Hm; [|discriminate].
  cbn [mbind option_bind] in H. inversion H; subst st'; clear H.
  exists snapshot, snap_min. split; [reflexivity|].
  split; [|split].
  - destruct (1 <? n).
    + apply __snapsort_Permutation in Hs. exact Hs.
    + inversion Hs. reflexivity.
  - intros H1. destruct (Z.ltb_spec 1 n); [|lia].
    apply __snapsort_sorted in Hs. exact Hs.
  - destruct (0 <? n).
    + destruct (aget snapshot 0) as [s0|]; [|discriminate].
      cbn in Hm. inversion Hm. exists s0. split; reflexivity.
    + inversion Hm. reflexivity.
Qed.

(** *** The walk over the slots *)

Lemma snapshot_visit_Some own s prev_oldest_id current_id x :
  snapshot_visit own s prev_oldest_id current_id = Some (Some x) ->
  own = false /\ s_id s = x /\ x <> WT_TXN_NONE /\
  prev_oldest_id <= x < current_id /\ s_is_allocating s = false.
Proof.
  unfold snapshot_visit. intros H.
  destruct own; cbn in H; [discriminate|].
  destruct (s_is_allocating s); id_cmp; cbn in H; try discriminate;
    inversion H; subst; repeat split; auto; lia.
Qed.

Lemma snapshot_visit_None own s prev_oldest_id current_id :
  snapshot_visit own s prev_oldest_id current_id = Some None ->
  own = true \/ s_id s = WT_TXN_NONE \/ ~ (prev_oldest_id <= s_id s < current_id).
Proof.
  unfold snapshot_visit. intros H.
  destruct own; [left; reflexivity|right].
  destruct (s_is_allocating s); id_cmp; cbn in H; try discriminate;
    try (left; assumption); right; lia.
Qed.

Lemma snapshot_walk_spec states : forall i own prev cur snapshot n pinned_id
    snapshot' n' pinned_id',
  snapshot_walk i own states prev cur snapshot n pinned_id
  = Some (snapshot', n', pinned_id') ->
  exists added,
    snapshot' = snapshot ++ added /\
    (forall x, x ∈ added ->
       exists j s, states !! j = Some s /\ (i + j)%nat <> own /\ s_id s = x /\
                   x <> WT_TXN_NONE /\ prev <= x < cur) /\
    pinned_id' <= pinned_id /\
    (n = Z.of_nat (length snapshot) ->
     Z.of_nat (length snapshot + length states) < 2 ^ 32 ->
     n' = Z.of_nat (length snapshot')).
Proof.
  induction states as [|s rest IH];
    intros i own prev cur snapshot n pinned_id snapshot' n' pinned_id' H.
  - cbn in H. inversion H; subst. exists []. rewrite app_nil_r.
    split; [reflexivity|]. split; [intros x Hx; inversion Hx|].
    split; [lia|]. auto.
  - cbn [snapshot_walk] in H.
    destruct (snapshot_visit (bool_decide (i = own)) s prev cur) as [r|] eqn:Hv;
      [|discriminate].
    cbn [mbind option_bind] in H.
    destruct r as [x|].
    + apply snapshot_visit_Some in Hv as (Hown & Hid & Hne & Hrange & _).
      apply bool_decide_eq_false in Hown.
      apply IH in H as (added & Heq & Hadded & Hpin & Hn).
      exists (x :: added). split; [rewrite Heq, <- app_assoc; reflexivity|].
      split; [|split].
      * intros y Hy. apply elem_of_cons in Hy as [->|Hy].
        -- exists 0%nat, s. rewrite Nat.add_0_r.
           split; [reflexivity|]. split; [exact Hown|].
           split; [exact Hid|]. split; [exact Hne|exact Hrange].
        -- destruct (Hadded y Hy) as (j & sj & Hj & Hjo & Hrest).
           exists (S j), sj. split; [exact Hj|]. split; [lia|exact Hrest].
      * unfold WT_TXNID_LT in Hpin. destruct (Z.ltb_spec x pinned_id); lia.
      * intros Hlen Hbound. apply Hn.
        -- rewrite length_app. cbn. rewrite Hlen.
           rewrite wrap32_small; [lia|]. cbn in Hbound. lia.
        -- rewrite length_app. cbn in *. lia.
    + apply IH in H as (added & Heq & Hadded & Hpin & Hn).
      exists added. split; [exact Heq|]. split; [|split].
      * intros y Hy. destruct (Hadded y Hy) as (j & sj & Hj & Hjo & Hrest).
        exists (S j), sj. split; [exact Hj|]. split; [lia|exact Hrest].
      * exact Hpin.
      * intros Hlen Hbound. apply Hn; [exact Hlen|]. cbn in Hbound. lia.
Qed.

(** The walk returns when no slot it has to read is still allocating. *)
Lemma snapshot_walk_returns states : forall i own prev cur snapshot n pinned_id,
  (forall s, s ∈ states -> s_is_allocating s = false) ->
  exists r, snapshot_walk i own states prev cur snapshot n pinned_id = Some r.
Proof.
  induction states as [|s rest IH]; intros i own prev cur snapshot n pinned_id Hall.
  - eexists. reflexivity.
  - cbn [snapshot_walk].
    assert (Hs : s_is_allocating s = false)
      by (apply Hall, elem_of_cons; left; reflexivity).
    assert (Hrest : forall s', s' ∈ rest -> s_is_allocating s' = false)
      by (intros s' Hs'; apply Hall, elem_of_cons; right; exact Hs').
    unfold snapshot_visit. rewrite Hs, Z.eqb_refl. cbn [negb].
    destruct (_ && _ && _ && _); cbn [mbind option_bind]; apply IH; exact Hrest.
Qed.

(** *** Frames of the state updates *)

Lemma slots_frame_refl own states : slots_frame own states states.
Proof. split; [reflexivity|]. intros j s' H. exists s'. auto. Qed.

Lemma slots_frame_trans own s1 s2 s3 :
  slots_frame own s1 s2 -> slots_frame own s2 s3 -> slots_frame own s1 s3.
Proof.
  intros [L1 H1] [L2 H2]. split; [congruence|].
  intros j s' Hs'. destruct (H2 j s' Hs') as (s2' & Hs2 & Hid2).
  destruct (H1 j s2' Hs2) as (s1' & Hs1 & Hid1).
  exists s1'. split; [exact Hs1|].
  destruct Hid2 as [Hid2|[-> Hid2]]; [|right; auto].
  destruct Hid1 as [Hid1|[-> Hid1]]; [left; congruence|right; split; congruence].
Qed.

Lemma slots_frame_alter own (f : WT_TXN_STATE -> WT_TXN_STATE) states :
  (forall s, s_id (f s) = s_id s \/ s_id (f s) = WT_TXN_NONE) ->
  slots_frame own states (alter f own states).
Proof.
  intros Hf. split; [apply length_alter|].
  intros j s' Hs'. destruct (decide (j = own)) as [->|Hne].
  - rewrite list_lookup_alter_eq in Hs'.
    destruct (states !! own) as [s|] eqn:Hs; [|discriminate].
    cbn in Hs'. inversion Hs'; subst s'. exists s. split; [reflexivity|].
    destruct (Hf s); auto.
  - rewrite list_lookup_alter_ne in Hs' by auto. exists s'. auto.
Qed.

Lemma table_frame_refl st : table_frame st st.
Proof.
  unfold table_frame. repeat split; auto using slots_frame_refl.
  apply slots_frame_refl.
Qed.

Lemma table_frame_trans st1 st2 st3 :
  table_frame st1 st2 -> table_frame st2 st3 -> table_frame st1 st3.
Proof.
  unfold table_frame.
  intros (A1 & A2 & A3 & A4 & A5 & A6 & A7 & A8 & A9)
         (B1 & B2 & B3 & B4 & B5 & B6 & B7 & B8 & B9).
  replace (ss_id (snd st2)) with (ss_id (snd st1)) in B8.
  pose proof (slots_frame_trans _ _ _ _ A8 B8) as [C1 C2].
  repeat split; try congruence.
  - exact C2.
  - destruct B9 as [B9|B9]; [|right; exact B9].
    destruct A9 as [A9|A9]; [left|right]; congruence.
Qed.

Lemma snapshot_kept_refl st : snapshot_kept st st.
Proof. intros H. auto. Qed.

Lemma snapshot_kept_trans st1 st2 st3 :
  snapshot_kept st1 st2 -> snapshot_kept st2 st3 -> snapshot_kept st1 st3.
Proof.
  intros H1 H2 H3. destruct (H2 H3) as (B1 & B2 & B3 & B4).
  destruct (H1 B1) as (A1 & A2 & A3 & A4). repeat split; congruence.
Qed.

Lemma frame_refl st : frame st st.
Proof. split; [apply table_frame_refl|apply snapshot_kept_refl]. Qed.

Lemma frame_trans st1 st2 st3 : frame st1 st2 -> frame st2 st3 -> frame st1 st3.
Proof.
  intros [A1 A2] [B1 B2].
  split; [eapply table_frame_trans|eapply snapshot_kept_trans]; eassumption.
Qed.

Lemma table_frame_of_view st st' :
  frame_view st' = frame_view st -> table_frame st st'.
Proof.
  unfold frame_view, table_frame. intros H.
  assert (Hs : g_states (st_global st') = g_states (st_global st))
    by (inversion H; auto).
  inversion H.
  repeat split; auto.
  intros j s' Hs'. exists s'. auto.
Qed.

Lemma snapshot_kept_of_view st st' :
  snapshot_view st' = snapshot_view st -> snapshot_kept st st'.
Proof.
  unfold snapshot_view, snapshot_kept. intros H Hs. inversion H.
  repeat split; congruence.
Qed.

Lemma frame_of_view st st' :
  frame_view st' = frame_view st -> snapshot_view st' = snapshot_view st ->
  frame st st'.
Proof.
  intros H1 H2.
  split; [apply table_frame_of_view|apply snapshot_kept_of_view]; assumption.
Qed.

Ltac destruct_state st :=
  let c := fresh "c" in
  let se := fresh "se" in
  let g := fresh "g" in
  let t := fresh "t" in
  destruct st as [c se];
  destruct c as [g ? ? ? ? ?]; destruct se as [? t ? ? ? ? ?];
  destruct g; destruct t.

(** A rewrite of the caller's slot that keeps or clears its id. *)
Lemma upd_txn_state_frame (f : WT_TXN_STATE -> WT_TXN_STATE) st :
  (forall s, s_id (f s) = s_id s \/ s_id (f s) = WT_TXN_NONE) ->
  frame st (upd_txn_state f st).
Proof.
  intros Hf. split.
  - unfold table_frame. destruct_state st. cbn.
    repeat split; auto. apply slots_frame_alter. exact Hf.
    apply (slots_frame_alter _ f _ Hf).
  - apply snapshot_kept_of_view. destruct_state st. reflexivity.
Qed.

(** *** [__wt_txn_get_snapshot] *)

(** The part of [__wt_txn_get_snapshot] after the fast path, as one
    equation: the ids collected, their number, the pinned id published. *)
Lemma __wt_txn_get_snapshot_slow st st' :
  has_current_snapshot st = false ->
  __wt_txn_get_snapshot st = Some st' ->
  let g := st_global st in
  let ckpt := s_id (g_checkpoint_state g) in
  exists added n pinned_id,
    let collected := (if ckpt =? WT_TXN_NONE then [] else [ckpt]) ++ added in
    (forall x, x ∈ added ->
       published_elsewhere (g_states g) (ss_id (snd st)) (g_oldest_id g)
         (g_current g) x) /\
    (g_oldest_id g = g_current g -> added = []) /\
    (Z.of_nat (S (length (g_states g))) < 2 ^ 32 ->
     n = Z.of_nat (length collected)) /\
    __txn_sort_snapshot n (g_current g)
      (upd_txn (fun t => set_t_snapshot collected (t_snapshot_count t)
                           (t_snap_min t) (t_snap_max t) t)
         (upd_txn_state (set_s_pinned_id pinned_id)
            (if ckpt =? WT_TXN_NONE then entered st
             else upd_txn_state (set_s_metadata_pinned ckpt) (entered st))))
    = Some st'.
Proof.
  intros Hfast H. cbn zeta.
  unfold __wt_txn_get_snapshot in H.
  unfold has_current_snapshot in Hfast. rewrite Hfast in H.
  fold (entered st) in H.
  assert (Hg : st_global (entered st) = st_global st).
  { unfold entered. destruct (negb _); reflexivity. }
  assert (Hid : ss_id (snd (entered st)) = ss_id (snd st)).
  { unfold entered. destruct (negb _); reflexivity. }
  rewrite Hg in H.
  destruct (s_id (g_checkpoint_state (st_global st)) =? WT_TXN_NONE) eqn:Hck;
    cbn [negb] in H.
  - destruct (Z.eqb_spec (g_oldest_id (st_global st)) (g_current (st_global st)))
      as [Heq|Hne].
    + exists [], 0, (g_current (st_global st)).
      split; [intros x Hx; inversion Hx|]. split; [reflexivity|].
      split; [reflexivity|]. exact H.
    + rewrite Hid in H.
      destruct (snapshot_walk _ _ _ _ _ _ _ _) as [[[snapshot n] pinned_id]|]
        eqn:Hw; [|discriminate].
      cbn [mbind option_bind] in H.
      apply snapshot_walk_spec in Hw as (added & -> & Hadded & _ & Hn).
      exists added, n, pinned_id.
      split; [|split; [intros; contradiction|split; [|exact H]]].
      * intros x Hx. destruct (Hadded x Hx) as (j & s & Hj & Hjo & Hrest).
        exists j, s. split; [exact Hj|]. split; [exact Hjo|exact Hrest].
      * intros Hb. apply Hn; [reflexivity|]. cbn [length] in *. lia.
  - destruct (Z.eqb_spec (g_oldest_id (st_global st)) (g_current (st_global st)))
      as [Heq|Hne].
    + exists [], 1, (g_current (st_global st)).
      split; [intros x Hx; inversion Hx|]. split; [reflexivity|].
      split; [reflexivity|]. exact H.
    + replace (ss_id (snd (upd_txn_state _ (entered st)))) with (ss_id (snd st))
        in H by (symmetry; exact Hid).
      destruct (snapshot_walk _ _ _ _ _ _ _ _) as [[[snapshot n] pinned_id]|]
        eqn:Hw; [|discriminate].
      cbn [mbind option_bind] in H.
      apply snapshot_walk_spec in Hw as (added & -> & Hadded & _ & Hn).
      exists added, n, pinned_id.
      split; [|split; [intros; contradiction|split; [|exact H]]].
      * intros x Hx. destruct (Hadded x Hx) as (j & s & Hj & Hjo & Hrest).
        exists j, s. split; [exact Hj|]. split; [exact Hjo|exact Hrest].
      * intros Hb. apply Hn; [reflexivity|]. cbn [length] in *. lia.
Qed.

Lemma entered_view st :
  frame_view (entered st) = frame_view st /\
  snapshot_view (entered st) = snapshot_view st.
Proof.
  unfold entered. destruct (negb _); destruct_state st; split; reflexivity.
Qed.

(** What the slow path leaves: the frame of the table, and the fields of the
    snapshot. *)
Lemma __wt_txn_get_snapshot_fields st st' :
  has_current_snapshot st = false ->
  __wt_txn_get_snapshot st = Some st' ->
  let g := st_global st in
  let ckpt := s_id (g_checkpoint_state g) in
  table_frame st st' /\
  t_id (st_txn st') = t_id (st_txn st) /\
  txn_isset st' WT_TXN_HAS_SNAPSHOT = true /\
  t_snap_max (st_txn st') = g_current g /\
  exists added,
    let collected := (if ckpt =? WT_TXN_NONE then [] else [ckpt]) ++ added in
    (forall x, x ∈ added ->
       published_elsewhere (g_states g) (ss_id (snd st)) (g_oldest_id g)
         (g_current g) x) /\
    (g_oldest_id g = g_current g -> added = []) /\
    collected ≡ₚ t_snapshot (st_txn st') /\
    (1 < t_snapshot_count (st_txn st') ->
     StronglySorted Z.le (t_snapshot (st_txn st'))) /\
    (Z.of_nat (S (length (g_states g))) < 2 ^ 32 ->
     t_snapshot_count (st_txn st') = Z.of_nat (length collected)) /\
    (if 0 <? t_snapshot_count (st_txn st')
     then exists s0, aget (t_snapshot (st_txn st')) 0 = Some s0 /\
                     t_snap_min (st_txn st') =
                     if WT_TXNID_LE s0 (g_current g) then s0 else g_current g
     else t_snap_min (st_txn st') = g_current g).
Proof.
  intros Hfast H. cbn zeta.
  destruct (__wt_txn_get_snapshot_slow st st' Hfast H)
    as (added & n & pinned_id & Hadded & Hempty & Hn & Hsort).
  cbn zeta in Hsort.
  apply __txn_sort_snapshot_spec in Hsort
    as (snapshot & snap_min & -> & Hperm & Hsorted & Hmin).
  set (ckpt := s_id (g_checkpoint_state (st_global st))) in *.
  set (mid := if ckpt =? WT_TXN_NONE then entered st
              else upd_txn_state (set_s_metadata_pinned ckpt) (entered st)) in *.
  destruct (entered_view st) as [Hv1 Hv2].
  assert (Hmid : table_frame st mid /\ t_id (st_txn mid) = t_id (st_txn st)).
  { unfold mid. destruct (ckpt =? WT_TXN_NONE).
    - split; [apply table_frame_of_view; exact Hv1|].
      inversion Hv1; auto.
    - split.
      + eapply table_frame_trans; [apply table_frame_of_view; exact Hv1|].
        apply upd_txn_state_frame. intros s. left. reflexivity.
      + inversion Hv1.
        destruct (entered st) as [c se]; destruct se; cbn in *; auto. }
  destruct Hmid as [Hmid Hmid_id].
  assert (Hpin : table_frame mid (upd_txn_state (set_s_pinned_id pinned_id) mid)).
  { apply upd_txn_state_frame. intros s. left. reflexivity. }
  split; [|split; [|split; [|split]]].
  - eapply table_frame_trans; [exact Hmid|].
    eapply table_frame_trans; [exact Hpin|].
    apply table_frame_of_view.
    destruct mid as [c se]; destruct c as [g ? ? ? ? ?];
      destruct se as [? t ? ? ? ? ?]; destruct g; destruct t; reflexivity.
  - rewrite <- Hmid_id.
    destruct mid as [c se]; destruct c as [g ? ? ? ? ?];
      destruct se as [? t ? ? ? ? ?]; destruct g; destruct t; reflexivity.
  - destruct mid as [c se]; destruct c as [g ? ? ? ? ?];
      destruct se as [? t ? ? ? ? ?]; destruct g; destruct t.
    unfold txn_isset. cbn. rewrite F_ISSET_F_SET. reflexivity.
  - destruct mid as [c se]; destruct c as [g ? ? ? ? ?];
      destruct se as [? t ? ? ? ? ?]; destruct g; destruct t; reflexivity.
  - exists added.
    assert (Hsnap : forall a b c d (m : state),
      t_snapshot (st_txn (txn_set WT_TXN_HAS_SNAPSHOT
                   (upd_txn (set_t_snapshot a b c d) m))) = a /\
      t_snapshot_count (st_txn (txn_set WT_TXN_HAS_SNAPSHOT
                   (upd_txn (set_t_snapshot a b c d) m))) = b /\
      t_snap_min (st_txn (txn_set WT_TXN_HAS_SNAPSHOT
                   (upd_txn (set_t_snapshot a b c d) m))) = c).
    { intros a b c d m. destruct_state m. repeat split; reflexivity. }
    destruct (Hsnap snapshot n snap_min (g_current (st_global st))
                (upd_txn (fun t => set_t_snapshot
                   ((if ckpt =? WT_TXN_NONE then [] else [ckpt]) ++ added)
                   (t_snapshot_count t) (t_snap_min t) (t_snap_max t) t)
                   (upd_txn_state (set_s_pinned_id pinned_id) mid)))
      as (-> & -> & ->).
    assert (Hin : t_snapshot (st_txn (upd_txn (fun t => set_t_snapshot
                   ((if ckpt =? WT_TXN_NONE then [] else [ckpt]) ++ added)
                   (t_snapshot_count t) (t_snap_min t) (t_snap_max t) t)
                   (upd_txn_state (set_s_pinned_id pinned_id) mid)))
                  = (if ckpt =? WT_TXN_NONE then [] else [ckpt]) ++ added).
    { destruct mid as [c se]; destruct c as [g ? ? ? ? ?];
        destruct se as [? t ? ? ? ? ?]; destruct g; destruct t; reflexivity. }
    rewrite Hin in Hperm.
    repeat split; assumption.
Qed.

Lemma snapshot_walk_nothing states : forall i own prev cur snapshot n pinned_id,
  (forall j s, states !! j = Some s -> (i + j)%nat <> own ->
               s_id s = WT_TXN_NONE) ->
  snapshot_walk i own states prev cur snapshot n pinned_id
  = Some (snapshot, n, pinned_id).
Proof.
  induction states as [|s rest IH]; intros i own prev cur snapshot n pinned_id Hall.
  - reflexivity.
  - cbn [snapshot_walk].
    assert (Hv : snapshot_visit (bool_decide (i = own)) s prev cur = Some None).
    { unfold snapshot_visit. destruct (decide (i = own)) as [->|Hne].
      - rewrite bool_decide_eq_true_2 by reflexivity. reflexivity.
      - rewrite bool_decide_eq_false_2 by assumption.
        rewrite (Hall 0%nat s) by (cbn; auto; lia). reflexivity. }
    rewrite Hv. cbn [mbind option_bind]. apply IH.
    intros j s' Hj Hne. apply (Hall (S j) s'); [exact Hj|lia].
Qed.

Lemma snapshot_walk_length states : forall i own prev cur snapshot n pinned_id
    snapshot' n' pinned_id',
  snapshot_walk i own states prev cur snapshot n pinned_id
  = Some (snapshot', n', pinned_id') ->
  (length snapshot' <= length snapshot + length states)%nat.
Proof.
  induction states as [|s rest IH];
    intros i own prev cur snapshot n pinned_id snapshot' n' pinned_id' H.
  - cbn in H. inversion H; subst. lia.
  - cbn [snapshot_walk] in H.
    destruct (snapshot_visit _ s prev cur) as [[x|]|]; [| |discriminate];
      cbn [mbind option_bind] in H; apply IH in H;
      rewrite ?length_app in H; cbn [length] in *; lia.
Qed.

(** [__wt_txn_get_snapshot] returns as soon as no slot is in the middle of
    allocating an id and the slots are fewer than 2^31. *)
Lemma __wt_txn_get_snapshot_returns st :
  (forall s, s ∈ g_states (st_global st) -> s_is_allocating s = false) ->
  Z.of_nat (S (length (g_states (st_global st)))) < 2 ^ 31 ->
  exists st', __wt_txn_get_snapshot st = Some st'.
Proof.
  intros Hall Hlen. unfold __wt_txn_get_snapshot.
  match goal with |- context [if ?c then Some st else _] => destruct c end;
    [eexists; reflexivity|].
  fold (entered st).
  assert (Hg : st_global (entered st) = st_global st).
  { unfold entered. destruct (negb _); reflexivity. }
  rewrite Hg.
  set (ckpt := s_id (g_checkpoint_state (st_global st))).
  assert (Hsort : forall collected n pinned_id (m : state),
    n = Z.of_nat (length collected) -> n < 2 ^ 31 ->
    exists st', __txn_sort_snapshot n (g_current (st_global st))
      (upd_txn (fun t => set_t_snapshot collected (t_snapshot_count t)
                           (t_snap_min t) (t_snap_max t) t)
         (upd_txn_state (set_s_pinned_id pinned_id) m)) = Some st').
  { intros collected n pinned_id m Hn Hb.
    apply __txn_sort_snapshot_returns; [|exact Hb].
    rewrite Hn. destruct_state m. reflexivity. }
  assert (Hwalk : forall own snapshot0 n0 (m : state),
    n0 = Z.of_nat (length snapshot0) -> (length snapshot0 <= 1)%nat ->
    exists st',
      snapshot_walk 0 own (g_states (st_global st))
        (g_oldest_id (st_global st)) (g_current (st_global st)) snapshot0 n0
        (g_current (st_global st))
      ≫= (fun '(snapshot, n, pinned_id) =>
            __txn_sort_snapshot n (g_current (st_global st))
              (upd_txn (fun t => set_t_snapshot snapshot (t_snapshot_count t)
                                   (t_snap_min t) (t_snap_max t) t)
                 (upd_txn_state (set_s_pinned_id pinned_id) m))) = Some st').
  { intros own snapshot0 n0 m Hn0 Hl0.
    destruct (snapshot_walk_returns (g_states (st_global st)) 0 own
                (g_oldest_id (st_global st)) (g_current (st_global st))
                snapshot0 n0 (g_current (st_global st)) Hall)
      as [[[snapshot n] pinned_id] Hw].
    rewrite Hw. cbn [mbind option_bind].
    pose proof (snapshot_walk_length _ _ _ _ _ _ _ _ _ _ _ Hw) as Hlen'.
    apply snapshot_walk_spec in Hw as (added & Heq & _ & _ & Hn).
    apply Hsort; [apply Hn; [exact Hn0|lia]|].
    rewrite Hn by (try exact Hn0; lia). lia. }
  destruct (negb (ckpt =? WT_TXN_NONE)).
  - destruct (g_oldest_id (st_global st) =? g_current (st_global st)).
    + apply Hsort; [reflexivity|lia].
    + apply Hwalk; [reflexivity|cbn; lia].
  - destruct (g_oldest_id (st_global st) =? g_current (st_global st)).
    + apply Hsort; [reflexivity|lia].
    + apply Hwalk; [reflexivity|cbn; lia].
Qed.

(** C4 -- Snapshot bounds.  When [__wt_txn_get_snapshot] allocates a
    snapshot (the cached one is not current), [snap_max] is the table's
    [current] id as read at the call; the array is left in ascending order,
    and [snap_min] is the smaller of its first entry and [snap_max], hence
    at or below every entry, when the array is not empty, and [snap_max]
    when it is.  The call returns as soon as no slot is in the middle of an
    id allocation; and with no other transaction active it returns with an
    empty array and [snap_min = snap_max]. *)
Theorem snapshot_bounds (st : state) :
  has_current_snapshot st = false ->
  Z.of_nat (S (length (g_states (st_global st)))) < 2 ^ 31 ->
  (forall st', __wt_txn_get_snapshot st = Some st' ->
     let snapshot := t_snapshot (st_txn st') in
     let snap_min := t_snap_min (st_txn st') in
     let snap_max := t_snap_max (st_txn st') in
     snap_max = g_current (st_global st) /\
     t_snapshot_count (st_txn st') = Z.of_nat (length snapshot) /\
     StronglySorted Z.le snapshot /\
     snap_min = match snapshot with
                | [] => snap_max
                | s0 :: _ => Z.min s0 snap_max
                end /\
     snap_min <= snap_max /\
     (forall x, x ∈ snapshot -> snap_min <= x) /\
     (snap_min = snap_max \/ snap_min ∈ snapshot)) /\
  ((forall s, s ∈ g_states (st_global st) -> s_is_allocating s = false) ->
   exists st', __wt_txn_get_snapshot st = Some st') /\
  (no_other_active st ->
   exists st', __wt_txn_get_snapshot st = Some st' /\
               t_snapshot (st_txn st') = [] /\
               t_snap_min (st_txn st') = t_snap_max (st_txn st') /\
               t_snap_max (st_txn st') = g_current (st_global st)).
Proof.
  intros Hfast Hlen.
  assert (Hlen32 : Z.of_nat (S (length (g_states (st_global st)))) < 2 ^ 32)
    by lia.
  assert (Hmain : forall st', __wt_txn_get_snapshot st = Some st' ->
     t_snap_max (st_txn st') = g_current (st_global st) /\
     t_snapshot_count (st_txn st') = Z.of_nat (length (t_snapshot (st_txn st'))) /\
     StronglySorted Z.le (t_snapshot (st_txn st')) /\
     t_snap_min (st_txn st') =
       match t_snapshot (st_txn st') with
       | [] => t_snap_max (st_txn st')
       | s0 :: _ => Z.min s0 (t_snap_max (st_txn st'))
       end).
  { intros st' H.
    destruct (__wt_txn_get_snapshot_fields st st' Hfast H)
      as (_ & _ & _ & Hmax & added & _ & _ & Hperm & Hsorted & Hn & Hmin).
    specialize (Hn Hlen32). rewrite (Permutation_length Hperm) in Hn.
    split; [exact Hmax|]. split; [exact Hn|]. split.
    - destruct (t_snapshot (st_txn st')) as [|s0 [|s1 rest]] eqn:Hs.
      + constructor.
      + repeat constructor.
      + apply Hsorted. rewrite Hn. cbn [length]. lia.
    - rewrite Hmax. rewrite Hn in Hmin.
      destruct (t_snapshot (st_txn st')) as [|s0 rest]; cbn [length] in Hmin.
      + exact Hmin.
      + destruct (Z.ltb_spec 0 (Z.of_nat (S (length rest)))); [|lia].
        destruct Hmin as (s0' & Hs0 & ->). cbn in Hs0. inversion Hs0; subst s0'.
        unfold WT_TXNID_LE.
        destruct (Z.leb_spec s0 (g_current (st_global st))); lia. }
  split; [|split].
  - intros st' H. cbv zeta.
    destruct (Hmain st' H) as (Hmax & Hn & Hsorted & Hmin).
    split; [exact Hmax|]. split; [exact Hn|]. split; [exact Hsorted|].
    split; [exact Hmin|].
    destruct (t_snapshot (st_txn st')) as [|s0 rest].
    + rewrite Hmin. split; [lia|]. split; [|left; reflexivity].
      intros x Hx. inversion Hx.
    + split; [lia|]. split.
      * intros x Hx. apply StronglySorted_inv in Hsorted as [_ Hall].
        rewrite Forall_forall in Hall.
        apply elem_of_cons in Hx as [->|Hx]; [lia|].
        specialize (Hall x Hx). lia.
      * destruct (Z.le_gt_cases s0 (t_snap_max (st_txn st'))).
        -- right. rewrite Hmin, Z.min_l by lia. apply elem_of_cons. left.
           reflexivity.
        -- left. rewrite Hmin. lia.
  - intros Hall. apply (__wt_txn_get_snapshot_returns st Hall Hlen).
  - intros [Hck Hnone].
    assert (Hret : exists st', __wt_txn_get_snapshot st = Some st').
    { unfold __wt_txn_get_snapshot.
      unfold has_current_snapshot in Hfast. rewrite Hfast.
      fold (entered st).
      assert (Hg : st_global (entered st) = st_global st).
      { unfold entered. destruct (negb _); reflexivity. }
      rewrite Hg, Hck. cbn [negb Z.eqb WT_TXN_NONE].
      destruct (g_oldest_id (st_global st) =? g_current (st_global st)).
      - eexists. reflexivity.
      - rewrite snapshot_walk_nothing.
        + cbn [mbind option_bind]. eexists. reflexivity.
        + intros j s Hj Hne. apply (Hnone j s Hj).
          assert (Hid : ss_id (snd (entered st)) = ss_id (snd st)).
          { unfold entered. destruct (negb _); reflexivity. }
          rewrite <- Hid. exact Hne. }
    destruct Hret as [st' Hst']. exists st'. split; [exact Hst'|].
    destruct (__wt_txn_get_snapshot_fields st st' Hfast Hst')
      as (_ & _ & _ & Hmax & added & Hadded & _ & Hperm & _ & _ & _).
    rewrite Hck in Hperm. cbn in Hperm.
    assert (Hnil : added = []).
    { destruct added as [|x rest]; [reflexivity|exfalso].
      destruct (Hadded x) as (j & s & Hj & Hjo & Hid & Hne & _);
        [apply elem_of_cons; left; reflexivity|].
      apply Hne. rewrite <- Hid. apply (Hnone j s Hj Hjo). }
    subst added.
    assert (Hs : t_snapshot (st_txn st') = [])
      by (apply Permutation.Permutation_nil; exact Hperm).
    destruct (Hmain st' Hst') as (_ & _ & _ & Hmin).
    rewrite Hs in Hmin. auto.
Qed.

Lemma snapshot_bounds_witness :
  (exists st',
     __wt_txn_get_snapshot ex_two_running_state = Some st' /\
     t_snapshot (st_txn st') = [5; 7] /\
     StronglySorted Z.le (t_snapshot (st_txn st')) /\
     t_snap_max (st_txn st') = 9 /\
     t_snap_min (st_txn st') = Z.min 5 9 /\
     forall x, x ∈ t_snapshot (st_txn st') -> t_snap_min (st_txn st') <= x) /\
  (no_other_active ex_empty_table_state /\
   exists st',
     __wt_txn_get_snapshot ex_empty_table_state = Some st' /\
     t_snapshot (st_txn st') = [] /\
     t_snap_min (st_txn st') = t_snap_max (st_txn st') /\
     t_snap_max (st_txn st') = 9).
Proof.
  split.
  - destruct (snapshot_bounds ex_two_running_state) as (Hmain & Hret & _);
      [reflexivity|vm_compute; reflexivity|].
    destruct Hret as [st' Hst'].
    { intros s Hs. repeat (apply elem_of_cons in Hs as [->|Hs];
        [reflexivity|]). inversion Hs. }
    exists st'.
    assert (Hsnap : t_snapshot (st_txn st') = [5; 7]).
    { vm_compute in Hst'. inversion Hst'. reflexivity. }
    destruct (Hmain st' Hst') as (Hmax & _ & Hsorted & Hmin & _ & Hall & _).
    split; [exact Hst'|]. split; [exact Hsnap|]. split; [exact Hsorted|].
    split; [exact Hmax|]. split; [|exact Hall].
    rewrite Hmin, Hsnap, Hmax. reflexivity.
  - assert (Hnone : no_other_active ex_empty_table_state).
    { split; [reflexivity|]. intros j s Hj _.
      destruct j as [|[|[|j]]]; cbn in Hj; inversion Hj; reflexivity. }
    split; [exact Hnone|].
    destruct (snapshot_bounds ex_empty_table_state) as (_ & _ & Hempty);
      [reflexivity|vm_compute; reflexivity|].
    apply (Hempty Hnone).
Defined.

(** ** Frames of commit, prepare and rollback *)

Lemma frame_no_checkpoint st st' :
  frame st st' -> no_checkpoint st -> no_checkpoint st'.
Proof.
  intros [(_ & _ & _ & _ & _ & H & _) _] Hc. unfold no_checkpoint in *. congruence.
Qed.

Lemma frames_bind {A B} (m : M A) (k : A -> M B) :
  frames m -> (forall a, frames (k a)) -> frames (m ≫= k).
Proof.
  intros Hm Hk st Hc. specialize (Hm st Hc).
  unfold mbind, M_bind. destruct (m st) as [a st1|r st1|st1|]; auto.
  specialize (Hk a st1 (frame_no_checkpoint _ _ Hm Hc)).
  destruct (k a st1); auto; eapply frame_trans; eassumption.
Qed.

Lemma frames_modify (f : state -> state) :
  (forall st, no_checkpoint st -> frame st (f st)) -> frames (modify f).
Proof. intros Hf st Hc. cbn. auto. Qed.

Lemma frames_WT_RET a : frames (WT_RET a).
Proof. intros st _. unfold WT_RET. destruct (a =? 0); apply frame_refl. Qed.

Lemma frames_WT_RET_MSG v : frames (WT_RET_MSG v).
Proof. intros st _. apply frame_refl. Qed.

Lemma frames_WT_RET_ASSERT e v : frames (WT_RET_ASSERT e v).
Proof. intros st _. unfold WT_RET_ASSERT. destruct e; apply frame_refl. Qed.

Lemma frames_mret {A} (a : A) : frames (mret a).
Proof. intros st _. apply frame_refl. Qed.

(** A change of the transaction that leaves its id, snapshot and
    [WT_TXN_HAS_SNAPSHOT] alone. *)
Lemma upd_txn_frame (f : WT_TXN -> WT_TXN) st :
  (forall t, t_id (f t) = t_id t /\ t_snapshot (f t) = t_snapshot t /\
             t_snap_max (f t) = t_snap_max t /\
             (F_ISSET (t_flags (f t)) WT_TXN_HAS_SNAPSHOT = true ->
              F_ISSET (t_flags t) WT_TXN_HAS_SNAPSHOT = true)) ->
  frame st (upd_txn f st).
Proof.
  intros Hf. destruct st as [c se]. destruct se as [? t ? ? ? ? ?].
  destruct (Hf t) as (H1 & H2 & H3 & H4).
  split.
  - apply table_frame_of_view. unfold frame_view. cbn. rewrite H1. reflexivity.
  - unfold snapshot_kept, txn_isset. cbn. intros H. auto.
Qed.

Lemma t_flags_set v t : t_flags (set_t_flags v t) = v.
Proof. reflexivity. Qed.

Lemma txn_set_frame f st :
  f <> WT_TXN_HAS_SNAPSHOT -> frame st (txn_set f st).
Proof.
  intros Hne. apply upd_txn_frame. intros t.
  repeat split; try reflexivity. rewrite t_flags_set.
  rewrite F_ISSET_F_SET.
  rewrite bool_decide_eq_false_2 by congruence. auto.
Qed.

Lemma txn_clr_frame f st : frame st (txn_clr f st).
Proof.
  apply upd_txn_frame. intros t.
  repeat split; try reflexivity. rewrite t_flags_set.
  rewrite F_ISSET_F_CLR.
  intros H. apply andb_true_iff in H as [_ H]. exact H.
Qed.

Lemma upd_conn_frame (f : WT_CONNECTION_IMPL -> WT_CONNECTION_IMPL) st :
  (forall c, c_txn_global (f c) = c_txn_global c) ->
  frame st (f (fst st), snd st).
Proof.
  intros Hf. destruct st as [c se].
  apply frame_of_view; unfold frame_view, snapshot_view, st_global, st_txn,
    txn_isset, st_txn; cbn; rewrite ?Hf; reflexivity.
Qed.

Lemma store_ops_frame ops updates st : frame st (store_ops ops updates st).
Proof.
  unfold store_ops.
  eapply frame_trans; [apply (upd_conn_frame (set_c_updates updates))|].
  - intros c. destruct c. reflexivity.
  - apply upd_txn_frame. intros t. destruct t. cbn. auto.
Qed.

Lemma __wt_txn_release_snapshot_frame st :
  no_checkpoint st -> frame st (__wt_txn_release_snapshot st).
Proof.
  intros Hc. unfold __wt_txn_release_snapshot.
  set (st1 := upd_txn_state _ st).
  assert (H1 : frame st st1)
    by (apply upd_txn_state_frame; intros s; left; reflexivity).
  assert (H2 : frame st1 (txn_clr WT_TXN_HAS_SNAPSHOT st1))
    by apply txn_clr_frame.
  assert (Hck : WT_SESSION_IS_CHECKPOINT (txn_clr WT_TXN_HAS_SNAPSHOT st1) = false).
  { pose proof (frame_no_checkpoint _ _ (frame_trans _ _ _ H1 H2) Hc) as Hc'.
    unfold WT_SESSION_IS_CHECKPOINT, no_checkpoint in *. rewrite Hc'.
    destruct (Z.of_nat _ =? 0); reflexivity. }
  rewrite Hck. eapply frame_trans; eassumption.
Qed.

(** After [__wt_txn_release] no snapshot is held. *)
Lemma __wt_txn_release_flags st : t_flags (st_txn (__wt_txn_release st)) = [].
Proof. unfold __wt_txn_release. reflexivity. Qed.

Lemma upd_txn_table_frame (f : WT_TXN -> WT_TXN) st :
  (forall t, t_id (f t) = t_id t \/ t_id (f t) = WT_TXN_NONE) ->
  table_frame st (upd_txn f st).
Proof.
  intros Hf. destruct st as [c se]. destruct se as [? t ? ? ? ? ?].
  unfold table_frame. cbn. repeat split; auto using slots_frame_refl.
  intros j s' H. exists s'. auto.
Qed.

Lemma frame_table st st' : frame st st' -> table_frame st st'.
Proof. intros [H _]. exact H. Qed.

Lemma no_checkpoint_table_frame st st' :
  table_frame st st' -> no_checkpoint st -> no_checkpoint st'.
Proof.
  intros (_ & _ & _ & _ & _ & H & _) Hc. unfold no_checkpoint in *. congruence.
Qed.

Lemma no_checkpoint_not_checkpoint st :
  no_checkpoint st -> WT_SESSION_IS_CHECKPOINT st = false.
Proof.
  intros Hs. unfold WT_SESSION_IS_CHECKPOINT, no_checkpoint in *.
  rewrite Hs. destruct (Z.of_nat _ =? 0); reflexivity.
Qed.

(** The statements of [__wt_txn_release] after the id has been cleared. *)
Lemma __wt_txn_release_tail_frame st2 :
  no_checkpoint st2 ->
  table_frame st2
    (let st := upd_txn (set_t_logrec false) st2 in
     let st := __wt_txn_release_snapshot st in
     let st := upd_txn (set_t_isolation (ss_isolation (snd st))) st in
     let st := upd_txn (set_t_flags []) st in
     let st := upd_txn (set_t_prepare_timestamp WT_TS_NONE) st in
     (fst st, set_ss_operation_timeout_us 0 (snd st))).
Proof.
  intros Hc2. cbv zeta.
  set (st3 := upd_txn (set_t_logrec false) st2).
  assert (F3 : table_frame st2 st3).
  { apply upd_txn_table_frame. intros t; left; reflexivity. }
  pose proof (no_checkpoint_table_frame _ _ F3 Hc2) as Hc3.
  pose proof (frame_table _ _ (__wt_txn_release_snapshot_frame st3 Hc3)) as F4.
  set (st4 := __wt_txn_release_snapshot st3) in *.
  eapply table_frame_trans; [apply F3|].
  eapply table_frame_trans; [apply F4|].
  eapply table_frame_trans;
    [apply (upd_txn_table_frame (set_t_isolation (ss_isolation (snd st4))));
     intros t; left; reflexivity|].
  eapply table_frame_trans;
    [apply (upd_txn_table_frame (set_t_flags []));
     intros t; left; reflexivity|].
  eapply table_frame_trans;
    [apply (upd_txn_table_frame (set_t_prepare_timestamp WT_TS_NONE));
     intros t; left; reflexivity|].
  apply table_frame_of_view.
  match goal with |- frame_view (_, set_ss_operation_timeout_us 0 (snd ?s))
                     = frame_view _ => destruct s as [c se]; destruct se end.
  reflexivity.
Qed.

Lemma __wt_txn_release_frame st :
  no_checkpoint st -> frame st (__wt_txn_release st).
Proof.
  intros Hc. split.
  2:{ intros H. unfold txn_isset in H. rewrite __wt_txn_release_flags in H.
      discriminate. }
  unfold __wt_txn_release.
  set (st1 := upd_txn (set_t_notify None) st).
  assert (F1 : table_frame st st1).
  { apply upd_txn_table_frame. intros t; left; reflexivity. }
  pose proof (no_checkpoint_table_frame _ _ F1 Hc) as Hc1.
  cbv zeta. rewrite (no_checkpoint_not_checkpoint _ Hc1).
  eapply table_frame_trans; [exact F1|].
  destruct (txn_isset st1 WT_TXN_HAS_ID).
  - destruct (negb (txn_isset st1 WT_TXN_PREPARE)).
    + set (st2 := upd_txn (set_t_id WT_TXN_NONE)
                    (__txn_remove_from_global_table st1)).
      assert (F2 : table_frame st1 st2).
      { eapply table_frame_trans.
        - apply frame_table.
          apply (upd_txn_state_frame (set_s_id WT_TXN_NONE)).
          intros s. right. reflexivity.
        - apply upd_txn_table_frame. intros t. right. reflexivity. }
      eapply table_frame_trans; [exact F2|].
      apply (__wt_txn_release_tail_frame st2).
      exact (no_checkpoint_table_frame _ _ F2 Hc1).
    + set (st2 := upd_txn (set_t_id WT_TXN_NONE) st1).
      assert (F2 : table_frame st1 st2).
      { apply upd_txn_table_frame. intros t. right. reflexivity. }
      eapply table_frame_trans; [exact F2|].
      apply (__wt_txn_release_tail_frame st2).
      exact (no_checkpoint_table_frame _ _ F2 Hc1).
  - apply (__wt_txn_release_tail_frame st1 Hc1).
Qed.

Lemma frames_of_frame {A} (m : M A) :
  (forall st, no_checkpoint st ->
     match m st with
     | Next _ st' | Exit _ st' | Abort st' => frame st st'
     | Fault => True
     end) -> frames m.
Proof. intros H. exact H. Qed.

Lemma __wt_txn_set_timestamp_frames cfg : frames (__wt_txn_set_timestamp cfg).
Proof.
  assert (Hset : forall f (g : WT_TXN -> WT_TXN) st,
            f <> WT_TXN_HAS_SNAPSHOT ->
            (forall t, t_id (g t) = t_id t /\ t_snapshot (g t) = t_snapshot t /\
                       t_snap_max (g t) = t_snap_max t /\
                       t_flags (g t) = t_flags t) ->
            frame st (txn_set f (upd_txn g st))).
  { intros f g st Hf Hg. eapply frame_trans; [|apply txn_set_frame; exact Hf].
    apply upd_txn_frame. intros t. destruct (Hg t) as (? & ? & ? & Hfl).
    repeat split; auto. rewrite Hfl. auto. }
  unfold __wt_txn_set_timestamp.
  apply frames_bind; [|intros _; apply frames_bind; [|intros _]].
  - intros st _. unfold set_commit_timestamp.
    destruct (cfg_commit_timestamp cfg); [|apply frame_refl].
    destruct (_ && _); [apply frame_refl|].
    apply Hset; [discriminate|]. intros t. repeat split; reflexivity.
  - intros st _. unfold set_durable_timestamp.
    destruct (cfg_durable_timestamp cfg); [|apply frame_refl].
    apply Hset; [discriminate|]. intros t. repeat split; reflexivity.
  - intros st _. unfold set_prepare_timestamp.
    destruct (cfg_prepare_timestamp cfg); [|apply frame_refl].
    apply Hset; [discriminate|]. intros t. repeat split; reflexivity.
Qed.

Lemma commit_check_timestamps_frames prepare :
  frames (commit_check_timestamps prepare).
Proof.
  intros st _. unfold commit_check_timestamps, WT_RET_MSG.
  destruct prepare;
    repeat match goal with |- context [if ?c then _ else _] => destruct c end;
    apply frame_refl.
Qed.

Lemma __txn_commit_timestamps_assert_frames E :
  frames (__txn_commit_timestamps_assert E).
Proof.
  intros st Hc. unfold __txn_commit_timestamps_assert.
  repeat match goal with
         | |- context [if ?c then Exit _ _ else _] => destruct c
         | |- context [if ?c then Next _ _ else _] => destruct c
         end; try apply frame_refl.
  destruct (commit_timestamps_assert_ops _ _ _ _) as [r|]; [|exact I].
  apply (frames_WT_RET r st Hc).
Qed.

Lemma commit_sync_frames cfg : frames (commit_sync cfg).
Proof.
  assert (Hl : forall v st, frame st (upd_txn (set_t_txn_logsync v) st)).
  { intros v st. apply upd_txn_frame. intros t. repeat split; auto. }
  intros st _. unfold commit_sync.
  repeat match goal with |- context [if ?c then _ else _] => destruct c end;
    try apply frame_refl; apply Hl.
Qed.

Lemma commit_notify_frames : frames commit_notify.
Proof.
  intros st Hc. unfold commit_notify.
  destruct (t_notify (st_txn st)); [|apply frame_refl].
  apply (frames_WT_RET _ st Hc).
Qed.

Lemma commit_copy_values_frames E prepare : frames (commit_copy_values E prepare).
Proof.
  intros st Hc. unfold commit_copy_values.
  destruct (_ && _); [|apply frame_refl]. apply (frames_WT_RET _ st Hc).
Qed.

Lemma commit_log_frames E : frames (commit_log E).
Proof.
  intros st Hc. unfold commit_log.
  destruct (_ && _ && _); [|apply frame_refl].
  pose proof (__wt_txn_release_snapshot_frame st Hc) as F.
  pose proof (frames_WT_RET (x_log_commit E) (__wt_txn_release_snapshot st)
                (frame_no_checkpoint _ _ F Hc)) as F'.
  destruct (WT_RET (x_log_commit E) (__wt_txn_release_snapshot st));
    auto; eapply frame_trans; eassumption.
Qed.

Lemma commit_process_updates_frames E prepare :
  frames (commit_process_updates E prepare).
Proof.
  intros st _. unfold commit_process_updates.
  destruct (commit_ops _ _ _ _ _ _ _); auto; apply store_ops_frame.
Qed.

Lemma commit_update_durable_frame E candidate st :
  frame st (commit_update_durable E candidate st).
Proof.
  unfold commit_update_durable.
  destruct (durable_history E candidate st) as [history swapped].
  destruct_state st. apply frame_of_view; reflexivity.
Qed.

Lemma commit_finish_frame E readonly st :
  no_checkpoint st -> frame st (commit_finish E readonly st).
Proof.
  intros Hc. unfold commit_finish. cbv zeta.
  set (st1 := upd_txn (set_t_mod []) st).
  assert (F1 : frame st st1).
  { apply upd_txn_frame. intros t. repeat split; auto. }
  pose proof (__wt_txn_release_frame st1 (frame_no_checkpoint _ _ F1 Hc)) as F2.
  eapply frame_trans; [exact F1|].
  eapply frame_trans; [exact F2|].
  eapply frame_trans; [|apply commit_update_durable_frame].
  destruct (negb readonly); [|apply frame_refl].
  unfold __wt_gen_next.
  apply (upd_conn_frame
           (fun c => set_c_gen_commit (c_gen_commit c + 1) c)).
  intros c. destruct c. reflexivity.
Qed.

Lemma commit_timestamps_frames cfg prepare :
  frames (commit_timestamps cfg prepare).
Proof.
  unfold commit_timestamps.
  apply frames_bind; [|intros _; apply frames_bind; [|intros _]].
  - apply frames_modify. intros st _.
    destruct (negb prepare); [apply txn_clr_frame|apply frame_refl].
  - apply __wt_txn_set_timestamp_frames.
  - apply commit_check_timestamps_frames.
Qed.

Lemma commit_prepare_to_resolve_frames E cfg prepare :
  frames (commit_prepare_to_resolve E cfg prepare).
Proof.
  unfold commit_prepare_to_resolve.
  repeat (apply frames_bind; [|intros _]).
  - apply __txn_commit_timestamps_assert_frames.
  - apply commit_sync_frames.
  - apply commit_notify_frames.
  - apply commit_copy_values_frames.
  - apply commit_log_frames.
Qed.

Lemma commit_resolve_frames E prepare : frames (commit_resolve E prepare).
Proof.
  unfold commit_resolve. apply frames_bind.
  - apply commit_process_updates_frames.
  - intros acc. apply frames_WT_RET_ASSERT.
Qed.

Lemma commit_body_frames E cfg : frames (commit_body E cfg).
Proof.
  assert (H : forall prepare readonly,
    frames (commit_timestamps cfg prepare ;;
            commit_prepare_to_resolve E cfg prepare ;;
            commit_resolve E prepare ;;
            modify (commit_finish E readonly))).
  { intros prepare readonly.
    apply frames_bind; [apply commit_timestamps_frames|intros _].
    apply frames_bind; [apply commit_prepare_to_resolve_frames|intros _].
    apply frames_bind; [apply commit_resolve_frames|intros _].
    apply frames_modify. intros st Hc. apply commit_finish_frame. exact Hc. }
  intros st Hc. unfold commit_body. cbv zeta. apply H. exact Hc.
Qed.

Lemma __wt_txn_rollback_frames E st :
  no_checkpoint st -> outcome_frames st (__wt_txn_rollback E st).
Proof.
  intros Hc. unfold __wt_txn_rollback. cbv zeta.
  destruct (rollback_ops _ _ _ _ _) as [ops updates acc|r ops updates|];
    [| apply store_ops_frame | exact I].
  pose proof (store_ops_frame ops updates st) as F1.
  unfold WT_RET_ASSERT.
  destruct (_ || _); [|exact F1].
  cbn.
  set (st1 := store_ops ops updates st) in *.
  assert (F2 : frame st1 (upd_txn (set_t_mod []) st1)).
  { apply upd_txn_frame. intros t. repeat split; auto. }
  eapply frame_trans; [exact F1|].
  eapply frame_trans; [exact F2|].
  apply __wt_txn_release_frame.
  eapply frame_no_checkpoint; [|exact Hc]. eapply frame_trans; eassumption.
Qed.

Lemma __wt_txn_commit_frames E cfg st :
  no_checkpoint st -> outcome_frames st (__wt_txn_commit E cfg st).
Proof.
  intros Hc. unfold __wt_txn_commit.
  pose proof (commit_body_frames E cfg st Hc) as F.
  destruct (commit_body E cfg st) as [a st1|r st1|st1|]; cbn; auto.
  pose proof (__wt_txn_rollback_frames E st1 (frame_no_checkpoint _ _ F Hc)) as F'.
  destruct (__wt_txn_rollback E st1); cbn in *; auto;
    eapply frame_trans; eassumption.
Qed.

Lemma __wt_txn_prepare_frames E cfg st :
  no_checkpoint st -> outcome_frames st (__wt_txn_prepare E cfg st).
Proof.
  intros Hc. unfold __wt_txn_prepare.
  assert (F : frames (prepare_body E cfg)).
  { unfold prepare_body. intros st0 Hc0. revert st0 Hc0.
    change (frames
      ((fun st => if negb (c_log_debug_mode (fst st))
                  then WT_RET_ASSERT (negb (t_logrec (st_txn st))) EINVAL st
                  else Next tt st) ;;
       __wt_txn_set_timestamp cfg ;;
       (fun st => if negb (txn_isset st WT_TXN_HAS_TS_PREPARE)
                  then WT_RET_MSG EINVAL st else Next tt st) ;;
       (fun st => if 0 <? ss_ncursors (snd st)
                  then WT_RET (x_session_copy_values E) st else Next tt st) ;;
       (fun st =>
          match prepare_ops (st_txn st) (rev (t_mod (st_txn st)))
                  (c_updates (fst st)) with
          | Some (rops, updates) => Next tt (store_ops (rev rops) updates st)
          | None => Fault
          end) ;;
       modify (txn_set WT_TXN_PREPARE) ;;
       modify __wt_txn_release_snapshot ;;
       modify (fun st => if txn_isset st WT_TXN_HAS_ID
                         then __txn_remove_from_global_table st else st) ;;
       mret 0)).
    apply frames_bind; [|intros _].
    { intros s Hs. destruct (negb _); [|apply frame_refl].
      apply (frames_WT_RET_ASSERT _ _ s Hs). }
    apply frames_bind; [apply __wt_txn_set_timestamp_frames|intros _].
    apply frames_bind; [|intros _].
    { intros s Hs. destruct (negb _); apply frame_refl. }
    apply frames_bind; [|intros _].
    { intros s Hs. destruct (0 <? _); [|apply frame_refl].
      apply (frames_WT_RET _ s Hs). }
    apply frames_bind; [|intros _].
    { intros s Hs. destruct (prepare_ops _ _ _) as [[rops updates]|]; [|exact I].
      apply store_ops_frame. }
    apply frames_bind; [|intros _].
    { apply frames_modify. intros s _. apply txn_set_frame. discriminate. }
    apply frames_bind; [|intros _].
    { apply frames_modify. intros s Hs. apply __wt_txn_release_snapshot_frame.
      exact Hs. }
    apply frames_bind; [|intros _].
    { apply frames_modify. intros s _.
      destruct (txn_isset s WT_TXN_HAS_ID); [|apply frame_refl].
      apply (upd_txn_state_frame (set_s_id WT_TXN_NONE)). intros x. right.
      reflexivity. }
    apply frames_mret. }
  specialize (F st Hc). destruct (prepare_body E cfg st); exact F.
Qed.

(** ** The invariant of the system *)

Lemma initial_sys_inv sy : initial sy -> sys_inv sy.
Proof.
  intros [Hg Hs]. unfold sys_inv. cbv zeta. rewrite Hg.
  unfold __wt_txn_global_init, ids_ordered, WT_TXN_FIRST, WT_TXN_NONE. cbn.
  split; [apply length_replicate|].
  split; [intros i se H; apply (Hs i se H)|].
  do 2 (split; [reflexivity|]).
  split; [lia|]. split; [lia|].
  split; [|split; [|split]].
  - intros j s H. apply lookup_replicate in H as [-> _]. cbn. lia.
  - intros i se H. destruct (Hs i se H) as (_ & -> & _). unfold WT_TXN_NONE. lia.
  - intros i j se s _ _ H Hne. apply lookup_replicate in H as [-> _].
    cbn in Hne. contradiction.
  - intros i se H Hf. destruct (Hs i se H) as (_ & _ & Hfl).
    rewrite Hfl in Hf. discriminate.
Qed.

(** A call that keeps the frame of the table keeps the invariant, provided
    the snapshot the caller holds afterwards is sound. *)
Lemma sys_inv_install sy i se st' :
  sys_inv sy ->
  sy_sessions sy !! i = Some se ->
  table_frame (sy_conn sy, se) st' ->
  (txn_isset st' WT_TXN_HAS_SNAPSHOT = true ->
   t_snap_max (st_txn st') <= g_current (st_global st') /\
   forall x, x ∈ t_snapshot (st_txn st') ->
     x < t_snap_max (st_txn st') /\ x <> t_id (st_txn st')) ->
  sys_inv (install i st' sy).
Proof.
  intros (I1 & I2 & I3 & I4 & I5 & I6 & I7 & I8 & I9 & I10) Hi
         (F1 & F2 & F3 & F4 & F5 & F6 & F7 & [F8l F8] & F9) Hsnap.
  unfold st_global, st_txn in *. cbn [fst snd] in *.
  pose proof (I2 i se Hi) as Hid.
  assert (Hlt : (i < length (sy_sessions sy))%nat)
    by (apply lookup_lt_Some in Hi; exact Hi).
  assert (Hlook : forall k se', <[i := snd st']> (sy_sessions sy) !! k = Some se' ->
            (k = i /\ se' = snd st') \/ (k <> i /\ sy_sessions sy !! k = Some se')).
  { intros k se' H. destruct (decide (k = i)) as [->|Hne].
    - rewrite list_lookup_insert_eq in H by exact Hlt. inversion H. auto.
    - rewrite list_lookup_insert_ne in H by auto. auto. }
  unfold sys_inv, install. cbn [sy_conn sy_sessions]. cbv zeta.
  unfold ids_ordered in *.
  split; [rewrite length_insert; congruence|].
  split; [|split; [congruence|split; [congruence|split; [|split; [|split;
    [|split; [|split]]]]]]].
  - intros k se' H. destruct (Hlook k se' H) as [[-> ->]|[Hne H']].
    + congruence.
    + apply (I2 k se' H').
  - rewrite F2, F3, F4, F5. exact I5.
  - rewrite F2. exact I6.
  - intros j s' H. rewrite F2.
    destruct (F8 j s' H) as (s & Hs & [Hsame|[_ Hnone]]).
    + rewrite Hsame. apply (I7 j s Hs).
    + rewrite Hnone. unfold WT_TXN_NONE. exact I6.
  - intros k se' H. rewrite F2. destruct (Hlook k se' H) as [[-> ->]|[Hne H']].
    + destruct F9 as [F9|F9]; rewrite F9.
      * apply (I8 i se Hi).
      * unfold WT_TXN_NONE. exact I6.
    + apply (I8 k se' H').
  - intros k j se' s' Hkj H Hs' Hne.
    destruct (F8 j s' Hs') as (s & Hs & [Hsame|[_ Hnone]]); [|contradiction].
    rewrite Hsame in *.
    destruct (Hlook k se' H) as [[-> ->]|[Hnei H']].
    + destruct F9 as [F9|F9]; rewrite F9.
      * apply (I9 i j se s Hkj Hi Hs Hne).
      * exact Hne.
    + apply (I9 k j se' s Hkj H' Hs Hne).
  - intros k se' H Hf. destruct (Hlook k se' H) as [[-> ->]|[Hne H']].
    + apply Hsnap. exact Hf.
    + rewrite F2. apply (I10 k se' H' Hf).
Qed.

Lemma sys_inv_install_frame sy i se st' :
  sys_inv sy -> sy_sessions sy !! i = Some se ->
  frame (sy_conn sy, se) st' -> sys_inv (install i st' sy).
Proof.
  intros Hinv Hi [Ft Fs]. apply (sys_inv_install sy i se st' Hinv Hi Ft).
  intros Hf. destruct (Fs Hf) as (Hf0 & Hid & Hsn & Hmax).
  destruct Hinv as (_ & _ & _ & _ & _ & _ & _ & _ & _ & I10).
  destruct (I10 i se Hi Hf0) as [Hm Hx].
  destruct Ft as (_ & F2 & _).
  unfold st_txn, st_global in *. cbn [fst snd] in *.
  rewrite Hid, Hsn, Hmax, F2. split; [exact Hm|exact Hx].
Qed.

Lemma sys_no_checkpoint sy se :
  sys_inv sy -> no_checkpoint (sy_conn sy, se).
Proof. intros (_ & _ & H & _). exact H. Qed.

Lemma sys_inv_install_snapshot sy i se st' :
  sys_inv sy -> sy_sessions sy !! i = Some se ->
  __wt_txn_get_snapshot (sy_conn sy, se) = Some st' ->
  sys_inv (install i st' sy).
Proof.
  intros Hinv Hi H.
  destruct (has_current_snapshot (sy_conn sy, se)) eqn:Hfast.
  - assert (st' = (sy_conn sy, se)).
    { unfold __wt_txn_get_snapshot in H. unfold has_current_snapshot in Hfast.
      rewrite Hfast in H. inversion H. reflexivity. }
    subst st'. apply (sys_inv_install_frame sy i se); auto using frame_refl.
  - destruct (__wt_txn_get_snapshot_fields _ _ Hfast H)
      as (Ft & Hid & Hhas & Hmax & added & Hadded & _ & Hperm & _).
    cbv zeta in *.
    apply (sys_inv_install sy i se st' Hinv Hi Ft). intros _.
    destruct Hinv as (I1 & I2 & I3 & I4 & I5 & I6 & I7 & I8 & I9 & I10).
    destruct Ft as (_ & F2 & _).
    unfold st_global, st_txn in *. cbn [fst snd] in *.
    rewrite Hmax, F2. split; [lia|].
    intros x Hx. rewrite <- Hperm in Hx.
    rewrite I4 in Hx. cbn in Hx.
    destruct (Hadded x Hx) as (j & s & Hj & Hjo & Hsid & Hne & Hrange).
    split; [lia|].
    rewrite Hid, <- Hsid. rewrite (I2 i se Hi) in Hjo.
    apply (I9 i j se s); auto. congruence.
Qed.

Lemma install_install i st st' sy :
  install i st' (install i st sy) = install i st' sy.
Proof.
  unfold install. cbn. rewrite list_insert_insert_eq. reflexivity.
Qed.

Lemma install_lookup i st sy se :
  sy_sessions sy !! i = Some se ->
  sy_sessions (install i st sy) !! i = Some (snd st) /\
  (sy_conn (install i st sy), snd st) = st.
Proof.
  intros Hi. unfold install. cbn. split.
  - apply list_lookup_insert_eq. apply lookup_lt_Some in Hi. exact Hi.
  - destruct st; reflexivity.
Qed.

(** Two calls in a row by the same session. *)
Lemma sys_inv_install_then sy i se st (P : state -> Prop) :
  sy_sessions sy !! i = Some se ->
  sys_inv (install i st sy) ->
  (forall sy' se', sys_inv sy' -> sy_sessions sy' !! i = Some se' ->
                   (sy_conn sy', se') = st ->
                   forall st', P st' -> sys_inv (install i st' sy')) ->
  forall st', P st' -> sys_inv (install i st' sy).
Proof.
  intros Hi Hinv Hnext st' HP.
  destruct (install_lookup i st sy se Hi) as [Hl Hc].
  rewrite <- (install_install i st st' sy).
  apply (Hnext (install i st sy) (snd st) Hinv Hl Hc st' HP).
Qed.

Lemma sys_inv_begin sy i se st' :
  sys_inv sy -> sy_sessions sy !! i = Some se ->
  __wt_txn_begin (sy_conn sy, se) = Some st' ->
  sys_inv (install i st' sy).
Proof.
  intros Hinv Hi H. unfold __wt_txn_begin in H. cbv zeta in H.
  set (st0 := upd_txn (set_t_isolation (ss_isolation (snd (sy_conn sy, se))))
                (sy_conn sy, se)) in *.
  assert (F0 : frame (sy_conn sy, se) st0).
  { apply upd_txn_frame. intros t. repeat split; auto. }
  pose proof (sys_inv_install_frame sy i se st0 Hinv Hi F0) as Hinv0.
  destruct (match t_isolation (st_txn st0) with
            | WT_ISO_SNAPSHOT => __wt_txn_get_snapshot st0
            | _ => Some st0
            end) as [st1|] eqn:H1; [|discriminate].
  cbn [mbind option_bind] in H. inversion H; subst st'; clear H.
  assert (Hinv1 : sys_inv (install i st1 sy)).
  { apply (sys_inv_install_then sy i se st0
             (fun st1 => match t_isolation (st_txn st0) with
                         | WT_ISO_SNAPSHOT => __wt_txn_get_snapshot st0
                         | _ => Some st0
                         end = Some st1) Hi Hinv0); [|exact H1].
    intros sy' se' Hinv' Hi' Hc st1' H1'.
    destruct (t_isolation (st_txn st0)).
    - inversion H1'; subst st1'.
      apply (sys_inv_install_frame sy' i se' st0 Hinv' Hi').
      rewrite Hc. apply frame_refl.
    - inversion H1'; subst st1'.
      apply (sys_inv_install_frame sy' i se' st0 Hinv' Hi').
      rewrite Hc. apply frame_refl.
    - apply (sys_inv_install_snapshot sy' i se' st1' Hinv' Hi').
      rewrite Hc. exact H1'. }
  apply (sys_inv_install_then sy i se st1
           (fun st' => st' = txn_set WT_TXN_RUNNING st1) Hi Hinv1);
    [|reflexivity].
  intros sy' se' Hinv' Hi' Hc st' ->.
  apply (sys_inv_install_frame sy' i se' _ Hinv' Hi').
  rewrite Hc. apply txn_set_frame. discriminate.
Qed.

Lemma sys_inv_update_oldest sy i se E strict wait r st' :
  sys_inv sy -> sy_sessions sy !! i = Some se ->
  __wt_txn_update_oldest E strict wait (sy_conn sy, se) = Some (r, st') ->
  sys_inv (install i st' sy).
Proof.
  intros Hinv Hi H.
  apply __wt_txn_update_oldest_effect in H
    as [Hsnd (md & o & lr & -> & _ & _ & _ & Hord)].
  destruct Hinv as (I1 & I2 & I3 & I4 & I5 & I6 & I7 & I8 & I9 & I10).
  specialize (Hord I5).
  unfold sys_inv, install, upd_global. cbn [fst snd sy_conn sy_sessions].
  rewrite (list_insert_id _ _ _ Hi).
  destruct sy as [c sessions]. destruct c as [g ? ? ? ? ?]. destruct g.
  cbn in *. unfold ids_ordered. cbn.
  repeat split; auto; try lia;
    match goal with
    | Hk : sessions !! ?k = Some ?s,
      Hf : F_ISSET (t_flags (ss_txn ?s)) WT_TXN_HAS_SNAPSHOT = true |- _ =>
        destruct (I10 k s Hk Hf) as [Hm Hx]; try exact Hm;
        match goal with
        | Hin : _ ∈ _ |- _ => apply (Hx _ Hin)
        end
    end.
Qed.

Lemma __wt_txn_id_check_eq c se :
  txn_isset (c, se) WT_TXN_HAS_ID = false ->
  let g := c_txn_global c in
  let cur := g_current g in
  __wt_txn_id_check (c, se) =
  (set_c_txn_global
     (set_g_current (cur + 1)
        (set_g_states (alter (set_s_id cur) (ss_id se) (g_states g)) g)) c,
   set_ss_txn
     (set_t_flags (F_SET (t_flags (ss_txn se)) WT_TXN_HAS_ID)
        (set_t_id cur (ss_txn se))) se).
Proof.
  intros H. unfold __wt_txn_id_check. rewrite H.
  destruct c as [g ? ? ? ? ?]; destruct g; destruct se as [? t ? ? ? ? ?];
    destruct t; reflexivity.
Qed.

Lemma sys_inv_id_check sy i se :
  sys_inv sy -> sy_sessions sy !! i = Some se ->
  sys_inv (install i (__wt_txn_id_check (sy_conn sy, se)) sy).
Proof.
  intros Hinv Hi.
  destruct (txn_isset (sy_conn sy, se) WT_TXN_HAS_ID) eqn:Hhas.
  { unfold __wt_txn_id_check. rewrite Hhas.
    apply (sys_inv_install_frame sy i se); auto using frame_refl. }
  rewrite (__wt_txn_id_check_eq _ _ Hhas). cbv zeta.
  destruct Hinv as (I1 & I2 & I3 & I4 & I5 & I6 & I7 & I8 & I9 & I10).
  pose proof (I2 i se Hi) as Hid. rewrite Hid.
  assert (Hlt : (i < length (sy_sessions sy))%nat)
    by (apply lookup_lt_Some in Hi; exact Hi).
  unfold ids_ordered in I5.
  set (g := c_txn_global (sy_conn sy)) in *.
  set (cur := g_current g) in *.
  set (se1 := set_ss_txn _ se).
  assert (Hse1 : t_id (ss_txn se1) = cur /\ ss_id se1 = i /\
             t_snapshot (ss_txn se1) = t_snapshot (ss_txn se) /\
             t_snap_max (ss_txn se1) = t_snap_max (ss_txn se) /\
             F_ISSET (t_flags (ss_txn se1)) WT_TXN_HAS_SNAPSHOT
             = F_ISSET (t_flags (ss_txn se)) WT_TXN_HAS_SNAPSHOT).
  { unfold se1. destruct se as [? t ? ? ? ? ?]. cbn in *.
    repeat split; auto. rewrite F_ISSET_F_SET. reflexivity. }
  destruct Hse1 as (Ht & Hsid & Hsn & Hmx & Hfl).
  assert (Hlook : forall k se', <[i := se1]> (sy_sessions sy) !! k = Some se' ->
            (k = i /\ se' = se1) \/ (k <> i /\ sy_sessions sy !! k = Some se')).
  { intros k se' H. destruct (decide (k = i)) as [->|Hne].
    - rewrite list_lookup_insert_eq in H by exact Hlt. inversion H. auto.
    - rewrite list_lookup_insert_ne in H by auto. auto. }
  assert (Hslot : forall j s', alter (set_s_id cur) i (g_states g) !! j = Some s' ->
            (j = i /\ s_id s' = cur) \/ (j <> i /\ g_states g !! j = Some s')).
  { intros j s' H. destruct (decide (j = i)) as [->|Hne].
    - rewrite list_lookup_alter_eq in H.
      destruct (g_states g !! i); [|discriminate]. inversion H. auto.
    - rewrite list_lookup_alter_ne in H by auto. auto. }
  assert (Hg : forall (c : WT_CONNECTION_IMPL) states,
            let g' := c_txn_global (set_c_txn_global
                        (set_g_current (cur + 1) (set_g_states states g)) c) in
            g_states g' = states /\ g_current g' = cur + 1 /\
            g_checkpoint_id g' = g_checkpoint_id g /\
            g_checkpoint_state g' = g_checkpoint_state g /\
            g_metadata_pinned g' = g_metadata_pinned g /\
            g_oldest_id g' = g_oldest_id g /\
            g_last_running g' = g_last_running g).
  { intros c states. destruct c. cbn. repeat split; reflexivity. }
  unfold sys_inv, install, ids_ordered.
  cbn [fst snd sy_conn sy_sessions]. cbv zeta.
  destruct (Hg (sy_conn sy) (alter (set_s_id cur) i (g_states g)))
    as (-> & -> & -> & -> & -> & -> & ->).
  split; [rewrite length_alter, length_insert; exact I1|].
  split; [|split; [exact I3|split; [exact I4|split; [lia|split; [lia|
    split; [|split; [|split]]]]]]].
  - intros k se' H. destruct (Hlook k se' H) as [[-> ->]|[_ H']];
      [exact Hsid|apply (I2 k se' H')].
  - intros j s' H. destruct (Hslot j s' H) as [[_ ->]|[_ H']]; [lia|].
    specialize (I7 j s' H'). lia.
  - intros k se' H. destruct (Hlook k se' H) as [[-> ->]|[_ H']]; [lia|].
    specialize (I8 k se' H'). lia.
  - intros k j se' s' Hkj H Hs' Hne.
    destruct (Hlook k se' H) as [[-> ->]|[Hk H']];
      destruct (Hslot j s' Hs') as [[-> Hj]|[Hj Hs]].
    + contradiction.
    + specialize (I7 j s' Hs). lia.
    + specialize (I8 k se' H'). lia.
    + apply (I9 k j se' s' Hkj H' Hs Hne).
  - intros k se' H Hf.
    destruct (Hlook k se' H) as [[-> ->]|[Hk H']].
    + rewrite Hfl in Hf. rewrite Ht, Hsn, Hmx.
      destruct (I10 i _ Hi Hf) as [Hm Hx].
      split; [lia|]. intros x Hin. destruct (Hx x Hin). lia.
    + destruct (I10 k se' H' Hf) as [Hm Hx]. split; [lia|exact Hx].
Qed.

(** Every call a session returns from keeps the invariant. *)
Lemma sys_step_inv sy sy' : sys_inv sy -> sys_step sy sy' -> sys_inv sy'.
Proof.
  intros Hinv Hstep. destruct Hstep as [i se c st' Hi Hrun].
  pose proof (sys_no_checkpoint sy se Hinv) as Hc.
  destruct c as [| | |E strict wait|E cfg|E cfg|E]; cbn in Hrun.
  - apply (sys_inv_begin sy i se st' Hinv Hi Hrun).
  - inversion Hrun; subst st'. apply sys_inv_id_check; assumption.
  - apply (sys_inv_install_snapshot sy i se st' Hinv Hi Hrun).
  - destruct (__wt_txn_update_oldest E strict wait (sy_conn sy, se))
      as [[r st'']|] eqn:Hu; [|discriminate].
    cbn in Hrun. inversion Hrun; subst st''.
    apply (sys_inv_update_oldest sy i se E strict wait r st' Hinv Hi Hu).
  - pose proof (__wt_txn_prepare_frames E cfg _ Hc) as F.
    destruct (__wt_txn_prepare E cfg (sy_conn sy, se)); try discriminate.
    cbn in Hrun, F. inversion Hrun; subst.
    apply (sys_inv_install_frame sy i se st' Hinv Hi F).
  - pose proof (__wt_txn_commit_frames E cfg _ Hc) as F.
    destruct (__wt_txn_commit E cfg (sy_conn sy, se)); try discriminate.
    cbn in Hrun, F. inversion Hrun; subst.
    apply (sys_inv_install_frame sy i se st' Hinv Hi F).
  - pose proof (__wt_txn_rollback_frames E _ Hc) as F.
    destruct (__wt_txn_rollback E (sy_conn sy, se)); try discriminate.
    cbn in Hrun, F. inversion Hrun; subst.
    apply (sys_inv_install_frame sy i se st' Hinv Hi F).
Qed.

Lemma reachable_sys_inv sy : reachable sy -> sys_inv sy.
Proof.
  induction 1 as [sy Hinit|sy sy' _ IH Hstep].
  - apply initial_sys_inv. exact Hinit.
  - apply (sys_step_inv sy sy' IH Hstep).
Qed.

Lemma sys_run_reachable i c sy : reachable sy -> reachable (sys_run i c sy).
Proof.
  intros Hr. unfold sys_run.
  destruct (sy_sessions sy !! i) as [se|] eqn:Hi; [|exact Hr].
  destruct (run_call c (sy_conn sy, se)) as [st'|] eqn:Hrun; [|exact Hr].
  apply (reachable_step sy); [exact Hr|].
  apply (sys_step_call sy i se c st' Hi Hrun).
Qed.

Lemma ex_system_initial : initial ex_system.
Proof.
  split; [reflexivity|].
  intros i se H.
  destruct i as [|[|[|i]]]; cbn in H; inversion H; repeat split.
Qed.

Lemma ex_trace_system_reachable : reachable ex_trace_system.
Proof.
  unfold ex_trace_system.
  repeat apply sys_run_reachable.
  apply reachable_initial, ex_system_initial.
Qed.

(** C1 -- Global-table ordering invariant.  In every state the table reaches
    through the calls of its sessions, [metadata_pinned <= oldest_id <=
    last_running <= current]; the values [__txn_oldest_scan] hands back are
    ordered this way; and [__wt_txn_update_oldest] moves each of the three
    published ids forward only and leaves them ordered. *)
Theorem table_ids_ordered (sy : system) :
  reachable sy ->
  let g := c_txn_global (sy_conn sy) in
  ids_ordered g /\
  (forall sc, __txn_oldest_scan g = Some sc ->
     sc_metadata_pinned sc <= sc_oldest_id sc /\
     sc_oldest_id sc <= sc_last_running sc /\
     sc_last_running sc <= g_current g) /\
  (forall i se E strict wait r st',
     sy_sessions sy !! i = Some se ->
     __wt_txn_update_oldest E strict wait (sy_conn sy, se) = Some (r, st') ->
     g_metadata_pinned g <= g_metadata_pinned (st_global st') /\
     g_oldest_id g <= g_oldest_id (st_global st') /\
     g_last_running g <= g_last_running (st_global st') /\
     g_current (st_global st') = g_current g /\
     ids_ordered (st_global st')).
Proof.
  intros Hr. cbv zeta.
  pose proof (reachable_sys_inv sy Hr) as Hinv.
  assert (Hord : ids_ordered (c_txn_global (sy_conn sy)))
    by (destruct Hinv as (_ & _ & _ & _ & H & _); exact H).
  split; [exact Hord|]. split.
  - intros sc Hsc. apply __txn_oldest_scan_ordered. exact Hsc.
  - intros i se E strict wait r st' Hi Hu.
    assert (Hr' : reachable (install i st' sy)).
    { apply (reachable_step sy); [exact Hr|].
      apply (sys_step_call sy i se (call_update_oldest E strict wait) st' Hi).
      cbn. rewrite Hu. reflexivity. }
    pose proof (reachable_sys_inv _ Hr') as (_ & _ & _ & _ & Hord' & _).
    apply __wt_txn_update_oldest_effect in Hu
      as [_ (md & o & lr & -> & H1 & H2 & H3 & _)].
    cbn [install sy_conn fst] in Hord'.
    unfold st_global in *. cbn [fst] in *.
    destruct (sy_conn sy) as [g ? ? ? ? ?]. destruct g. cbn in *.
    repeat split; auto; apply Hord'.
Qed.

Lemma table_ids_ordered_witness :
  let g := c_txn_global (sy_conn ex_trace_system) in
  ids_ordered g /\
  (forall sc, __txn_oldest_scan g = Some sc ->
     sc_metadata_pinned sc <= sc_oldest_id sc /\
     sc_oldest_id sc <= sc_last_running sc /\
     sc_last_running sc <= g_current g) /\
  (forall i se E strict wait r st',
     sy_sessions ex_trace_system !! i = Some se ->
     __wt_txn_update_oldest E strict wait (sy_conn ex_trace_system, se)
     = Some (r, st') ->
     g_metadata_pinned g <= g_metadata_pinned (st_global st') /\
     g_oldest_id g <= g_oldest_id (st_global st') /\
     g_last_running g <= g_last_running (st_global st') /\
     g_current (st_global st') = g_current g /\
     ids_ordered (st_global st')).
Proof.
  apply (table_ids_ordered ex_trace_system).
  apply ex_trace_system_reachable.
Defined.

(** C2 (amended) -- Snapshot correctness.  One call of
    [__wt_txn_get_snapshot] that allocates a snapshot, on any table, a
    checkpoint running or not, the checkpoint's id allocated (it is below
    [current]) and the transaction's own id published in no slot but its
    own: every entry of the array is below [snap_max]; it is the id of the
    running checkpoint or an id published in the slot of another session;
    and it is not the transaction's own id, unless that is the id of the
    running checkpoint.  And whatever calls the sessions have made (begin,
    id allocation, snapshot, prepare, commit, rollback, oldest-id scans, in
    any order, no checkpoint among them), the snapshot array a transaction
    holds contains neither the transaction's own id nor an id at or above
    its [snap_max]. *)
Theorem snapshot_excludes_own_and_later :
  (forall st st',
     let g := st_global st in
     let ckpt := s_id (g_checkpoint_state g) in
     has_current_snapshot st = false ->
     __wt_txn_get_snapshot st = Some st' ->
     (ckpt <> WT_TXN_NONE -> ckpt < g_current g) ->
     (forall j s, g_states g !! j = Some s -> j <> ss_id (snd st) ->
        s_id s <> WT_TXN_NONE -> s_id s <> t_id (st_txn st)) ->
     forall x, x ∈ t_snapshot (st_txn st') ->
       x < t_snap_max (st_txn st') /\
       (x = ckpt /\ ckpt <> WT_TXN_NONE \/
        published_elsewhere (g_states g) (ss_id (snd st)) (g_oldest_id g)
          (g_current g) x) /\
       (ckpt <> t_id (st_txn st') -> x <> t_id (st_txn st'))) /\
  (forall sy, reachable sy ->
     (forall i se, sy_sessions sy !! i = Some se ->
        F_ISSET (t_flags (ss_txn se)) WT_TXN_HAS_SNAPSHOT = true ->
        forall x, x ∈ t_snapshot (ss_txn se) ->
          x <> t_id (ss_txn se) /\ x < t_snap_max (ss_txn se)) /\
     (forall i se st', sy_sessions sy !! i = Some se ->
        __wt_txn_get_snapshot (sy_conn sy, se) = Some st' ->
        txn_isset st' WT_TXN_HAS_SNAPSHOT = true /\
        forall x, x ∈ t_snapshot (st_txn st') ->
          x <> t_id (st_txn st') /\ x < t_snap_max (st_txn st'))).
Proof.
  split.
  - intros st st' g ckpt Hfast Hsnap Hck Hown x Hx.
    destruct (__wt_txn_get_snapshot_fields st st' Hfast Hsnap)
      as (_ & Hid & _ & Hmax & added & Hadded & _ & Hperm & _).
    fold g in Hmax, Hadded, Hperm. fold ckpt in Hperm.
    rewrite Hmax, Hid.
    assert (Hin : x ∈ (if ckpt =? WT_TXN_NONE then [] else [ckpt]) ++ added).
    { rewrite Hperm. exact Hx. }
    apply elem_of_app in Hin as [Hin|Hin].
    + destruct (Z.eqb_spec ckpt WT_TXN_NONE) as [Heq|Hne]; [inversion Hin|].
      apply list_elem_of_singleton in Hin. subst x.
      split; [apply Hck; exact Hne|]. split; [left; split; [reflexivity|exact Hne]|].
      intros H. exact H.
    + pose proof (Hadded x Hin) as Hpub.
      destruct Hpub as (j & s & Hj & Hjo & Hsid & Hnone & Hwin).
      split; [lia|]. split.
      * right. exists j, s. repeat split; try assumption; lia.
      * intros _. rewrite <- Hsid. apply (Hown j s Hj Hjo).
        rewrite Hsid. exact Hnone.
  - intros sy Hr.
    assert (Hmain : forall sy', reachable sy' ->
       forall i se, sy_sessions sy' !! i = Some se ->
       F_ISSET (t_flags (ss_txn se)) WT_TXN_HAS_SNAPSHOT = true ->
       forall x, x ∈ t_snapshot (ss_txn se) ->
         x <> t_id (ss_txn se) /\ x < t_snap_max (ss_txn se)).
    { intros sy' Hr' i se Hi Hf x Hx.
      pose proof (reachable_sys_inv sy' Hr')
        as (_ & _ & _ & _ & _ & _ & _ & _ & _ & I10).
      destruct (I10 i se Hi Hf) as [_ H]. destruct (H x Hx). auto. }
    split; [apply (Hmain sy Hr)|].
    intros i se st' Hi Hsnap.
    assert (Hhas : txn_isset st' WT_TXN_HAS_SNAPSHOT = true).
    { destruct (has_current_snapshot (sy_conn sy, se)) eqn:Hfast.
      - assert (st' = (sy_conn sy, se)).
        { unfold __wt_txn_get_snapshot in Hsnap.
          unfold has_current_snapshot in Hfast.
          rewrite Hfast in Hsnap. inversion Hsnap. reflexivity. }
        subst st'. unfold has_current_snapshot in Hfast.
        apply andb_true_iff in Hfast as [Hfast _].
        apply andb_true_iff in Hfast as [_ Hfast]. exact Hfast.
      - apply (__wt_txn_get_snapshot_fields _ _ Hfast Hsnap). }
    split; [exact Hhas|].
    assert (Hr' : reachable (install i st' sy)).
    { apply (reachable_step sy); [exact Hr|].
      apply (sys_step_call sy i se call_get_snapshot st' Hi). exact Hsnap. }
    destruct (install_lookup i st' sy se Hi) as [Hl _].
    apply (Hmain _ Hr' i (snd st') Hl Hhas).
Qed.

Lemma snapshot_excludes_own_and_later_witness :
  (exists st',
     __wt_txn_get_snapshot (ex_checkpoint_state 0 7) = Some st' /\
     t_snapshot (st_txn st') = [5; 6] /\
     forall x, x ∈ t_snapshot (st_txn st') ->
       x < t_snap_max (st_txn st') /\ x <> t_id (st_txn st')) /\
  (forall i se, sy_sessions ex_trace_system !! i = Some se ->
     F_ISSET (t_flags (ss_txn se)) WT_TXN_HAS_SNAPSHOT = true ->
     forall x, x ∈ t_snapshot (ss_txn se) ->
       x <> t_id (ss_txn se) /\ x < t_snap_max (ss_txn se)).
Proof.
  destruct snapshot_excludes_own_and_later as [Hcall Hsys].
  split.
  - eexists. split; [vm_compute; reflexivity|].
    split; [reflexivity|].
    intros x Hx.
    destruct (Hcall (ex_checkpoint_state 0 7) _ eq_refl eq_refl) with (x := x)
      as (Hlt & _ & Hne).
    + intros _. vm_compute. reflexivity.
    + intros j s Hj Hjo Hnone.
      destruct j as [|[|[|j]]]; cbn in Hj; inversion Hj; subst s;
        cbn in *; try discriminate; contradiction.
    + exact Hx.
    + split; [exact Hlt|]. apply Hne. discriminate.
  - apply (Hsys ex_trace_system ex_trace_system_reachable).
Defined.

(** C2 (as stated, refuted) -- the session that runs the checkpoint takes a
    snapshot.  Its transaction's id is the one published in
    [checkpoint_state], its slot publishes none (the state in which
    [__wt_txn_release] clears the two ids together); the array holds the id
    of the checkpoint, which is the id of the session's own transaction. *)
Lemma snapshot_holds_own_checkpoint_id :
  WT_SESSION_IS_CHECKPOINT (ex_checkpoint_state 1 6) = true /\
  s_id (g_checkpoint_state (st_global (ex_checkpoint_state 1 6))) =
    t_id (st_txn (ex_checkpoint_state 1 6)) /\
  (s_id <$> g_states (st_global (ex_checkpoint_state 1 6)) !! 1%nat) =
    Some WT_TXN_NONE /\
  exists st',
    __wt_txn_get_snapshot (ex_checkpoint_state 1 6) = Some st' /\
    t_snapshot (st_txn st') = [5; 6; 7] /\
    t_id (st_txn st') = 6 /\
    t_id (st_txn st') ∈ t_snapshot (st_txn st').
Proof.
  split; [reflexivity|]. split; [reflexivity|]. split; [reflexivity|].
  eexists. split; [vm_compute; reflexivity|].
  split; [reflexivity|]. split; [reflexivity|].
  cbn. apply elem_of_cons. right. apply elem_of_cons. left. reflexivity.
Qed.

(** The example trace: session 0 sees the ids 1 and 2 of the two running
    transactions, and the scan publishes 1 as the oldest id. *)
Example ex_trace_system_snapshot :
  (t_snapshot <$> (ss_txn <$> sy_sessions ex_trace_system !! 0%nat)) = Some [1; 2] /\
  g_current (c_txn_global (sy_conn ex_trace_system)) = 3 /\
  g_oldest_id (c_txn_global (sy_conn ex_trace_system)) = 1.
Proof. vm_compute. repeat split. Qed.

(** ** Commit: timestamps and configuration *)

Lemma bind_Next {A B} (m : M A) (k : A -> M B) st a st1 :
  m st = Next a st1 -> (m ≫= k) st = k a st1.
Proof. intros H. unfold mbind, M_bind. rewrite H. reflexivity. Qed.

Lemma bind_Exit {A B} (m : M A) (k : A -> M B) st r st1 :
  m st = Exit r st1 -> (m ≫= k) st = Exit r st1.
Proof. intros H. unfold mbind, M_bind. rewrite H. reflexivity. Qed.

Lemma WT_TRET_nonzero ret a : ret <> 0 -> WT_TRET ret a <> 0.
Proof.
  intros Hret. unfold WT_TRET.
  destruct (a =? 0) eqn:Ha; cbn [negb andb]; [exact Hret|].
  destruct (_ || _); [|exact Hret].
  apply Z.eqb_neq. exact Ha.
Qed.

Lemma WT_TRET_EINVAL a : WT_TRET EINVAL a = EINVAL \/ WT_TRET EINVAL a = WT_PANIC.
Proof.
  unfold WT_TRET.
  destruct (a =? 0) eqn:Ha; cbn [negb andb]; [left; reflexivity|].
  destruct (a =? WT_PANIC) eqn:Hp.
  - right. cbn [orb]. apply Z.eqb_eq. exact Hp.
  - left. reflexivity.
Qed.

Lemma commit_err_nonzero ret o r st' :
  ret <> 0 -> commit_err ret o = Returns r st' -> r <> 0.
Proof.
  intros Hret H. destruct o as [r0 st0| |]; cbn in H; inversion H; subst.
  apply WT_TRET_nonzero. exact Hret.
Qed.

(** Commit leaves through its [err] label when its first stage does. *)
Lemma __wt_txn_commit_timestamps_exit E cfg st r st1 :
  commit_timestamps cfg (txn_isset st WT_TXN_PREPARE) st = Exit r st1 ->
  __wt_txn_commit E cfg st = commit_err r (__wt_txn_rollback E st1).
Proof.
  intros H. unfold __wt_txn_commit, commit_body.
  rewrite (bind_Exit _ _ _ _ _ H). reflexivity.
Qed.

Lemma set_commit_timestamp_accepts cfg st ts :
  cfg_commit_timestamp cfg = Some ts ->
  txn_isset st WT_TXN_PREPARE && (ts <? t_prepare_timestamp (st_txn st)) = false ->
  set_commit_timestamp cfg st =
    Next tt (txn_set WT_TXN_HAS_TS_COMMIT (upd_txn (set_t_commit_timestamp ts) st)).
Proof. intros Hc Hb. unfold set_commit_timestamp. rewrite Hc, Hb. reflexivity. Qed.

Lemma set_durable_timestamp_next cfg st :
  exists st1, set_durable_timestamp cfg st = Next tt st1 /\
    t_flags (st_txn st1) =
      match cfg_durable_timestamp cfg with
      | Some _ => F_SET (t_flags (st_txn st)) WT_TXN_HAS_TS_DURABLE
      | None => t_flags (st_txn st)
      end /\
    t_commit_timestamp (st_txn st1) = t_commit_timestamp (st_txn st).
Proof.
  unfold set_durable_timestamp.
  destruct (cfg_durable_timestamp cfg); eexists; split; try reflexivity.
  split; [apply t_flags_set|reflexivity]. auto.
Qed.

Lemma set_prepare_timestamp_next cfg st :
  exists st1, set_prepare_timestamp cfg st = Next tt st1 /\
    t_flags (st_txn st1) =
      match cfg_prepare_timestamp cfg with
      | Some _ => F_SET (t_flags (st_txn st)) WT_TXN_HAS_TS_PREPARE
      | None => t_flags (st_txn st)
      end /\
    t_commit_timestamp (st_txn st1) = t_commit_timestamp (st_txn st).
Proof.
  unfold set_prepare_timestamp.
  destruct (cfg_prepare_timestamp cfg); eexists; split; try reflexivity.
  split; [apply t_flags_set|reflexivity]. auto.
Qed.

(** The timestamps of a configuration whose commit timestamp is accepted
    are all set. *)
Lemma __wt_txn_set_timestamp_accepts cfg st ts :
  cfg_commit_timestamp cfg = Some ts ->
  txn_isset st WT_TXN_PREPARE && (ts <? t_prepare_timestamp (st_txn st)) = false ->
  exists st1, __wt_txn_set_timestamp cfg st = Next tt st1 /\
    txn_isset st1 WT_TXN_HAS_TS_COMMIT = true /\
    t_commit_timestamp (st_txn st1) = ts /\
    (cfg_durable_timestamp cfg <> None ->
     txn_isset st1 WT_TXN_HAS_TS_DURABLE = true).
Proof.
  intros Hc Hb. unfold __wt_txn_set_timestamp.
  rewrite (bind_Next _ _ _ _ _ (set_commit_timestamp_accepts cfg st ts Hc Hb)).
  set (st0 := txn_set _ _).
  destruct (set_durable_timestamp_next cfg st0) as (st1 & H1 & F1 & C1).
  rewrite (bind_Next _ _ _ _ _ H1).
  destruct (set_prepare_timestamp_next cfg st1) as (st2 & H2 & F2 & C2).
  exists st2. split; [exact H2|].
  assert (F0 : F_ISSET (t_flags (st_txn st0)) WT_TXN_HAS_TS_COMMIT = true).
  { subst st0. unfold txn_set, upd_txn, st_txn. cbn [snd].
    apply bool_decide_eq_true_2, elem_of_cons. left. reflexivity. }
  assert (Hmono : forall f, F_ISSET (t_flags (st_txn st1)) f = true ->
                            F_ISSET (t_flags (st_txn st2)) f = true).
  { intros f Hf. rewrite F2. destruct (cfg_prepare_timestamp cfg); [|exact Hf].
    apply bool_decide_eq_true_2, elem_of_cons. right.
    apply bool_decide_eq_true_1 in Hf. exact Hf. }
  split; [|split].
  - apply Hmono. rewrite F1. destruct (cfg_durable_timestamp cfg); [|exact F0].
    apply bool_decide_eq_true_2, elem_of_cons. right.
    apply bool_decide_eq_true_1 in F0. exact F0.
  - rewrite C2, C1. reflexivity.
  - intros Hd. apply Hmono. rewrite F1.
    destruct (cfg_durable_timestamp cfg); [|congruence].
    apply bool_decide_eq_true_2, elem_of_cons. left. reflexivity.
Qed.

(** C9 -- Prepare ordering at commit.  A prepared transaction committed with
    a commit timestamp before its prepare timestamp is rejected: commit goes
    to its [err] label with EINVAL, rolls the transaction back and returns a
    non-zero value.  With a commit timestamp at or after the prepare
    timestamp the timestamps are set and validation is passed: the commit
    timestamp is installed, and once a durable timestamp is given as well the
    whole first stage of commit falls through to the per-key checks. *)
Theorem prepared_commit_timestamp_order (E : WT_EXTERN) (cfg : txn_cfg)
    (st : state) (ts : Z) :
  txn_isset st WT_TXN_PREPARE = true ->
  cfg_commit_timestamp cfg = Some ts ->
  (ts < t_prepare_timestamp (st_txn st) ->
     __wt_txn_commit E cfg st = commit_err EINVAL (__wt_txn_rollback E st) /\
     forall r st', __wt_txn_commit E cfg st = Returns r st' -> r <> 0) /\
  (t_prepare_timestamp (st_txn st) <= ts ->
     (exists st1, __wt_txn_set_timestamp cfg st = Next tt st1 /\
        txn_isset st1 WT_TXN_HAS_TS_COMMIT = true /\
        t_commit_timestamp (st_txn st1) = ts) /\
     (cfg_durable_timestamp cfg <> None ->
      exists st1, commit_timestamps cfg true st = Next tt st1)).
Proof.
  intros Hp Hc. split.
  - intros Hlt.
    assert (Hexit : commit_timestamps cfg (txn_isset st WT_TXN_PREPARE) st
                    = Exit EINVAL st).
    { rewrite Hp. unfold commit_timestamps.
      rewrite (bind_Next _ _ st tt st) by reflexivity.
      apply bind_Exit. unfold __wt_txn_set_timestamp. apply bind_Exit.
      unfold set_commit_timestamp. rewrite Hc, Hp.
      rewrite (proj2 (Z.ltb_lt _ _) Hlt). reflexivity. }
    pose proof (__wt_txn_commit_timestamps_exit E cfg st _ _ Hexit) as Heq.
    split; [exact Heq|].
    intros r st' Hr. rewrite Heq in Hr.
    assert (Hne : EINVAL <> 0) by discriminate.
    apply (commit_err_nonzero _ _ _ _ Hne Hr).
  - intros Hle.
    assert (Hb : txn_isset st WT_TXN_PREPARE &&
                 (ts <? t_prepare_timestamp (st_txn st)) = false).
    { rewrite Hp. cbn [andb]. apply Z.ltb_ge. exact Hle. }
    destruct (__wt_txn_set_timestamp_accepts cfg st ts Hc Hb)
      as (st1 & H1 & Hcommit & Hts & Hdur).
    split; [exists st1; auto|].
    intros Hd. exists st1. unfold commit_timestamps.
    rewrite (bind_Next _ _ st tt st) by reflexivity.
    rewrite (bind_Next _ _ _ _ _ H1).
    unfold commit_check_timestamps. rewrite Hcommit, (Hdur Hd). reflexivity.
Qed.

Lemma prepared_commit_timestamp_order_witness :
  (exists st',
     __wt_txn_commit ex_extern (ex_cfg (Some 50) (Some 130)) ex_prepared_state
     = Returns EINVAL st') /\
  __wt_txn_set_timestamp (ex_cfg (Some 120) (Some 130)) ex_prepared_state
  <> Exit EINVAL ex_prepared_state /\
  exists st',
    __wt_txn_commit ex_extern (ex_cfg (Some 120) (Some 130)) ex_prepared_state
    = Returns 0 st'.
Proof.
  pose proof (prepared_commit_timestamp_order ex_extern
                (ex_cfg (Some 50) (Some 130)) ex_prepared_state 50
                eq_refl eq_refl) as [Hrej _].
  pose proof (prepared_commit_timestamp_order ex_extern
                (ex_cfg (Some 120) (Some 130)) ex_prepared_state 120
                eq_refl eq_refl) as [_ Hacc].
  split; [|split].
  - destruct (Hrej ltac:(vm_compute; reflexivity)) as [Heq _].
    rewrite Heq. vm_compute. eexists. reflexivity.
  - destruct (Hacc ltac:(vm_compute; discriminate)) as [(st1 & H1 & _) _].
    rewrite H1. discriminate.
  - vm_compute. eexists. reflexivity.
Defined.

(** C10 -- Commit-configuration preconditions.  Once the timestamps of the
    configuration are set, commit of a prepared transaction that carries no
    commit timestamp or no durable timestamp, and commit of a transaction
    that is not prepared and carries a prepare timestamp or a durable
    timestamp, goes to its [err] label with EINVAL: the updates are not
    processed, the transaction is rolled back instead, and the value
    returned is EINVAL (or the panic code of a rollback that panicked). *)
Theorem commit_configuration_preconditions (E : WT_EXTERN) (cfg : txn_cfg)
    (st st1 : state) :
  let prepare := txn_isset st WT_TXN_PREPARE in
  __wt_txn_set_timestamp cfg
    (if negb prepare then txn_clr WT_TXN_TS_ROUND_PREPARED st else st)
  = Next tt st1 ->
  (prepare = true /\ txn_isset st1 WT_TXN_HAS_TS_COMMIT = false) \/
  (prepare = true /\ txn_isset st1 WT_TXN_HAS_TS_DURABLE = false) \/
  (prepare = false /\ txn_isset st1 WT_TXN_HAS_TS_PREPARE = true) \/
  (prepare = false /\ txn_isset st1 WT_TXN_HAS_TS_DURABLE = true) ->
  __wt_txn_commit E cfg st = commit_err EINVAL (__wt_txn_rollback E st1) /\
  forall r st', __wt_txn_commit E cfg st = Returns r st' ->
    (r = EINVAL \/ r = WT_PANIC) /\ __wt_txn_rollback E st1 <> Faults /\
    exists r0, __wt_txn_rollback E st1 = Returns r0 st'.
Proof.
  intros prepare Hset Hcase.
  assert (Hexit : commit_timestamps cfg prepare st = Exit EINVAL st1).
  { unfold commit_timestamps.
    rewrite (bind_Next _ _ st tt
               (if negb prepare then txn_clr WT_TXN_TS_ROUND_PREPARED st else st))
      by reflexivity.
    rewrite (bind_Next _ _ _ _ _ Hset).
    unfold commit_check_timestamps, WT_RET_MSG.
    destruct Hcase as [[-> H]|[[-> H]|[[-> H]|[-> H]]]]; rewrite H; cbn;
      try reflexivity.
    - destruct (txn_isset st1 WT_TXN_HAS_TS_COMMIT); reflexivity.
    - destruct (txn_isset st1 WT_TXN_HAS_TS_PREPARE); reflexivity. }
  pose proof (__wt_txn_commit_timestamps_exit E cfg st _ _ Hexit) as Heq.
  split; [exact Heq|].
  intros r st' Hr. rewrite Heq in Hr.
  destruct (__wt_txn_rollback E st1) as [r0 st0| |]; cbn in Hr; inversion Hr.
  subst. split; [apply WT_TRET_EINVAL|]. split; [discriminate|].
  exists r0. reflexivity.
Qed.

Lemma commit_configuration_preconditions_witness :
  (exists st',
     __wt_txn_commit ex_extern (ex_cfg None (Some 130)) ex_prepared_state
     = Returns EINVAL st') /\
  (exists st',
     __wt_txn_commit ex_extern (ex_cfg (Some 120) None) ex_prepared_state
     = Returns EINVAL st') /\
  (exists st',
     __wt_txn_commit ex_extern (mk_cfg None None (Some 110) "")
       (ex_running_state None)
     = Returns EINVAL st') /\
  (exists st',
     __wt_txn_commit ex_extern (ex_cfg (Some 120) (Some 130))
       (ex_running_state None)
     = Returns EINVAL st').
Proof.
  repeat split.
  - edestruct (commit_configuration_preconditions ex_extern
                 (ex_cfg None (Some 130)) ex_prepared_state _ eq_refl)
      as [Heq _];
      [left; split; vm_compute; reflexivity|].
    rewrite Heq. vm_compute. eexists. reflexivity.
  - edestruct (commit_configuration_preconditions ex_extern
                 (ex_cfg (Some 120) None) ex_prepared_state _ eq_refl)
      as [Heq _];
      [right; left; split; vm_compute; reflexivity|].
    rewrite Heq. vm_compute. eexists. reflexivity.
  - edestruct (commit_configuration_preconditions ex_extern
                 (mk_cfg None None (Some 110) "") (ex_running_state None)
                 _ eq_refl)
      as [Heq _];
      [right; right; left; split; vm_compute; reflexivity|].
    rewrite Heq. vm_compute. eexists. reflexivity.
  - edestruct (commit_configuration_preconditions ex_extern
                 (ex_cfg (Some 120) (Some 130)) (ex_running_state None)
                 _ eq_refl)
      as [Heq _];
      [right; right; right; split; vm_compute; reflexivity|].
    rewrite Heq. vm_compute. eexists. reflexivity.
Defined.

(** ** Rollback *)


Lemma aborted_kept_refl updates : aborted_kept updates updates.
Proof. split; [reflexivity|]. intros p u H Ha. exists u. auto. Qed.

Lemma aborted_kept_trans u1 u2 u3 :
  aborted_kept u1 u2 -> aborted_kept u2 u3 -> aborted_kept u1 u3.
Proof.
  intros [L1 H1] [L2 H2]. split; [congruence|].
  intros p u Hp Ha. destruct (H1 p u Hp Ha) as (u' & Hp' & Ha').
  apply (H2 p u' Hp' Ha').
Qed.

Lemma aborted_kept_insert updates p upd :
  updates !! p = Some upd ->
  aborted_kept updates (<[p := set_upd_txnid WT_TXN_ABORTED upd]> updates).
Proof.
  intros Hp. split; [apply length_insert|].
  intros q u Hq Ha. destruct (decide (q = p)) as [->|Hne].
  - exists (set_upd_txnid WT_TXN_ABORTED upd). split; [|reflexivity].
    apply list_lookup_insert_eq. apply lookup_lt_Some in Hp. exact Hp.
  - exists u. split; [|exact Ha].
    rewrite list_lookup_insert_ne by congruence. exact Hq.
Qed.





(** Rollback's loop on a transaction that is not prepared. *)
Lemma rollback_ops_running E txn ops :
  F_ISSET (t_flags txn) WT_TXN_PREPARE = false ->
  forall updates acc,
  Forall (fun op =>
            op_metadata op = false -> is_update_op (op_type op) = true ->
            exists p, op_upd op = Some p /\ (p < length updates)%nat) ops ->
  exists updates',
    rollback_ops E txn ops updates acc =
      OpsDone (map rolled_back_op ops) updates'
        (mk_acc (foldl (rollback_op_status E) (ra_ret acc) ops)
           (ra_resolved_update_count acc) (ra_visited_update_count acc)
           (ra_skip_update_assert acc)) /\
    aborted_kept updates updates' /\
    forall op, op ∈ ops -> op_metadata op = false ->
      is_update_op (op_type op) = true ->
      exists p u, op_upd op = Some p /\ updates' !! p = Some u /\
                  upd_txnid u = WT_TXN_ABORTED.
Proof.
  intros Hprep. induction ops as [|op rest IH]; intros updates acc Hall.
  - exists updates. cbn. destruct acc. split; [reflexivity|].
    split; [apply aborted_kept_refl|]. intros op Hin. inversion Hin.
  - apply Forall_cons in Hall as [Hop Hrest].
    cbn [rollback_ops map foldl]. unfold rolled_back_op at 1.
    unfold rollback_op_status at 2.
    destruct (op_metadata op) eqn:Hmeta.
    { destruct (IH updates acc Hrest) as (updates' & Hrun & Hkept & Hab).
      exists updates'. rewrite Hrun. split; [reflexivity|].
      split; [exact Hkept|].
      intros op' Hin Hm' Hu'. apply elem_of_cons in Hin as [->|Hin];
        [congruence|]. apply (Hab op' Hin Hm' Hu'). }
    specialize (Hop eq_refl).
    assert (Hstep : exists updates1 acc1,
      rollback_op E txn op updates acc = OpNext updates1 acc1 /\
      acc1 = mk_acc (match op_type op with
                     | WT_TXN_OP_REF_DELETE =>
                         WT_TRET (ra_ret acc) (x_delete_page_rollback E op)
                     | _ => ra_ret acc
                     end)
               (ra_resolved_update_count acc) (ra_visited_update_count acc)
               (ra_skip_update_assert acc) /\
      aborted_kept updates updates1 /\
      (is_update_op (op_type op) = true ->
       exists p u, op_upd op = Some p /\ updates1 !! p = Some u /\
                   upd_txnid u = WT_TXN_ABORTED)).
    { unfold rollback_op. rewrite Hprep.
      destruct (op_type op) eqn:Hty; cbn [is_update_op] in *;
        try (exists updates; eexists; split; [reflexivity|];
             split; [destruct acc; reflexivity|];
             split; [apply aborted_kept_refl|discriminate]).
      all: destruct (Hop eq_refl) as (p & Hp & Hlt); rewrite Hp;
        destruct (lookup_lt_is_Some_2 updates p Hlt) as [upd Hupd];
        rewrite Hupd; eexists; eexists; split; [reflexivity|];
        split; [destruct acc; reflexivity|];
        split; [apply (aborted_kept_insert _ _ _ Hupd)|];
        intros _; exists p; eexists; split; [reflexivity|];
        split; [apply list_lookup_insert_eq; exact Hlt|reflexivity]. }
    destruct Hstep as (updates1 & acc1 & Hstep & -> & Hk1 & Hab1).
    rewrite Hstep.
    assert (Hrest' : Forall (fun op =>
              op_metadata op = false -> is_update_op (op_type op) = true ->
              exists p, op_upd op = Some p /\ (p < length updates1)%nat) rest).
    { destruct Hk1 as [Hlen _]. rewrite Hlen. exact Hrest. }
    match goal with
    | |- context [rollback_ops E txn rest updates1 ?a] =>
        destruct (IH updates1 a Hrest') as (updates' & Hrun & Hkept & Hab)
    end.
    exists updates'. rewrite Hrun. cbn [ops_cons ra_ret
      ra_resolved_update_count ra_visited_update_count ra_skip_update_assert].
    split; [reflexivity|].
    split; [apply (aborted_kept_trans _ _ _ Hk1 Hkept)|].
    intros op' Hin Hm' Hu'. apply elem_of_cons in Hin as [->|Hin].
    + destruct (Hab1 Hu') as (p & u & Hp & Hl & Ha).
      destruct Hkept as [_ Hkept].
      destruct (Hkept p u Hl Ha) as (u' & Hl' & Ha').
      exists p, u'. auto.
    + apply (Hab op' Hin Hm' Hu').
Qed.


(** What [__wt_txn_release] leaves of the transaction. *)
Lemma __wt_txn_release_kept st :
  t_mod (st_txn (__wt_txn_release st)) = t_mod (st_txn st) /\
  c_updates (fst (__wt_txn_release st)) = c_updates (fst st).
Proof.
  unfold __wt_txn_release, __wt_txn_release_snapshot. cbv zeta.
  repeat case_match; split; reflexivity.
Qed.








(** ** The global durable timestamp *)

Lemma Sorted_le_cons2 (a b : Z) (l : list Z) :
  a <= b -> Sorted Z.le (b :: l) -> Sorted Z.le (a :: b :: l).
Proof. intros Hab Hs. constructor; [exact Hs|]. constructor. exact Hab. Qed.

Lemma Sorted_le_cons_inv (a b : Z) (l : list Z) :
  Sorted Z.le (a :: b :: l) -> a <= b /\ Sorted Z.le (b :: l).
Proof.
  intros Hs. inversion Hs as [|? ? Hs' Hhd]; subst.
  inversion Hhd; subst. auto.
Qed.

(** The compare-and-swap loop against writers that only move the location
    forward: the values the location holds are in order, the last of them is
    at or above the candidate, and without a writer it is the candidate. *)
Lemma durable_cas_loop_spec writes : forall prev candidate,
  Sorted Z.le (prev :: writes) ->
  Sorted Z.le (prev :: (durable_cas_loop writes prev candidate).1) /\
  (prev < candidate ->
   candidate <= default prev (last (durable_cas_loop writes prev candidate).1)) /\
  (candidate <= prev -> (durable_cas_loop writes prev candidate).1 = []) /\
  (writes = [] -> prev < candidate ->
   durable_cas_loop writes prev candidate = ([candidate], true)).
Proof.
  induction writes as [|w rest IH]; intros prev candidate Hs.
  - cbn [durable_cas_loop]. unfold __wt_atomic_cas64. rewrite Z.eqb_refl.
    destruct (candidate >? prev) eqn:Hgt.
    + apply Z.gtb_lt in Hgt. cbn [fst last default].
      repeat split; try lia; try reflexivity.
      apply Sorted_le_cons2; [lia|]. repeat constructor.
    + rewrite Z.gtb_ltb in Hgt. apply Z.ltb_ge in Hgt. cbn [fst].
      repeat split; try lia; try reflexivity; try discriminate.
      repeat constructor.
  - apply Sorted_le_cons_inv in Hs as [Hpw Hs].
    cbn [durable_cas_loop]. unfold __wt_atomic_cas64.
    destruct (candidate >? prev) eqn:Hgt.
    2:{ rewrite Z.gtb_ltb in Hgt. apply Z.ltb_ge in Hgt. cbn [fst].
        repeat split; try lia; try reflexivity; try discriminate.
        repeat constructor. }
    apply Z.gtb_lt in Hgt.
    destruct (w =? prev) eqn:Hw.
    + apply Z.eqb_eq in Hw. subst w. cbn [fst].
      split; [|split; [|split]]; try lia; try discriminate.
      * apply Sorted_le_cons2; [lia|]. apply Sorted_le_cons2; [lia|].
        repeat constructor.
      * intros _. cbn. lia.
    + destruct (IH w candidate Hs) as (Hsorted & Hlast & Hnil & _).
      destruct (durable_cas_loop rest w candidate) as [history swapped].
      cbn [fst] in *.
      split; [|split; [|split]]; try lia; try discriminate.
      * apply Sorted_le_cons2; [exact Hpw|exact Hsorted].
      * intros _. destruct (Z_lt_le_dec w candidate) as [Hlt|Hge].
        -- specialize (Hlast Hlt). destruct history as [|h history'].
           ++ cbn in Hlast. lia.
           ++ change (last (w :: h :: history')) with (last (h :: history')).
              destruct (last (h :: history')) eqn:Hl; cbn in *; [exact Hlast|].
              apply last_None in Hl. discriminate.
        -- rewrite (Hnil Hge). cbn. lia.
Qed.

Lemma Sorted_le_last (a : Z) (l : list Z) :
  Sorted Z.le (a :: l) -> a <= default a (last l).
Proof.
  intros Hs. apply Sorted_StronglySorted in Hs; [|intros x y z; lia].
  apply StronglySorted_inv in Hs as [_ Hall].
  destruct (last l) as [x|] eqn:Hl; cbn; [|lia].
  rewrite Forall_forall in Hall. apply Hall.
  apply last_Some_elem_of in Hl. exact Hl.
Qed.

Lemma commit_update_durable_spec E candidate st :
  let old := g_durable_timestamp (st_global st) in
  let history := (durable_history E candidate st).1 in
  let new := g_durable_timestamp (st_global (commit_update_durable E candidate st)) in
  0 <= old ->
  Sorted Z.le (old :: x_durable_writes E) ->
  Sorted Z.le (old :: history) /\
  new = default old (last history) /\
  old <= new /\ candidate <= new /\
  (x_durable_writes E = [] -> new = Z.max old candidate).
Proof.
  intros old history new Hold Hs.
  assert (Hnew : new = default old (last history)).
  { subst new history old. unfold commit_update_durable.
    destruct (durable_history E candidate st) as [h sw]. reflexivity. }
  assert (Hhist : Sorted Z.le (old :: history) /\
                  candidate <= default old (last history) /\
                  (x_durable_writes E = [] ->
                   default old (last history) = Z.max old candidate)).
  { subst history. unfold durable_history. fold old.
    destruct (candidate =? WT_TS_NONE) eqn:Hnone; cbn [negb].
    { apply Z.eqb_eq in Hnone. unfold WT_TS_NONE in Hnone. subst candidate.
      cbn. repeat split; try lia. repeat constructor. }
    destruct (candidate >? old) eqn:Hgt.
    - apply Z.gtb_lt in Hgt.
      destruct (durable_cas_loop_spec (x_durable_writes E) old candidate Hs)
        as (Hsorted & Hlast & _ & Hquiet).
      split; [exact Hsorted|]. split; [apply Hlast; exact Hgt|].
      intros Hw. rewrite (Hquiet Hw Hgt). cbn. lia.
    - rewrite Z.gtb_ltb in Hgt. apply Z.ltb_ge in Hgt. cbn.
      repeat split; try lia. repeat constructor. }
  destruct Hhist as (Hsorted & Hcand & Hquiet).
  split; [exact Hsorted|]. split; [exact Hnew|]. rewrite Hnew.
  split; [apply Sorted_le_last; exact Hsorted|]. split; [exact Hcand|exact Hquiet].
Qed.

Lemma durable_kept_refl st : durable_kept st st.
Proof. reflexivity. Qed.

Lemma durable_kept_trans st1 st2 st3 :
  durable_kept st1 st2 -> durable_kept st2 st3 -> durable_kept st1 st3.
Proof. unfold durable_kept. congruence. Qed.

Lemma keeps_durable_bind {A B} (m : M A) (k : A -> M B) :
  keeps_durable m -> (forall a, keeps_durable (k a)) -> keeps_durable (m ≫= k).
Proof.
  intros Hm Hk st. specialize (Hm st). unfold mbind, M_bind.
  destruct (m st) as [a st1|r st1|st1|]; auto.
  specialize (Hk a st1). destruct (k a st1) as [b st2|r st2|st2|]; auto.
  - eapply durable_kept_trans; eassumption.
  - destruct Hk as [Hr Hk]. split; [exact Hr|].
    eapply durable_kept_trans; eassumption.
  - eapply durable_kept_trans; eassumption.
Qed.

Lemma keeps_durable_modify (f : state -> state) :
  (forall st, durable_kept st (f st)) -> keeps_durable (modify f).
Proof. intros Hf st. apply Hf. Qed.

Lemma keeps_durable_WT_RET a : keeps_durable (WT_RET a).
Proof.
  intros st. unfold WT_RET. destruct (a =? 0) eqn:Ha; [reflexivity|].
  split; [apply Z.eqb_neq; exact Ha|reflexivity].
Qed.

Lemma keeps_durable_WT_RET_MSG : keeps_durable (WT_RET_MSG EINVAL).
Proof. intros st. split; [discriminate|reflexivity]. Qed.

Lemma __wt_txn_release_snapshot_durable st :
  durable_kept st (__wt_txn_release_snapshot st).
Proof.
  unfold __wt_txn_release_snapshot, durable_kept. cbv zeta.
  case_match; reflexivity.
Qed.

Lemma __wt_txn_release_durable st : durable_kept st (__wt_txn_release st).
Proof.
  unfold __wt_txn_release, __wt_txn_release_snapshot, durable_kept. cbv zeta.
  repeat case_match; reflexivity.
Qed.

(** Case analysis on the tests of a statement, innermost first. *)
Ltac destruct_innermost :=
  match goal with
  | |- context [match ?x with _ => _ end] =>
      lazymatch x with
      | context [match _ with _ => _ end] => fail
      | _ => destruct x eqn:?
      end
  end.

Ltac keeps_durable_cases :=
  unfold keeps_durable, durable_kept; intros ?; cbv beta iota zeta;
  repeat (destruct_innermost; cbv beta iota zeta);
  first [reflexivity | exact I | split; [discriminate|reflexivity]].

Lemma __wt_txn_set_timestamp_durable cfg :
  keeps_durable (__wt_txn_set_timestamp cfg).
Proof.
  unfold __wt_txn_set_timestamp.
  apply keeps_durable_bind; [|intros _; apply keeps_durable_bind; [|intros _]].
  - unfold set_commit_timestamp. keeps_durable_cases.
  - unfold set_durable_timestamp. keeps_durable_cases.
  - unfold set_prepare_timestamp. keeps_durable_cases.
Qed.

Lemma commit_timestamps_durable cfg prepare :
  keeps_durable (commit_timestamps cfg prepare).
Proof.
  unfold commit_timestamps.
  apply keeps_durable_bind; [|intros _; apply keeps_durable_bind; [|intros _]].
  - apply keeps_durable_modify. intros st. destruct (negb prepare); reflexivity.
  - apply __wt_txn_set_timestamp_durable.
  - unfold commit_check_timestamps, WT_RET_MSG. keeps_durable_cases.
Qed.

Lemma __txn_commit_timestamps_assert_durable E :
  keeps_durable (__txn_commit_timestamps_assert E).
Proof.
  intros st. unfold __txn_commit_timestamps_assert. cbv zeta.
  repeat match goal with
         | |- context [if ?c then _ else _] => destruct c
         end;
    try (split; [discriminate|reflexivity]); try reflexivity.
  destruct (commit_timestamps_assert_ops _ _ _ _);
    [apply keeps_durable_WT_RET|exact I].
Qed.

Lemma commit_prepare_to_resolve_durable E cfg prepare :
  keeps_durable (commit_prepare_to_resolve E cfg prepare).
Proof.
  unfold commit_prepare_to_resolve.
  apply keeps_durable_bind; [|intros _; apply keeps_durable_bind;
    [|intros _; apply keeps_durable_bind;
      [|intros _; apply keeps_durable_bind; [|intros _]]]].
  - apply __txn_commit_timestamps_assert_durable.
  - unfold commit_sync. keeps_durable_cases.
  - intros st. unfold commit_notify.
    destruct (t_notify (st_txn st)); [apply keeps_durable_WT_RET|reflexivity].
  - intros st. unfold commit_copy_values.
    destruct (_ && _); [apply keeps_durable_WT_RET|reflexivity].
  - intros st. unfold commit_log.
    destruct (_ && _); [|reflexivity].
    pose proof (keeps_durable_WT_RET (x_log_commit E)
                  (__wt_txn_release_snapshot st)) as H.
    pose proof (__wt_txn_release_snapshot_durable st) as Hs.
    destruct (WT_RET _ _) as [a st1|r st1|st1|]; auto.
    + eapply durable_kept_trans; eassumption.
    + destruct H as [Hr H]. split; [exact Hr|].
      eapply durable_kept_trans; eassumption.
    + eapply durable_kept_trans; eassumption.
Qed.

(** An error that leaves the loop of commit is not 0. *)
Lemma commit_ops_exit E txn prepare las ops : forall updates acc r ops' updates',
  commit_ops E txn prepare las ops updates acc = OpsExit r ops' updates' ->
  r <> 0.
Proof.
  induction ops as [|op rest IH]; intros updates acc r ops' updates' H;
    [discriminate|].
  cbn [commit_ops] in H.
  destruct (commit_op E txn prepare las op updates acc)
    as [u1 acc1|r1 u1|] eqn:Hop; try discriminate.
  - destruct (commit_ops E txn prepare las rest u1 acc1)
      as [o2 u2 a2|r2 o2 u2|] eqn:Hrest; try discriminate.
    cbn in H. inversion H; subst. apply (IH _ _ _ _ _ Hrest).
  - inversion H; subst. unfold commit_op in Hop.
    destruct (op_type op); try discriminate.
    all: destruct (negb prepare);
      [ destruct (op_upd op) as [p|]; [|discriminate];
        destruct (updates !! p) as [upd|]; [|discriminate];
        destruct (is_reserve (upd_type upd)); [discriminate|];
        destruct (_ && _); discriminate
      | destruct (resolve_prepared E txn true op updates acc)
          as [[r2 u2] acc2];
        destruct (r2 =? 0) eqn:Hr; [discriminate|];
        inversion Hop; subst; apply Z.eqb_neq; exact Hr ].
Qed.

Lemma commit_resolve_durable E prepare : keeps_durable (commit_resolve E prepare).
Proof.
  unfold commit_resolve. apply keeps_durable_bind.
  - intros st. unfold commit_process_updates.
    destruct (commit_ops _ _ _ _ _ _ _) as [ops updates acc|r ops updates|]
      eqn:Hops; [reflexivity| |exact I].
    split; [apply (commit_ops_exit _ _ _ _ _ _ _ _ _ _ Hops)|reflexivity].
  - intros acc st. unfold WT_RET_ASSERT, WT_RET_MSG.
    destruct (_ || _); [reflexivity|]. split; [discriminate|reflexivity].
Qed.

Lemma __wt_txn_rollback_durable E st :
  match __wt_txn_rollback E st with
  | Returns _ st' => durable_kept st st'
  | Aborts st' => durable_kept st st'
  | Faults => True
  end.
Proof.
  unfold __wt_txn_rollback. cbv zeta.
  destruct (rollback_ops _ _ _ _ _) as [ops updates acc|r ops updates|];
    [|reflexivity|exact I].
  unfold WT_RET_ASSERT, WT_RET_MSG. destruct (_ || _); [|reflexivity].
  eapply durable_kept_trans; [|apply __wt_txn_release_durable]. reflexivity.
Qed.

(** *** The candidate *)

Lemma keeps_candidate_bind {A B} (m : M A) (k : A -> M B) :
  keeps_candidate m -> (forall a, keeps_candidate (k a)) ->
  keeps_candidate (m ≫= k).
Proof.
  intros Hm Hk st. specialize (Hm st). unfold mbind, M_bind.
  destruct (m st) as [a st1|r st1|st1|]; auto.
  specialize (Hk a st1). destruct (k a st1) as [b st2|r st2|st2|]; auto.
  unfold candidate_kept in *. congruence.
Qed.

Lemma keeps_candidate_WT_RET a : keeps_candidate (WT_RET a).
Proof. intros st. unfold WT_RET. destruct (a =? 0); [reflexivity|exact I]. Qed.

Lemma __wt_txn_release_snapshot_candidate st :
  candidate_kept st (__wt_txn_release_snapshot st).
Proof.
  assert (H : st_txn (__wt_txn_release_snapshot st) =
              set_t_flags (F_CLR (t_flags (st_txn st)) WT_TXN_HAS_SNAPSHOT)
                (st_txn st)).
  { unfold __wt_txn_release_snapshot. cbv zeta. case_match; reflexivity. }
  unfold candidate_kept. rewrite H. unfold candidate_durable_timestamp.
  change (t_flags (set_t_flags ?f ?t)) with f.
  rewrite !F_ISSET_F_CLR.
  rewrite !bool_decide_eq_false_2 by discriminate. reflexivity.
Qed.

Ltac keeps_candidate_cases :=
  unfold keeps_candidate, candidate_kept; intros ?; cbv beta iota zeta;
  repeat (destruct_innermost; cbv beta iota zeta);
  first [reflexivity | exact I].

Lemma commit_prepare_to_resolve_candidate E cfg prepare :
  keeps_candidate (commit_prepare_to_resolve E cfg prepare).
Proof.
  unfold commit_prepare_to_resolve.
  apply keeps_candidate_bind; [|intros _; apply keeps_candidate_bind;
    [|intros _; apply keeps_candidate_bind;
      [|intros _; apply keeps_candidate_bind; [|intros _]]]].
  - unfold __txn_commit_timestamps_assert, WT_RET. cbv zeta.
    keeps_candidate_cases.
  - unfold commit_sync. keeps_candidate_cases.
  - unfold commit_notify, WT_RET. keeps_candidate_cases.
  - unfold commit_copy_values, WT_RET. keeps_candidate_cases.
  - intros st. unfold commit_log, WT_RET.
    pose proof (__wt_txn_release_snapshot_candidate st) as H.
    repeat (destruct_innermost; cbv beta iota);
      first [exact H | reflexivity | exact I].
Qed.

Lemma commit_resolve_candidate E prepare :
  keeps_candidate (commit_resolve E prepare).
Proof.
  unfold commit_resolve. apply keeps_candidate_bind.
  - unfold commit_process_updates. keeps_candidate_cases.
  - intros acc. unfold WT_RET_ASSERT, WT_RET_MSG. keeps_candidate_cases.
Qed.

(** *** The last stage of commit *)

Lemma commit_finish_split E readonly st :
  exists st3, durable_kept st st3 /\
    commit_finish E readonly st =
      commit_update_durable E (candidate_durable_timestamp (st_txn st)) st3.
Proof.
  unfold commit_finish. cbv zeta.
  eexists. split; [|reflexivity].
  eapply durable_kept_trans; [apply (__wt_txn_release_durable
                                       (upd_txn (set_t_mod []) st))|].
  destruct (negb readonly); reflexivity.
Qed.

Lemma durable_history_kept E candidate st st' :
  durable_kept st st' ->
  durable_history E candidate st' = durable_history E candidate st.
Proof. unfold durable_kept, durable_history. intros ->. reflexivity. Qed.

(** The durable timestamp the last stage of commit leaves, from the one it
    finds and the candidate of the transaction. *)
Lemma commit_finish_spec E readonly st :
  let old := g_durable_timestamp (st_global st) in
  let candidate := candidate_durable_timestamp (st_txn st) in
  let history := (durable_history E candidate st).1 in
  let new := g_durable_timestamp (st_global (commit_finish E readonly st)) in
  0 <= old ->
  Sorted Z.le (old :: x_durable_writes E) ->
  Sorted Z.le (old :: history) /\
  new = default old (last history) /\
  old <= new /\ candidate <= new /\
  (x_durable_writes E = [] -> new = Z.max old candidate).
Proof.
  intros old candidate history new Hold Hs. subst new history.
  destruct (commit_finish_split E readonly st) as (st3 & Hk & ->).
  rewrite <- (durable_history_kept E candidate st st3 Hk).
  unfold durable_kept in Hk. fold old in Hk.
  pose proof (commit_update_durable_spec E candidate st3) as H.
  cbv zeta in H. rewrite Hk in H.
  apply (H Hold Hs).
Qed.

(** A commit that returns 0 went through its four stages. *)
Lemma commit_body_stages E cfg st :
  let prepare := txn_isset st WT_TXN_PREPARE in
  let readonly := Nat.eqb (length (t_mod (st_txn st))) 0 in
  match commit_body E cfg st with
  | Next _ st' =>
      exists st1 st3,
        commit_timestamps cfg prepare st = Next tt st1 /\
        durable_kept st st3 /\ candidate_kept st1 st3 /\
        st' = commit_finish E readonly st3
  | Exit r st' => r <> 0 /\ durable_kept st st'
  | Abort st' => durable_kept st st'
  | Fault => True
  end.
Proof.
  intros prepare readonly. unfold commit_body. cbv zeta.
  fold prepare. fold readonly.
  pose proof (commit_timestamps_durable cfg prepare st) as K1.
  unfold mbind at 1, M_bind at 1.
  destruct (commit_timestamps cfg prepare st) as [[] st1|r st1|st1|];
    [|exact K1|exact K1|exact I].
  pose proof (commit_prepare_to_resolve_durable E cfg prepare st1) as K2.
  pose proof (commit_prepare_to_resolve_candidate E cfg prepare st1) as C2.
  unfold mbind at 1, M_bind at 1.
  destruct (commit_prepare_to_resolve E cfg prepare st1) as [[] st2|r st2|st2|];
    [| |apply (durable_kept_trans _ _ _ K1 K2)|exact I].
  2:{ destruct K2 as [Hr K2]. split; [exact Hr|].
      apply (durable_kept_trans _ _ _ K1 K2). }
  pose proof (commit_resolve_durable E prepare st2) as K3.
  pose proof (commit_resolve_candidate E prepare st2) as C3.
  pose proof (durable_kept_trans _ _ _ K1 K2) as K12.
  unfold mbind at 1, M_bind at 1.
  destruct (commit_resolve E prepare st2) as [[] st3|r st3|st3|];
    [| |apply (durable_kept_trans _ _ _ K12 K3)|exact I].
  2:{ destruct K3 as [Hr K3]. split; [exact Hr|].
      apply (durable_kept_trans _ _ _ K12 K3). }
  cbn. exists st1, st3. split; [reflexivity|].
  split; [apply (durable_kept_trans _ _ _ K12 K3)|].
  split; [|reflexivity]. unfold candidate_kept in *. congruence.
Qed.

(** The candidate of a commit whose configuration gives a durable
    timestamp is that timestamp; with a commit timestamp only, and no
    durable timestamp set before, it is the commit timestamp. *)
Lemma commit_timestamps_candidate cfg prepare st st1 :
  commit_timestamps cfg prepare st = Next tt st1 ->
  (forall d, cfg_durable_timestamp cfg = Some d ->
     candidate_durable_timestamp (st_txn st1) = d) /\
  (forall c, cfg_durable_timestamp cfg = None ->
     cfg_commit_timestamp cfg = Some c ->
     txn_isset st WT_TXN_HAS_TS_DURABLE = false ->
     candidate_durable_timestamp (st_txn st1) = c).
Proof.
  unfold commit_timestamps, __wt_txn_set_timestamp. intros H.
  unfold mbind at 1, M_bind at 1, modify in H.
  set (st0 := if negb prepare then txn_clr WT_TXN_TS_ROUND_PREPARED st else st)
    in H.
  assert (H0 : txn_isset st0 WT_TXN_HAS_TS_DURABLE =
               txn_isset st WT_TXN_HAS_TS_DURABLE).
  { subst st0. destruct (negb prepare); [|reflexivity].
    unfold txn_isset, txn_clr, upd_txn, st_txn. cbn [snd].
    destruct (snd st) as [? t ? ? ? ? ?]. cbn. rewrite F_ISSET_F_CLR.
    rewrite bool_decide_eq_false_2 by discriminate. reflexivity. }
  clearbody st0.
  unfold mbind at 1, M_bind at 1 in H.
  unfold mbind at 1, M_bind at 1 in H.
  unfold set_commit_timestamp at 1 in H.
  unfold mbind at 1, M_bind at 1 in H.
  unfold set_durable_timestamp, set_prepare_timestamp, commit_check_timestamps,
    WT_RET_MSG in H.
  unfold candidate_durable_timestamp.
  split.
  - intros d Hd. rewrite Hd in H.
    destruct (cfg_commit_timestamp cfg) as [c|];
      [destruct (_ && _); [discriminate|]|];
      destruct (cfg_prepare_timestamp cfg) as [p|];
      repeat match type of H with
             | (if ?b then _ else _) = _ => destruct b; try discriminate
             end;
      inversion H; subst st1;
      unfold txn_set, upd_txn, st_txn; cbn [snd fst];
      destruct (snd st0) as [? t ? ? ? ? ?]; cbn;
      rewrite ?F_ISSET_F_SET;
      rewrite ?(bool_decide_eq_true_2 (WT_TXN_HAS_TS_DURABLE = WT_TXN_HAS_TS_DURABLE))
        by reflexivity;
      rewrite ?orb_true_r; cbn; reflexivity.
  - intros c Hd Hc Hnd. rewrite Hd, Hc in H. rewrite <- H0 in Hnd.
    destruct (_ && _); [discriminate|];
      destruct (cfg_prepare_timestamp cfg) as [p|];
      repeat match type of H with
             | (if ?b then _ else _) = _ => destruct b; try discriminate
             end;
      inversion H; subst st1;
      unfold txn_isset, txn_set, upd_txn, st_txn in *; cbn [snd fst] in *;
      destruct (snd st0) as [? t ? ? ? ? ?]; cbn in *;
      rewrite ?F_ISSET_F_SET;
      rewrite ?(bool_decide_eq_false_2 (WT_TXN_HAS_TS_DURABLE = WT_TXN_HAS_TS_PREPARE))
        by discriminate;
      rewrite ?(bool_decide_eq_false_2 (WT_TXN_HAS_TS_DURABLE = WT_TXN_HAS_TS_COMMIT))
        by discriminate;
      rewrite ?(bool_decide_eq_false_2 (WT_TXN_HAS_TS_COMMIT = WT_TXN_HAS_TS_PREPARE))
        by discriminate;
      rewrite ?(bool_decide_eq_true_2 (WT_TXN_HAS_TS_COMMIT = WT_TXN_HAS_TS_COMMIT))
        by reflexivity;
      cbn [orb]; rewrite ?Hnd; cbn; reflexivity.
Qed.

(** C5 -- Durable-timestamp monotonicity.  The other committers only move
    the global durable timestamp forward.  A call of commit that returns 0
    leaves it at the last of the values the compare-and-swap loop saw the
    location hold, values that are in ascending order from the one found on
    entry; that value is at or above the previous one and at or above the
    candidate of the committing transaction, and it is exactly the larger of
    the two when no other committer interferes.  The candidate is the
    durable timestamp of the configuration, or its commit timestamp when
    the transaction has no durable timestamp.  A call of commit that returns
    an error leaves the global durable timestamp as it was. *)
Theorem durable_timestamp_monotone (E : WT_EXTERN) (cfg : txn_cfg)
    (st : state) (r : Z) (st' : state) :
  let old := g_durable_timestamp (st_global st) in
  let candidate := commit_candidate cfg st in
  let history := (durable_history E candidate st).1 in
  let new := g_durable_timestamp (st_global st') in
  0 <= old ->
  Sorted Z.le (old :: x_durable_writes E) ->
  __wt_txn_commit E cfg st = Returns r st' ->
  (r = 0 ->
   Sorted Z.le (old :: history) /\
   new = default old (last history) /\
   old <= new /\ candidate <= new /\
   (x_durable_writes E = [] -> new = Z.max old candidate) /\
   (forall d, cfg_durable_timestamp cfg = Some d -> candidate = d) /\
   (forall c, cfg_durable_timestamp cfg = None ->
      cfg_commit_timestamp cfg = Some c ->
      txn_isset st WT_TXN_HAS_TS_DURABLE = false -> candidate = c)) /\
  (r <> 0 -> new = old).
Proof.
  intros old candidate history new Hold Hs Hc.
  unfold __wt_txn_commit in Hc.
  pose proof (commit_body_stages E cfg st) as Hb. cbv zeta in Hb.
  destruct (commit_body E cfg st) as [[] st0|r0 st0|st0|]; try discriminate.
  - inversion Hc; subst r st0.
    split; [intros _|intros H; contradiction H; reflexivity].
    destruct Hb as (st1 & st3 & H1 & Hk & Hcand & ->).
    assert (Hc1 : candidate = candidate_durable_timestamp (st_txn st1)).
    { subst candidate. unfold commit_candidate. rewrite H1. reflexivity. }
    assert (Hcandidate : candidate = candidate_durable_timestamp (st_txn st3)).
    { rewrite Hc1. symmetry. exact Hcand. }
    pose proof (commit_finish_spec E (Nat.eqb (length (t_mod (st_txn st))) 0) st3)
      as H.
    cbv zeta in H. rewrite <- Hcandidate in H.
    rewrite (durable_history_kept E candidate st st3 Hk) in H.
    unfold durable_kept in Hk. rewrite Hk in H.
    destruct (H Hold Hs) as (A1 & A2 & A3 & A4 & A5).
    destruct (commit_timestamps_candidate _ _ _ _ H1) as [B1 B2].
    rewrite <- Hc1 in B1, B2.
    repeat split; assumption.
  - destruct Hb as [Hr0 Hk].
    pose proof (__wt_txn_rollback_durable E st0) as Hroll.
    destruct (__wt_txn_rollback E st0) as [r1 st1|st1|]; cbn [commit_err] in Hc;
      try discriminate.
    inversion Hc; subst r st1. split.
    + intros H0. exfalso. apply (WT_TRET_nonzero r0 r1 Hr0). exact H0.
    + intros _. subst new old. unfold durable_kept in *. congruence.
Qed.

Lemma durable_timestamp_monotone_witness :
  (exists st',
     __wt_txn_commit ex_extern (ex_cfg (Some 120) (Some 130)) ex_prepared_state
     = Returns 0 st' /\
     g_durable_timestamp (st_global st') = Z.max 90 130) /\
  (exists st',
     __wt_txn_commit ex_extern_durable_writes (ex_cfg (Some 120) (Some 130))
       ex_prepared_state = Returns 0 st' /\
     Sorted Z.le [90; 95; 140] /\
     g_durable_timestamp (st_global st') = 140) /\
  (exists r st',
     __wt_txn_commit ex_extern (ex_cfg (Some 50) (Some 130)) ex_prepared_state
     = Returns r st' /\ r <> 0 /\
     g_durable_timestamp (st_global st') = 90).
Proof.
  assert (H0 : 0 <= g_durable_timestamp (st_global ex_prepared_state))
    by (vm_compute; discriminate).
  assert (Hquiet : Sorted Z.le (g_durable_timestamp (st_global ex_prepared_state)
                                :: x_durable_writes ex_extern))
    by (repeat constructor).
  assert (Hbusy : Sorted Z.le (g_durable_timestamp (st_global ex_prepared_state)
                               :: x_durable_writes ex_extern_durable_writes)).
  { repeat constructor; vm_compute; discriminate. }
  split; [|split].
  - eexists.
    assert (Hc : __wt_txn_commit ex_extern (ex_cfg (Some 120) (Some 130))
                   ex_prepared_state = Returns 0 _)
      by (vm_compute; reflexivity).
    split; [exact Hc|].
    destruct (durable_timestamp_monotone _ _ _ _ _ H0 Hquiet Hc) as [H _].
    destruct (H eq_refl) as (_ & _ & _ & _ & Hmax & _).
    apply (Hmax eq_refl).
  - eexists.
    assert (Hc : __wt_txn_commit ex_extern_durable_writes
                   (ex_cfg (Some 120) (Some 130)) ex_prepared_state
                 = Returns 0 _)
      by (vm_compute; reflexivity).
    split; [exact Hc|].
    destruct (durable_timestamp_monotone _ _ _ _ _ H0 Hbusy Hc) as [H _].
    destruct (H eq_refl) as (Hsorted & Hnew & _).
    split; [exact Hsorted|exact Hnew].
  - eexists _, _.
    assert (Hc : __wt_txn_commit ex_extern (ex_cfg (Some 50) (Some 130))
                   ex_prepared_state = Returns EINVAL _)
      by (vm_compute; reflexivity).
    split; [exact Hc|].
    destruct (durable_timestamp_monotone _ _ _ _ _ H0 Hquiet Hc) as [_ H].
    split; [discriminate|]. apply H. discriminate.
Defined.

(** ** The resolved and visited counts *)





(** The commit of the example prepared transaction: the global durable
    timestamp goes from 90 to the candidate 130, and to 140 when two other
    commits get there first. *)
Example ex_commit_durable :
  commit_candidate (ex_cfg (Some 120) (Some 130)) ex_prepared_state = 130 /\
  durable_cas_loop [95; 140] 90 130 = ([95; 140], false).
Proof. split; vm_compute; reflexivity. Qed.

(** * Further properties of txn.c *)

(** ** What the oldest-id scan guarantees *)

Lemma oldest_scan_walk_bounds states : forall i prev acc acc',
  oldest_scan_walk i states prev acc = Some acc' ->
  sc_oldest_id acc' <= sc_oldest_id acc /\
  sc_last_running acc' <= sc_last_running acc /\
  sc_metadata_pinned acc' <= sc_metadata_pinned acc /\
  forall s, s ∈ states ->
    (s_pinned_id s <> WT_TXN_NONE -> sc_oldest_id acc' <= s_pinned_id s) /\
    (s_id s <> WT_TXN_NONE -> prev <= s_id s ->
     sc_last_running acc' <= s_id s) /\
    (s_metadata_pinned s <> WT_TXN_NONE ->
     sc_metadata_pinned acc' <= s_metadata_pinned s).
Proof.
  induction states as [|s rest IH]; intros i prev acc acc' H; cbn in H.
  - inversion H; subst. repeat split; try lia.
    all: intros; exfalso; eapply not_elem_of_nil; eassumption.
  - destruct (oldest_scan_visit s prev (sc_last_running acc)) as [lr|] eqn:Hv;
      [|discriminate].
    cbn [mbind option_bind] in H.
    assert (Hlr : lr <= sc_last_running acc /\
                  (s_id s <> WT_TXN_NONE -> prev <= s_id s -> lr <= s_id s)).
    { unfold oldest_scan_visit in Hv.
      destruct (s_is_allocating s); id_cmp; cbn in Hv; inversion Hv; lia. }
    destruct Hlr as [Hlr1 Hlr2].
    match type of H with
    | (let '(_, _) := ?p in _) = _ => destruct p as [oid os] eqn:Hp
    end.
    assert (Hoid : oid <= sc_oldest_id acc /\
                   (s_pinned_id s <> WT_TXN_NONE -> oid <= s_pinned_id s)).
    { id_cmp; cbn in Hp; inversion Hp; lia. }
    destruct Hoid as [Ho1 Ho2].
    apply IH in H. cbn [sc_oldest_id sc_last_running sc_metadata_pinned] in H.
    destruct H as (H1 & H2 & H3 & Hall).
    assert (Hmd : forall m,
      m = (if negb (s_metadata_pinned s =? WT_TXN_NONE) &&
              WT_TXNID_LT (s_metadata_pinned s) (sc_metadata_pinned acc)
           then s_metadata_pinned s else sc_metadata_pinned acc) ->
      m <= sc_metadata_pinned acc /\
      (s_metadata_pinned s <> WT_TXN_NONE -> m <= s_metadata_pinned s)).
    { intros m ->. id_cmp; cbn; lia. }
    destruct (Hmd _ eq_refl) as [Hm1 Hm2].
    split; [lia|]. split; [lia|]. split; [lia|].
    intros s' Hin. apply elem_of_cons in Hin as [->|Hin].
    + split; [intros Hne; specialize (Ho2 Hne); lia|].
      split; [intros Hne Hge; specialize (Hlr2 Hne Hge); lia|].
      intros Hne; specialize (Hm2 Hne); lia.
    + apply (Hall s' Hin).
Qed.

(** X1 -- What [__txn_oldest_scan] never does: the oldest id it hands back
    is above no id pinned in a slot, above no id published in a slot at or
    after the previous oldest id, and above no named snapshot; the last
    running id is above no such published id; the metadata pinned id is above
    no metadata id pinned in a slot and not above the id of a running
    checkpoint. *)
Theorem oldest_scan_lower_bound (g : WT_TXN_GLOBAL) (sc : oldest_scan) :
  __txn_oldest_scan g = Some sc ->
  (forall s, s ∈ g_states g ->
     (s_pinned_id s <> WT_TXN_NONE -> sc_oldest_id sc <= s_pinned_id s) /\
     (s_id s <> WT_TXN_NONE -> g_oldest_id g <= s_id s ->
      sc_last_running sc <= s_id s /\ sc_oldest_id sc <= s_id s) /\
     (s_metadata_pinned s <> WT_TXN_NONE ->
      sc_metadata_pinned sc <= s_metadata_pinned s)) /\
  (g_nsnap_oldest_id g <> WT_TXN_NONE -> sc_oldest_id sc <= g_nsnap_oldest_id g) /\
  (s_id (g_checkpoint_state g) <> WT_TXN_NONE ->
   sc_metadata_pinned sc <= s_id (g_checkpoint_state g)).
Proof.
  unfold __txn_oldest_scan. intros H.
  destruct (oldest_scan_walk 0 (g_states g) (g_oldest_id g) _) as [acc|] eqn:Hw;
    [|discriminate].
  apply oldest_scan_walk_bounds in Hw.
  cbn [sc_oldest_id sc_last_running sc_metadata_pinned] in Hw.
  destruct Hw as (H1 & H2 & H3 & Hall).
  cbn in H. inversion H; subst sc; clear H.
  cbn [sc_oldest_id sc_last_running sc_metadata_pinned].
  split; [|split].
  - intros s Hin. destruct (Hall s Hin) as (A1 & A2 & A3).
    split; [|split].
    + intros Hne. specialize (A1 Hne). id_cmp; cbn in *; lia.
    + intros Hne Hge. specialize (A2 Hne Hge). id_cmp; cbn in *; lia.
    + intros Hne. specialize (A3 Hne). id_cmp; cbn in *; lia.
  - intros Hne. id_cmp; cbn in *; lia.
  - intros Hne. revert H3. id_cmp; cbn in *; lia.
Qed.

Lemma oldest_scan_lower_bound_witness :
  exists sc,
    __txn_oldest_scan (st_global ex_busy_table_state) = Some sc /\
    sc_oldest_id sc <= 3 /\ sc_last_running sc <= 5.
Proof.
  destruct (__txn_oldest_scan (st_global ex_busy_table_state)) as [sc|] eqn:Hsc;
    [|vm_compute in Hsc; discriminate].
  exists sc. split; [reflexivity|].
  destruct (oldest_scan_lower_bound _ sc Hsc) as (Hall & _ & _).
  destruct (Hall (mk_state 5 3 0 false)) as (A1 & A2 & _).
  { apply elem_of_cons. right. apply elem_of_cons. left. reflexivity. }
  split; [apply A1; discriminate|].
  apply A2; [discriminate|vm_compute; discriminate].
Defined.

(** ** [__wt_txn_update_oldest]: idle tables and failing calls *)

Lemma oldest_scan_walk_idle states : forall i prev acc,
  (forall s, s ∈ states ->
     s_id s = WT_TXN_NONE /\ s_pinned_id s = WT_TXN_NONE /\
     s_metadata_pinned s = WT_TXN_NONE) ->
  oldest_scan_walk i states prev acc = Some acc.
Proof.
  induction states as [|s rest IH]; intros i prev acc Hall; [reflexivity|].
  destruct (Hall s) as (H1 & H2 & H3); [apply elem_of_cons; left; reflexivity|].
  cbn [oldest_scan_walk]. unfold oldest_scan_visit.
  rewrite H1, H2, H3. cbn [WT_TXN_NONE Z.eqb negb andb mbind option_bind].
  destruct acc as [o l m os]. cbn [sc_oldest_id sc_last_running
    sc_metadata_pinned sc_oldest_session].
  apply IH. intros s' Hin. apply Hall. apply elem_of_cons. right. exact Hin.
Qed.

Lemma __txn_oldest_scan_idle g :
  idle_table g ->
  __txn_oldest_scan g =
    Some (mk_scan (g_current g) (g_current g) (g_current g) None).
Proof.
  intros (Hck & Hns & Hall). unfold __txn_oldest_scan.
  rewrite (oldest_scan_walk_idle _ _ _ _ Hall). rewrite Hck, Hns.
  cbn. unfold WT_TXNID_LT. rewrite !Z.ltb_irrefl. reflexivity.
Qed.

(** X2 -- An idle table catches up.  On a table where no slot publishes
    anything, no checkpoint runs and no named snapshot is held, a strict call
    of [__wt_txn_update_oldest] (blocking, or with both locks free) returns 0
    and leaves the three published ids equal to [current]; nothing else of
    the table or of the session changes. *)
Theorem update_oldest_idle_catches_up (E : WT_EXTERN) (wait : bool) (st : state) :
  idle_table (st_global st) ->
  ids_ordered (st_global st) ->
  x_update_pinned_timestamp E = 0 ->
  (wait = false -> x_try_readlock E = 0 /\ x_try_writelock E = 0) ->
  exists st',
    __wt_txn_update_oldest E true wait st = Some (0, st') /\
    g_oldest_id (st_global st') = g_current (st_global st) /\
    g_last_running (st_global st') = g_current (st_global st) /\
    g_metadata_pinned (st_global st') = g_current (st_global st) /\
    g_current (st_global st') = g_current (st_global st) /\
    g_states (st_global st') = g_states (st_global st) /\
    snd st' = snd st.
Proof.
  intros Hidle (O1 & O2 & O3) Hpin Hlocks.
  unfold __wt_txn_update_oldest. cbv zeta.
  rewrite Hpin, (__txn_oldest_scan_idle _ Hidle).
  cbn [andb negb orb Z.eqb mbind option_bind sc_oldest_id sc_last_running
       sc_metadata_pinned].
  assert (Hr : negb wait && negb (x_try_readlock E =? 0) = false).
  { destruct wait; [reflexivity|]. destruct (Hlocks eq_refl) as [-> _].
    reflexivity. }
  assert (Hw : negb wait && negb (x_try_writelock E =? 0) = false).
  { destruct wait; [reflexivity|]. destruct (Hlocks eq_refl) as [_ ->].
    reflexivity. }
  rewrite Hr, Hw. rewrite !orb_false_r.
  destruct ((g_oldest_id (st_global st) =? g_current (st_global st)) &&
            (g_metadata_pinned (st_global st) =? g_current (st_global st)))
    eqn:Hfast.
  { apply andb_true_iff in Hfast as [A B].
    apply Z.eqb_eq in A. apply Z.eqb_eq in B.
    exists st. repeat split; auto; lia. }
  destruct ((g_current (st_global st) =? g_oldest_id (st_global st)) &&
            (g_current (st_global st) =? g_last_running (st_global st)) &&
            (g_current (st_global st) =? g_metadata_pinned (st_global st)))
    eqn:Hsame.
  { apply andb_true_iff in Hsame as [Hsame C].
    apply andb_true_iff in Hsame as [A B].
    apply Z.eqb_eq in A. apply Z.eqb_eq in B. apply Z.eqb_eq in C.
    exists st. repeat split; auto; lia. }
  destruct (WT_TXNID_LE (g_current (st_global st)) (g_oldest_id (st_global st)) &&
            WT_TXNID_LE (g_current (st_global st)) (g_last_running (st_global st)) &&
            WT_TXNID_LE (g_current (st_global st)) (g_metadata_pinned (st_global st)))
    eqn:Hdone.
  { unfold WT_TXNID_LE in Hdone.
    apply andb_true_iff in Hdone as [Hdone C].
    apply andb_true_iff in Hdone as [A B].
    apply Z.leb_le in A. apply Z.leb_le in B. apply Z.leb_le in C.
    exists st. repeat split; auto; lia. }
  eexists. split; [reflexivity|].
  unfold st_global, upd_global.
  cbn [fst snd c_txn_global set_c_txn_global set_g_ids g_oldest_id
       g_last_running g_metadata_pinned g_current g_states].
  fold (st_global st). unfold WT_TXNID_LT.
  repeat split; try reflexivity.
  - destruct (Z.ltb_spec (g_oldest_id (st_global st)) (g_current (st_global st))); lia.
  - destruct (Z.ltb_spec (g_last_running (st_global st)) (g_current (st_global st))); lia.
  - destruct (Z.ltb_spec (g_metadata_pinned (st_global st)) (g_current (st_global st))); lia.
Qed.

Lemma update_oldest_idle_catches_up_witness :
  exists st',
    __wt_txn_update_oldest ex_extern true false ex_idle_state = Some (0, st') /\
    g_oldest_id (st_global st') = 9 /\
    g_last_running (st_global st') = 9 /\
    g_metadata_pinned (st_global st') = 9.
Proof.
  destruct (update_oldest_idle_catches_up ex_extern false ex_idle_state)
    as (st' & H & A & B & C & _).
  - split; [reflexivity|]. split; [reflexivity|].
    intros s Hin. repeat (apply elem_of_cons in Hin as [->|Hin]);
      [repeat split..|]. inversion Hin.
  - unfold ids_ordered. cbn. lia.
  - reflexivity.
  - intros _. split; reflexivity.
  - exists st'. auto.
Defined.

(** X3 -- A failing [__wt_txn_update_oldest] leaves the table alone.  When
    the call returns a value other than 0, the state is the one it was called
    in, and the value is the error of the pinned-timestamp update of a strict
    call or the error, other than EBUSY, of a non-blocking lock acquisition;
    a blocking call that is not strict, or whose pinned-timestamp update
    succeeds, returns 0. *)
Theorem update_oldest_failure_leaves_table (E : WT_EXTERN) (strict wait : bool)
    (st : state) (r : Z) (st' : state) :
  __wt_txn_update_oldest E strict wait st = Some (r, st') ->
  (r <> 0 ->
   st' = st /\
   ((strict = true /\ r = x_update_pinned_timestamp E) \/
    (wait = false /\ r <> EBUSY /\
     (r = x_try_readlock E \/ r = x_try_writelock E)))) /\
  (wait = true -> (strict = true -> x_update_pinned_timestamp E = 0) -> r = 0).
Proof.
  unfold __wt_txn_update_oldest. cbv zeta.
  destruct (strict && negb (x_update_pinned_timestamp E =? 0)) eqn:Hp.
  { intros H. inversion H; subst. apply andb_true_iff in Hp as [-> Hp].
    apply negb_true_iff, Z.eqb_neq in Hp.
    split; [intros _; split; [reflexivity|left; auto]|].
    intros _ Hz. specialize (Hz eq_refl). congruence. }
  match goal with |- (if ?c then _ else _) = _ -> _ => destruct c end.
  { intros H. inversion H. split; [congruence|auto]. }
  destruct (negb wait && negb (x_try_readlock E =? 0)) eqn:Hr.
  { intros H. apply andb_true_iff in Hr as [Hwt Hr].
    apply negb_true_iff in Hwt. subst wait.
    split; [|discriminate].
    destruct (Z.eqb_spec (x_try_readlock E) EBUSY) as [Hb|Hb];
      inversion H; subst; [congruence|].
    intros _. split; [reflexivity|]. right. auto. }
  destruct (__txn_oldest_scan (st_global st)) as [sc|]; [|discriminate].
  cbn [mbind option_bind].
  match goal with |- (if ?c then _ else _) = _ -> _ => destruct c end.
  { intros H. inversion H. split; [congruence|auto]. }
  destruct (negb wait && negb (x_try_writelock E =? 0)) eqn:Hw.
  { intros H. apply andb_true_iff in Hw as [Hwt Hw].
    apply negb_true_iff in Hwt. subst wait.
    split; [|discriminate].
    destruct (Z.eqb_spec (x_try_writelock E) EBUSY) as [Hb|Hb];
      inversion H; subst; [congruence|].
    intros _. split; [reflexivity|]. right. auto. }
  match goal with |- (if ?c then _ else _) = _ -> _ => destruct c end.
  { intros H. inversion H. split; [congruence|auto]. }
  intros H. inversion H. split; [congruence|auto].
Qed.

Lemma update_oldest_failure_leaves_table_witness :
  __wt_txn_update_oldest ex_extern_pinned_fails true true ex_stale_state
  = Some (EINVAL, ex_stale_state) /\ EINVAL <> 0.
Proof.
  split; [|discriminate].
  destruct (__wt_txn_update_oldest ex_extern_pinned_fails true true
              ex_stale_state) as [[r st']|] eqn:H;
    [|vm_compute in H; discriminate].
  destruct (update_oldest_failure_leaves_table _ _ _ _ _ _ H) as [Hf _].
  assert (Hr : r = EINVAL) by (vm_compute in H; inversion H; reflexivity).
  subst r. destruct (Hf ltac:(discriminate)) as [-> _]. reflexivity.
Defined.

(** ** What a snapshot contains *)

Lemma snapshot_walk_complete states : forall i own prev cur snapshot n pinned_id
    snapshot' n' pinned_id',
  snapshot_walk i own states prev cur snapshot n pinned_id
  = Some (snapshot', n', pinned_id') ->
  (forall x, x ∈ snapshot -> x ∈ snapshot') /\
  (forall j s, states !! j = Some s -> (i + j)%nat <> own ->
     s_id s <> WT_TXN_NONE -> prev <= s_id s < cur -> s_id s ∈ snapshot') /\
  pinned_id' <= pinned_id /\
  (prev <= pinned_id -> prev <= pinned_id') /\
  (forall x, x ∈ snapshot' -> x ∈ snapshot \/ pinned_id' <= x) /\
  (pinned_id' = pinned_id \/ pinned_id' ∈ snapshot').
Proof.
  induction states as [|s rest IH];
    intros i own prev cur snapshot n pinned_id snapshot' n' pinned_id' H;
    cbn [snapshot_walk] in H.
  - inversion H; subst. repeat split; auto; try lia.
    intros j s Hj. rewrite lookup_nil in Hj. discriminate.
  - destruct (snapshot_visit (bool_decide (i = own)) s prev cur) as [r|] eqn:Hv;
      [|discriminate].
    cbn [mbind option_bind] in H. destruct r as [id|].
    + apply snapshot_visit_Some in Hv as (Hown & Hid & Hne & Hrange & _).
      apply IH in H as (K1 & K2 & K3 & K4 & K5 & K6).
      assert (Hp : (if WT_TXNID_LT id pinned_id then id else pinned_id) <= pinned_id /\
                   (if WT_TXNID_LT id pinned_id then id else pinned_id) <= id).
      { unfold WT_TXNID_LT. destruct (Z.ltb_spec id pinned_id); lia. }
      destruct Hp as [Hp1 Hp2].
      split; [|split; [|split; [|split; [|split]]]].
      * intros x Hx. apply K1. apply elem_of_app. left. exact Hx.
      * intros j s' Hj Hjo Hne' Hr. destruct j as [|j].
        -- cbn in Hj. inversion Hj; subst s'. apply K1.
           apply elem_of_app. right. rewrite Hid.
           apply elem_of_cons. left. reflexivity.
        -- cbn in Hj. apply (K2 j s' Hj); [lia|exact Hne'|exact Hr].
      * lia.
      * intros Hle. apply K4. unfold WT_TXNID_LT.
        destruct (Z.ltb_spec id pinned_id); lia.
      * intros x Hx. destruct (K5 x Hx) as [Hin|Hle]; [|right; exact Hle].
        apply elem_of_app in Hin as [Hin|Hin]; [left; exact Hin|].
        apply elem_of_cons in Hin as [->|Hin]; [|inversion Hin].
        right. lia.
      * destruct K6 as [K6|K6]; [|right; exact K6].
        unfold WT_TXNID_LT in K6. destruct (Z.ltb_spec id pinned_id).
        -- right. rewrite K6. apply K1. apply elem_of_app. right.
           apply elem_of_cons. left. reflexivity.
        -- left. exact K6.
    + apply snapshot_visit_None in Hv.
      apply IH in H as (K1 & K2 & K3 & K4 & K5 & K6).
      split; [exact K1|]. split; [|auto].
      intros j s' Hj Hjo Hne' Hr. destruct j as [|j].
      * cbn in Hj. inversion Hj; subst s'. exfalso.
        destruct Hv as [Hv|[Hv|Hv]].
        -- apply bool_decide_eq_true_1 in Hv. lia.
        -- contradiction.
        -- apply Hv. exact Hr.
      * cbn in Hj. apply (K2 j s' Hj); [lia|exact Hne'|exact Hr].
Qed.

(** The allocating path of [__wt_txn_get_snapshot], laid out: the ids
    collected, the pinned id, and the state handed to the sort. *)
Lemma __wt_txn_get_snapshot_walk st st' :
  has_current_snapshot st = false ->
  __wt_txn_get_snapshot st = Some st' ->
  let g := st_global st in
  let ckpt := s_id (g_checkpoint_state g) in
  let ckpts := if ckpt =? WT_TXN_NONE then [] else [ckpt] in
  exists snapshot n pinned_id,
    ((g_oldest_id g = g_current g /\ snapshot = ckpts /\
      pinned_id = g_current g) \/
     (g_oldest_id g <> g_current g /\
      exists n0, snapshot_walk 0 (ss_id (snd st)) (g_states g) (g_oldest_id g)
                   (g_current g) ckpts n0 (g_current g)
                 = Some (snapshot, n, pinned_id))) /\
    __txn_sort_snapshot n (g_current g)
      (upd_txn (fun t => set_t_snapshot snapshot (t_snapshot_count t)
                           (t_snap_min t) (t_snap_max t) t)
         (upd_txn_state (set_s_pinned_id pinned_id)
            (if ckpt =? WT_TXN_NONE then entered st
             else upd_txn_state (set_s_metadata_pinned ckpt) (entered st))))
    = Some st'.
Proof.
  intros Hfast H. cbn zeta.
  unfold __wt_txn_get_snapshot in H.
  unfold has_current_snapshot in Hfast. rewrite Hfast in H.
  fold (entered st) in H.
  assert (Hg : st_global (entered st) = st_global st).
  { unfold entered. destruct (negb _); reflexivity. }
  assert (Hid : ss_id (snd (entered st)) = ss_id (snd st)).
  { unfold entered. destruct (negb _); reflexivity. }
  rewrite Hg in H.
  destruct (s_id (g_checkpoint_state (st_global st)) =? WT_TXN_NONE) eqn:Hck;
    cbn [negb] in H.
  - destruct (Z.eqb_spec (g_oldest_id (st_global st)) (g_current (st_global st)))
      as [Heq|Hne].
    + exists [], 0, (g_current (st_global st)). split; [left; auto|exact H].
    + rewrite Hid in H.
      destruct (snapshot_walk _ _ _ _ _ _ _ _) as [[[snapshot n] pinned_id]|]
        eqn:Hw; [|discriminate].
      cbn [mbind option_bind] in H.
      exists snapshot, n, pinned_id. split; [|exact H].
      right. split; [exact Hne|]. exists 0. exact Hw.
  - destruct (Z.eqb_spec (g_oldest_id (st_global st)) (g_current (st_global st)))
      as [Heq|Hne].
    + exists [s_id (g_checkpoint_state (st_global st))], 1,
        (g_current (st_global st)).
      split; [left; auto|exact H].
    + replace (ss_id (snd (upd_txn_state _ (entered st)))) with (ss_id (snd st))
        in H by (symmetry; exact Hid).
      destruct (snapshot_walk _ _ _ _ _ _ _ _) as [[[snapshot n] pinned_id]|]
        eqn:Hw; [|discriminate].
      cbn [mbind option_bind] in H.
      exists snapshot, n, pinned_id. split; [|exact H].
      right. split; [exact Hne|]. exists 1. exact Hw.
Qed.

(** The state [__txn_sort_snapshot] is handed on the allocating path, and
    what the state it leaves has kept of it. *)
Lemma sorted_snapshot_view snapshot n snap_min snap_max collected pinned_id mid :
  let st' := txn_set WT_TXN_HAS_SNAPSHOT
               (upd_txn (set_t_snapshot snapshot n snap_min snap_max)
                  (upd_txn (fun t => set_t_snapshot collected (t_snapshot_count t)
                                       (t_snap_min t) (t_snap_max t) t)
                     (upd_txn_state (set_s_pinned_id pinned_id) mid))) in
  t_snapshot (st_txn st') = snapshot /\
  g_states (st_global st') =
    alter (set_s_pinned_id pinned_id) (ss_id (snd mid)) (g_states (st_global mid)) /\
  ss_gen_commit (snd st') = ss_gen_commit (snd mid) /\
  c_gen_commit (fst st') = c_gen_commit (fst mid) /\
  txn_isset st' WT_TXN_HAS_SNAPSHOT = true.
Proof.
  destruct_state mid. cbn. repeat split.
Qed.

(** X5 -- A snapshot is complete.  The snapshot [__wt_txn_get_snapshot]
    allocates holds every id that the slot of another session publishes
    between the table's oldest id and its current id, and the id of a
    running checkpoint: no transaction running when the snapshot is taken is
    left out of it. *)
Theorem snapshot_complete (st st' : state) :
  has_current_snapshot st = false ->
  __wt_txn_get_snapshot st = Some st' ->
  let g := st_global st in
  (forall j s, g_states g !! j = Some s -> j <> ss_id (snd st) ->
     s_id s <> WT_TXN_NONE -> g_oldest_id g <= s_id s < g_current g ->
     s_id s ∈ t_snapshot (st_txn st')) /\
  (s_id (g_checkpoint_state g) <> WT_TXN_NONE ->
   s_id (g_checkpoint_state g) ∈ t_snapshot (st_txn st')).
Proof.
  intros Hfast H. cbn zeta.
  destruct (__wt_txn_get_snapshot_walk st st' Hfast H)
    as (collected & n & pinned_id & Hwalk & Hsort).
  cbn zeta in Hwalk, Hsort.
  apply __txn_sort_snapshot_spec in Hsort
    as (snapshot & snap_min & -> & Hperm & _ & _).
  match goal with
  | |- context [upd_txn_state (set_s_pinned_id pinned_id) ?m] =>
      destruct (sorted_snapshot_view snapshot n snap_min
                  (g_current (st_global st)) collected pinned_id m)
        as (-> & _)
  end.
  assert (Hcollected : t_snapshot (st_txn (upd_txn (fun t => set_t_snapshot
              collected (t_snapshot_count t) (t_snap_min t) (t_snap_max t) t)
              (upd_txn_state (set_s_pinned_id pinned_id)
                 (if s_id (g_checkpoint_state (st_global st)) =? WT_TXN_NONE
                  then entered st
                  else upd_txn_state
                         (set_s_metadata_pinned
                            (s_id (g_checkpoint_state (st_global st))))
                         (entered st))))) = collected).
  { match goal with
    | |- context [upd_txn_state (set_s_pinned_id pinned_id) ?m] =>
        destruct m as [c se]; destruct se; reflexivity
    end. }
  rewrite Hcollected in Hperm.
  assert (Hckpt : s_id (g_checkpoint_state (st_global st)) <> WT_TXN_NONE ->
                  s_id (g_checkpoint_state (st_global st)) ∈
                  (if s_id (g_checkpoint_state (st_global st)) =? WT_TXN_NONE
                   then [] else [s_id (g_checkpoint_state (st_global st))])).
  { intros Hne. apply Z.eqb_neq in Hne. rewrite Hne.
    apply elem_of_cons. left. reflexivity. }
  destruct Hwalk as [(Heq & -> & _)|(Hne & n0 & Hw)].
  - split.
    + intros j s _ _ _ Hr. lia.
    + intros Hc. rewrite <- Hperm. apply (Hckpt Hc).
  - apply snapshot_walk_complete in Hw as (K1 & K2 & _).
    split.
    + intros j s Hj Hjo Hn Hr. rewrite <- Hperm.
      apply (K2 j s Hj); [cbn; exact Hjo|exact Hn|exact Hr].
    + intros Hc. rewrite <- Hperm. apply K1. apply (Hckpt Hc).
Qed.

Lemma snapshot_complete_witness :
  exists st',
    __wt_txn_get_snapshot ex_busy_table_state = Some st' /\
    5 ∈ t_snapshot (st_txn st').
Proof.
  destruct (__wt_txn_get_snapshot ex_busy_table_state) as [st'|] eqn:H;
    [|vm_compute in H; discriminate].
  exists st'. split; [reflexivity|].
  destruct (snapshot_complete ex_busy_table_state st' eq_refl H) as [Hall _].
  apply (Hall 1%nat (mk_state 5 3 0 false)).
  - reflexivity.
  - cbn. discriminate.
  - cbn. discriminate.
  - cbn. lia.
Defined.

Lemma entered_mid_view st ckpt :
  let mid := if ckpt =? WT_TXN_NONE then entered st
             else upd_txn_state (set_s_metadata_pinned ckpt) (entered st) in
  ss_id (snd mid) = ss_id (snd st) /\
  ss_gen_commit (snd mid) = c_gen_commit (fst st) /\
  c_gen_commit (fst mid) = c_gen_commit (fst st).
Proof.
  cbv zeta. unfold entered.
  destruct (ckpt =? WT_TXN_NONE); destruct (negb _); destruct_state st;
    repeat split.
Qed.

(** X6 -- The pinned id a snapshot publishes.  On the allocating path of
    [__wt_txn_get_snapshot], with the table's oldest id not above its
    current id, the pinned id the session's slot publishes lies between the
    table's oldest id and its current id, and is above no entry of the
    snapshot other than the id of a running checkpoint. *)
Theorem snapshot_pinned_id (st st' : state) :
  has_current_snapshot st = false ->
  __wt_txn_get_snapshot st = Some st' ->
  let g := st_global st in
  g_oldest_id g <= g_current g ->
  forall s', g_states (st_global st') !! ss_id (snd st) = Some s' ->
    g_oldest_id g <= s_pinned_id s' <= g_current g /\
    forall x, x ∈ t_snapshot (st_txn st') ->
      x = s_id (g_checkpoint_state g) \/ s_pinned_id s' <= x.
Proof.
  intros Hfast H. cbn zeta. intros Hle s' Hs'.
  destruct (__wt_txn_get_snapshot_walk st st' Hfast H)
    as (collected & n & pinned_id & Hwalk & Hsort).
  cbn zeta in Hwalk, Hsort.
  apply __txn_sort_snapshot_spec in Hsort
    as (snapshot & snap_min & -> & Hperm & _ & _).
  set (ckpt := s_id (g_checkpoint_state (st_global st))) in *.
  set (mid := if ckpt =? WT_TXN_NONE then entered st
              else upd_txn_state (set_s_metadata_pinned ckpt) (entered st)) in *.
  destruct (sorted_snapshot_view snapshot n snap_min
              (g_current (st_global st)) collected pinned_id mid)
    as (Hsnap & Hstates & _).
  destruct (entered_mid_view st ckpt) as (Hid & _).
  fold mid in Hid.
  rewrite Hsnap. rewrite Hstates, Hid, list_lookup_alter_eq in Hs'.
  assert (Hpin : s_pinned_id s' = pinned_id).
  { destruct (g_states (st_global mid) !! ss_id (snd st)) as [s0|];
      cbn in Hs'; inversion Hs'. reflexivity. }
  rewrite Hpin. clear Hs' Hpin.
  assert (Hcollected : t_snapshot (st_txn (upd_txn (fun t => set_t_snapshot
              collected (t_snapshot_count t) (t_snap_min t) (t_snap_max t) t)
              (upd_txn_state (set_s_pinned_id pinned_id) mid))) = collected).
  { destruct mid as [c se]; destruct se; reflexivity. }
  rewrite Hcollected in Hperm.
  assert (Hckpts : forall x,
            x ∈ (if ckpt =? WT_TXN_NONE then [] else [ckpt]) -> x = ckpt).
  { intros x Hx. destruct (ckpt =? WT_TXN_NONE); [inversion Hx|].
    apply elem_of_cons in Hx as [->|Hx]; [reflexivity|inversion Hx]. }
  destruct Hwalk as [(Heq & -> & ->)|(Hne & n0 & Hw)].
  - split; [lia|]. intros x Hx. left. apply Hckpts. rewrite Hperm. exact Hx.
  - apply snapshot_walk_complete in Hw as (_ & _ & K3 & K4 & K5 & _).
    split; [split; [apply K4; exact Hle|exact K3]|].
    intros x Hx. rewrite <- Hperm in Hx.
    destruct (K5 x Hx) as [Hin|Hp]; [left; apply Hckpts; exact Hin|right; exact Hp].
Qed.

Lemma snapshot_pinned_id_witness :
  exists st' s',
    __wt_txn_get_snapshot ex_busy_table_state = Some st' /\
    g_states (st_global st') !! 0%nat = Some s' /\
    3 <= s_pinned_id s' <= 9.
Proof.
  destruct (__wt_txn_get_snapshot ex_busy_table_state) as [st'|] eqn:H;
    [|vm_compute in H; discriminate].
  destruct (g_states (st_global st') !! 0%nat) as [s'|] eqn:Hs'.
  - exists st', s'. split; [reflexivity|]. split; [exact Hs'|].
    destruct (snapshot_pinned_id ex_busy_table_state st' eq_refl H
                ltac:(cbn; lia) s' Hs') as [Hr _].
    exact Hr.
  - exfalso. vm_compute in H. inversion H; subst st'. vm_compute in Hs'.
    discriminate.
Defined.

(** The snapshot cache.  Once [__wt_txn_get_snapshot] has allocated a
    snapshot in a connection whose commit generation is not 0, a second call
    finds the snapshot current and changes nothing; after the commit
    generation has moved on ([__wt_gen_next], which a commit with updates
    calls) the cached snapshot is no longer current. *)
Theorem snapshot_cached (st st' : state) :
  has_current_snapshot st = false ->
  __wt_txn_get_snapshot st = Some st' ->
  c_gen_commit (fst st) <> 0 ->
  __wt_txn_get_snapshot st' = Some st' /\
  has_current_snapshot (__wt_gen_next st') = false.
Proof.
  intros Hfast H Hgen.
  destruct (__wt_txn_get_snapshot_walk st st' Hfast H)
    as (collected & n & pinned_id & _ & Hsort).
  cbn zeta in Hsort.
  apply __txn_sort_snapshot_spec in Hsort
    as (snapshot & snap_min & -> & _ & _ & _).
  set (ckpt := s_id (g_checkpoint_state (st_global st))) in *.
  set (mid := if ckpt =? WT_TXN_NONE then entered st
              else upd_txn_state (set_s_metadata_pinned ckpt) (entered st)) in *.
  destruct (sorted_snapshot_view snapshot n snap_min
              (g_current (st_global st)) collected pinned_id mid)
    as (_ & _ & Hsg & Hcg & Hhas).
  destruct (entered_mid_view st ckpt) as (_ & Hsg' & Hcg').
  fold mid in Hsg', Hcg'.
  set (st' := txn_set _ _) in *.
  rewrite Hsg' in Hsg. rewrite Hcg' in Hcg.
  split.
  - unfold __wt_txn_get_snapshot, __wt_session_gen_commit, __wt_gen_commit.
    rewrite Hsg, Hcg, Hhas, Z.eqb_refl.
    rewrite (proj2 (Z.eqb_neq _ _) Hgen). reflexivity.
  - unfold has_current_snapshot, __wt_session_gen_commit, __wt_gen_commit,
      __wt_gen_next.
    cbn [fst snd]. rewrite Hsg.
    replace (c_gen_commit (set_c_gen_commit (c_gen_commit (fst st') + 1) (fst st')))
      with (c_gen_commit (fst st') + 1) by (destruct (fst st'); reflexivity).
    rewrite Hcg.
    rewrite (proj2 (Z.eqb_neq (c_gen_commit (fst st)) (c_gen_commit (fst st) + 1)))
      by lia.
    apply andb_false_r.
Qed.

Lemma snapshot_cached_witness :
  exists st',
    __wt_txn_get_snapshot ex_busy_table_state = Some st' /\
    __wt_txn_get_snapshot st' = Some st' /\
    has_current_snapshot (__wt_gen_next st') = false.
Proof.
  destruct (__wt_txn_get_snapshot ex_busy_table_state) as [st'|] eqn:H;
    [|vm_compute in H; discriminate].
  exists st'. split; [reflexivity|].
  apply (snapshot_cached ex_busy_table_state st' eq_refl H).
  cbn. discriminate.
Defined.

(** ** Eviction's questions to a transaction *)

Lemma blocking_old_walk_bound states : forall txn_id i,
  (i <= blocking_old_walk states txn_id i <= i + length states)%nat.
Proof.
  induction states as [|s rest IH]; intros txn_id i; cbn [blocking_old_walk length].
  - lia.
  - destruct (s_is_allocating s); [specialize (IH txn_id (S i)); lia|].
    destruct (_ && _); [lia|specialize (IH txn_id (S i)); lia].
Qed.

(** The loop of [__wt_txn_is_blocking_old] runs to the end exactly when no
    slot that is not allocating publishes an id below the transaction's. *)
Lemma blocking_old_walk_end states : forall txn_id i,
  blocking_old_walk states txn_id i = (i + length states)%nat <->
  forall s, s ∈ states -> s_is_allocating s = false ->
            s_id s <> WT_TXN_NONE -> txn_id <= s_id s.
Proof.
  induction states as [|s rest IH]; intros txn_id i; cbn [blocking_old_walk length].
  - split; [|lia]. intros _ s Hin. inversion Hin.
  - destruct (s_is_allocating s) eqn:Halloc.
    + rewrite <- Nat.add_succ_comm, IH. split.
      * intros H s' Hin. apply elem_of_cons in Hin as [->|Hin]; [congruence|].
        apply (H s' Hin).
      * intros H s' Hin. apply H. apply elem_of_cons. right. exact Hin.
    + destruct (negb (s_id s =? WT_TXN_NONE) && WT_TXNID_LT (s_id s) txn_id)
        eqn:Hold.
      * split; [lia|]. intros H. exfalso.
        apply andb_true_iff in Hold as [Hne Hlt].
        apply negb_true_iff, Z.eqb_neq in Hne.
        unfold WT_TXNID_LT in Hlt. apply Z.ltb_lt in Hlt.
        specialize (H s ltac:(apply elem_of_cons; left; reflexivity) Halloc Hne).
        lia.
      * rewrite <- Nat.add_succ_comm, IH. split.
        -- intros H s' Hin. apply elem_of_cons in Hin as [->|Hin];
             [|apply (H s' Hin)].
           intros _ Hne. apply andb_false_iff in Hold as [Hold|Hold].
           ++ apply negb_false_iff, Z.eqb_eq in Hold. contradiction.
           ++ unfold WT_TXNID_LT in Hold. apply Z.ltb_ge in Hold. exact Hold.
        -- intros H s' Hin. apply H. apply elem_of_cons. right. exact Hin.
Qed.

(** X13 -- Who is told to roll back for eviction.  [__wt_txn_is_blocking_old]
    returns WT_ROLLBACK (and stores a reason) exactly when the transaction
    has an id, is not prepared, and no slot that is not allocating publishes
    an id below the transaction's; in every other case it returns 0 and
    stores no reason. *)
Theorem is_blocking_old_iff (st : state) :
  (fst (__wt_txn_is_blocking_old st) = WT_ROLLBACK <->
   t_id (st_txn st) <> WT_TXN_NONE /\
   txn_isset st WT_TXN_PREPARE = false /\
   forall s, s ∈ g_states (st_global st) -> s_is_allocating s = false ->
             s_id s <> WT_TXN_NONE -> t_id (st_txn st) <= s_id s) /\
  (fst (__wt_txn_is_blocking_old st) <> WT_ROLLBACK ->
   __wt_txn_is_blocking_old st = (0, None)).
Proof.
  unfold __wt_txn_is_blocking_old, txn_isset. cbv zeta.
  destruct (Z.eqb_spec (t_id (st_txn st)) WT_TXN_NONE) as [Hid|Hid]; cbn [orb].
  { split; [|reflexivity]. split; [discriminate|]. intros (H & _). contradiction. }
  destruct (F_ISSET (t_flags (st_txn st)) WT_TXN_PREPARE).
  { split; [|reflexivity]. split; [discriminate|]. intros (_ & H & _). discriminate. }
  pose proof (blocking_old_walk_end (g_states (st_global st))
                (t_id (st_txn st)) 0) as Hend.
  cbn [Nat.add] in Hend.
  destruct (Nat.eqb_spec (blocking_old_walk (g_states (st_global st))
                            (t_id (st_txn st)) 0)
              (length (g_states (st_global st)))) as [Heq|Hne].
  - split; [|intros H; exfalso; apply H; reflexivity].
    split; [|reflexivity]. intros _. split; [exact Hid|]. split; [reflexivity|].
    apply Hend. exact Heq.
  - split; [|reflexivity].
    split; [discriminate|]. intros (_ & _ & H). exfalso. apply Hne.
    apply Hend. exact H.
Qed.

(** What a return of WT_ROLLBACK tells. *)
Lemma blocking_old_rollback_inv st :
  fst (__wt_txn_is_blocking_old st) = WT_ROLLBACK ->
  t_id (st_txn st) <> WT_TXN_NONE /\
  forall s, s ∈ g_states (st_global st) -> s_is_allocating s = false ->
            s_id s <> WT_TXN_NONE -> t_id (st_txn st) <= s_id s.
Proof.
  unfold __wt_txn_is_blocking_old. cbv zeta.
  destruct (Z.eqb_spec (t_id (st_txn st)) WT_TXN_NONE) as [Hid|Hid]; cbn [orb];
    [discriminate|].
  destruct (F_ISSET (t_flags (st_txn st)) WT_TXN_PREPARE); [discriminate|].
  destruct (Nat.eqb_spec (blocking_old_walk (g_states (st_global st))
                            (t_id (st_txn st)) 0)
              (length (g_states (st_global st)))) as [Heq|Hne]; [|discriminate].
  intros _. split; [exact Hid|].
  apply (blocking_old_walk_end (g_states (st_global st)) (t_id (st_txn st)) 0).
  exact Heq.
Qed.

(** X14 -- Only the oldest is told to roll back.  Of two sessions of one
    connection whose slots publish the ids of their transactions, the slots
    not allocating, [__wt_txn_is_blocking_old] returns WT_ROLLBACK to both
    only if the two transactions carry the same id. *)
Theorem is_blocking_old_unique (c : WT_CONNECTION_IMPL) (se1 se2 : WT_SESSION_IMPL)
    (s1 s2 : WT_TXN_STATE) :
  g_states (c_txn_global c) !! ss_id se1 = Some s1 ->
  g_states (c_txn_global c) !! ss_id se2 = Some s2 ->
  s_id s1 = t_id (ss_txn se1) -> s_is_allocating s1 = false ->
  s_id s2 = t_id (ss_txn se2) -> s_is_allocating s2 = false ->
  fst (__wt_txn_is_blocking_old (c, se1)) = WT_ROLLBACK ->
  fst (__wt_txn_is_blocking_old (c, se2)) = WT_ROLLBACK ->
  t_id (ss_txn se1) = t_id (ss_txn se2).
Proof.
  intros H1 H2 I1 A1 I2 A2 B1 B2.
  apply blocking_old_rollback_inv in B1 as (N1 & O1).
  apply blocking_old_rollback_inv in B2 as (N2 & O2).
  unfold st_global, st_txn in *. cbn [fst snd] in *.
  apply list_elem_of_lookup_2 in H1, H2.
  specialize (O1 s2 H2 A2). specialize (O2 s1 H1 A1).
  rewrite I2 in O1. rewrite I1 in O2.
  specialize (O1 N2). specialize (O2 N1). lia.
Qed.

Lemma is_blocking_old_unique_witness :
  fst (__wt_txn_is_blocking_old
         (ex_two_running_conn, ex_running_session 1 5 5)) = WT_ROLLBACK /\
  fst (__wt_txn_is_blocking_old
         (ex_two_running_conn, ex_running_session 2 7 5)) = 0.
Proof.
  split; [reflexivity|].
  destruct (Z.eq_dec
              (fst (__wt_txn_is_blocking_old
                      (ex_two_running_conn, ex_running_session 2 7 5)))
              WT_ROLLBACK) as [Hr|Hr]; [exfalso|vm_compute; reflexivity].
  assert (H : t_id (ss_txn (ex_running_session 1 5 5)) =
              t_id (ss_txn (ex_running_session 2 7 5))).
  { apply (is_blocking_old_unique ex_two_running_conn
             (ex_running_session 1 5 5) (ex_running_session 2 7 5)
             (mk_state 5 0 0 false) (mk_state 7 0 0 false));
      try reflexivity. exact Hr. }
  discriminate H.
Defined.

Lemma blocking_pin_walk_end sessions : forall snap_min i,
  blocking_pin_walk sessions snap_min i = (i + length sessions)%nat <->
  forall internal s, (internal, s) ∈ sessions -> internal = false ->
    F_ISSET (t_flags (ss_txn s)) WT_TXN_HAS_SNAPSHOT = true ->
    t_snap_min (ss_txn s) <> WT_TXN_NONE -> snap_min <= t_snap_min (ss_txn s).
Proof.
  induction sessions as [|[internal0 s0] rest IH]; intros snap_min i;
    cbn [blocking_pin_walk length].
  - split; [|lia]. intros _ internal s Hin. inversion Hin.
  - destruct (internal0 ||
              negb (F_ISSET (t_flags (ss_txn s0)) WT_TXN_HAS_SNAPSHOT)) eqn:Hskip.
    + rewrite <- Nat.add_succ_comm, IH. split.
      * intros H internal s Hin. apply elem_of_cons in Hin as [Heq|Hin];
          [|apply (H internal s Hin)].
        inversion Heq; subst. intros -> Hsnap. rewrite Hsnap in Hskip.
        discriminate.
      * intros H internal s Hin. apply H. apply elem_of_cons. right. exact Hin.
    + apply orb_false_iff in Hskip as [-> Hsnap0].
      apply negb_false_iff in Hsnap0.
      destruct (negb (t_snap_min (ss_txn s0) =? WT_TXN_NONE) &&
                (t_snap_min (ss_txn s0) <? snap_min)) eqn:Hold.
      * split; [|intros H; exfalso].
        -- pose proof (Nat.le_refl i). lia.
        -- apply andb_true_iff in Hold as [Hne Hlt].
           apply negb_true_iff, Z.eqb_neq in Hne. apply Z.ltb_lt in Hlt.
           specialize (H false s0 ltac:(apply elem_of_cons; left; reflexivity)
                         eq_refl Hsnap0 Hne).
           lia.
      * rewrite <- Nat.add_succ_comm, IH. split.
        -- intros H internal s Hin. apply elem_of_cons in Hin as [Heq|Hin];
             [|apply (H internal s Hin)].
           inversion Heq; subst. intros _ _ Hne.
           apply andb_false_iff in Hold as [Hold|Hold].
           ++ apply negb_false_iff, Z.eqb_eq in Hold. contradiction.
           ++ apply Z.ltb_ge in Hold. exact Hold.
        -- intros H internal s Hin. apply H. apply elem_of_cons. right. exact Hin.
Qed.

(** X15 -- Who is told to roll back for a pinned id.
    [__wt_txn_is_blocking_pin] returns WT_ROLLBACK (and stores a reason)
    exactly when the transaction holds a snapshot with a [snap_min], the
    operation timer has fired, and no session that is not internal holds a
    snapshot with a smaller [snap_min]; in every other case it returns 0 and
    stores no reason. *)
Theorem is_blocking_pin_iff (timer_fired : bool)
    (sessions : list (bool * WT_SESSION_IMPL)) (txn : WT_TXN) :
  (fst (__wt_txn_is_blocking_pin timer_fired sessions txn) = WT_ROLLBACK <->
   F_ISSET (t_flags txn) WT_TXN_HAS_SNAPSHOT = true /\
   t_snap_min txn <> WT_TXN_NONE /\
   timer_fired = true /\
   forall internal s, (internal, s) ∈ sessions -> internal = false ->
     F_ISSET (t_flags (ss_txn s)) WT_TXN_HAS_SNAPSHOT = true ->
     t_snap_min (ss_txn s) <> WT_TXN_NONE ->
     t_snap_min txn <= t_snap_min (ss_txn s)) /\
  (fst (__wt_txn_is_blocking_pin timer_fired sessions txn) <> WT_ROLLBACK ->
   __wt_txn_is_blocking_pin timer_fired sessions txn = (0, None)).
Proof.
  unfold __wt_txn_is_blocking_pin. cbv zeta.
  destruct (F_ISSET (t_flags txn) WT_TXN_HAS_SNAPSHOT); cbn [negb orb].
  2:{ split; [|reflexivity]. split; [discriminate|].
      intros (H & _). discriminate. }
  destruct (Z.eqb_spec (t_snap_min txn) WT_TXN_NONE) as [Hmin|Hmin].
  { split; [|reflexivity]. split; [discriminate|].
    intros (_ & H & _). contradiction. }
  destruct timer_fired; cbn [negb].
  2:{ split; [|reflexivity]. split; [discriminate|].
      intros (_ & _ & H & _). discriminate. }
  pose proof (blocking_pin_walk_end sessions (t_snap_min txn) 0) as Hend.
  cbn [Nat.add] in Hend.
  destruct (Nat.eqb_spec (blocking_pin_walk sessions (t_snap_min txn) 0)
              (length sessions)) as [Heq|Hne].
  - split; [|intros H; exfalso; apply H; reflexivity].
    split; [|reflexivity]. intros _. repeat split; auto.
    apply Hend. exact Heq.
  - split; [|reflexivity].
    split; [discriminate|]. intros (_ & _ & _ & H). exfalso. apply Hne.
    apply Hend. exact H.
Qed.

(** ** Releasing a snapshot *)

Lemma F_CLR_F_CLR flags f : F_CLR (F_CLR flags f) f = F_CLR flags f.
Proof.
  unfold F_CLR. induction flags as [|g flags IH]; [reflexivity|].
  rewrite filter_cons. destruct (decide (g <> f)) as [Hne|Heq].
  - rewrite filter_cons. rewrite decide_True by exact Hne. rewrite IH.
    reflexivity.
  - exact IH.
Qed.

Lemma alter_alter_same {A} (f : A -> A) (i : nat) (l : list A) :
  (forall x, f (f x) = f x) -> alter f i (alter f i l) = alter f i l.
Proof.
  intros Hf. revert i. induction l as [|x l IH]; intros [|i]; cbn;
    [reflexivity|reflexivity|rewrite Hf; reflexivity|rewrite IH; reflexivity].
Qed.

(** X7 -- Releasing a snapshot.  [__wt_txn_release_snapshot] leaves the
    transaction without the HAS_SNAPSHOT flag and the session's slot with
    neither a pinned id nor a metadata pinned id; the id the slot publishes
    and the slots of the other sessions are as they were; and releasing a
    second time changes nothing. *)
Theorem release_snapshot_idempotent (st : state) :
  let st' := __wt_txn_release_snapshot st in
  __wt_txn_release_snapshot st' = st' /\
  txn_isset st' WT_TXN_HAS_SNAPSHOT = false /\
  (forall s', g_states (st_global st') !! ss_id (snd st) = Some s' ->
     s_pinned_id s' = WT_TXN_NONE /\ s_metadata_pinned s' = WT_TXN_NONE /\
     exists s, g_states (st_global st) !! ss_id (snd st) = Some s /\
               s_id s' = s_id s) /\
  (forall j, j <> ss_id (snd st) ->
     g_states (st_global st') !! j = g_states (st_global st) !! j).
Proof.
  cbv zeta.
  set (F := fun s => set_s_metadata_pinned WT_TXN_NONE
                       (set_s_pinned_id WT_TXN_NONE s)).
  set (G := fun g => set_g_checkpoint
                       (set_s_pinned_id WT_TXN_NONE (g_checkpoint_state g))
                       0 (g_checkpoint_id g) g).
  set (base := fun st => txn_clr WT_TXN_HAS_SNAPSHOT (upd_txn_state F st)).
  assert (Hrel : forall st0,
            __wt_txn_release_snapshot st0 =
            if WT_SESSION_IS_CHECKPOINT st0 then upd_global G (base st0)
            else base st0) by reflexivity.
  assert (Hbase : forall st0, base (base st0) = base st0).
  { intros st0. unfold base, txn_clr, upd_txn, upd_txn_state, upd_global.
    cbn -[F_CLR alter]. rewrite F_CLR_F_CLR.
    rewrite alter_alter_same by (intros []; reflexivity). reflexivity. }
  assert (HbaseG : forall st0,
            upd_global G (base (upd_global G (base st0))) =
            upd_global G (base st0)).
  { intros st0. unfold base, txn_clr, upd_txn, upd_txn_state, upd_global, G.
    cbn -[F_CLR alter]. rewrite F_CLR_F_CLR.
    rewrite alter_alter_same by (intros []; reflexivity). reflexivity. }
  assert (Hview : forall st0,
            txn_isset (base st0) WT_TXN_HAS_SNAPSHOT = false /\
            g_states (st_global (base st0)) =
              alter F (ss_id (snd st0)) (g_states (st_global st0))).
  { intros st0. split; [|reflexivity].
    unfold base, txn_isset, txn_clr, upd_txn, st_txn. cbn -[F_CLR F_ISSET].
    rewrite F_ISSET_F_CLR.
    rewrite (bool_decide_eq_true_2 (WT_TXN_HAS_SNAPSHOT = WT_TXN_HAS_SNAPSHOT))
      by reflexivity. reflexivity. }
  destruct (Hview st) as [Hflag Hstates].
  assert (Hgoal : forall st',
            txn_isset st' WT_TXN_HAS_SNAPSHOT = false ->
            g_states (st_global st') =
              alter F (ss_id (snd st)) (g_states (st_global st)) ->
            txn_isset st' WT_TXN_HAS_SNAPSHOT = false /\
            (forall s', g_states (st_global st') !! ss_id (snd st) = Some s' ->
               s_pinned_id s' = WT_TXN_NONE /\ s_metadata_pinned s' = WT_TXN_NONE /\
               exists s, g_states (st_global st) !! ss_id (snd st) = Some s /\
                         s_id s' = s_id s) /\
            (forall j, j <> ss_id (snd st) ->
               g_states (st_global st') !! j = g_states (st_global st) !! j)).
  { intros st' Hf Hs. split; [exact Hf|]. rewrite Hs. split.
    - intros s'. rewrite list_lookup_alter_eq.
      destruct (_ !! _) as [s|]; cbn; intros H; inversion H.
      split; [reflexivity|]. split; [reflexivity|].
      exists s. split; reflexivity.
    - intros j Hj. apply list_lookup_alter_ne. congruence. }
  rewrite (Hrel st).
  destruct (WT_SESSION_IS_CHECKPOINT st) eqn:Hck.
  - split.
    + rewrite Hrel.
      change (WT_SESSION_IS_CHECKPOINT (upd_global G (base st)))
        with (WT_SESSION_IS_CHECKPOINT st).
      rewrite Hck. apply HbaseG.
    + apply Hgoal; [exact Hflag|exact Hstates].
  - split.
    + rewrite Hrel.
      change (WT_SESSION_IS_CHECKPOINT (base st))
        with (WT_SESSION_IS_CHECKPOINT st).
      rewrite Hck. apply Hbase.
    + apply Hgoal; [exact Hflag|exact Hstates].
Qed.

(** ** Prepare *)

Lemma prepared_kept_refl ts updates : prepared_kept ts updates updates.
Proof. split; [reflexivity|]. intros p u H. exists u. auto. Qed.

Lemma prepared_kept_trans ts u1 u2 u3 :
  prepared_kept ts u1 u2 -> prepared_kept ts u2 u3 -> prepared_kept ts u1 u3.
Proof.
  intros [L1 H1] [L2 H2]. split; [congruence|].
  intros p u Hp. destruct (H1 p u Hp) as (u' & Hp' & T1 & N1 & P1).
  destruct (H2 p u' Hp') as (u'' & Hp'' & T2 & N2 & P2).
  exists u''. split; [exact Hp''|]. split; [congruence|].
  split; [congruence|]. auto.
Qed.

Lemma op_points_kept ts updates updates' op :
  prepared_kept ts updates updates' -> op_points updates op ->
  op_points updates' op.
Proof.
  intros [Hlen Hk] Hop Hm Hu. destruct (Hop Hm Hu) as (p & u & Hp & Hl & Hn).
  destruct (Hk p u Hl) as (u' & Hl' & _ & Hn' & _).
  exists p, u'. split; [exact Hp|]. split; [exact Hl'|].
  rewrite Hn', Hlen. exact Hn.
Qed.

(** One operation of prepare's loop. *)
Lemma prepare_op_ok txn op updates :
  op_metadata op = false ->
  op_points updates op ->
  exists op' updates',
    prepare_op txn op updates = Some (op', updates') /\
    prepared_kept (t_prepare_timestamp txn) updates updates' /\
    (is_update_op (op_type op) = true ->
     exists p u', op_upd op = Some p /\ updates' !! p = Some u' /\
                  prepared_update (t_prepare_timestamp txn) u').
Proof.
  intros Hm Hop. unfold prepare_op.
  destruct (is_update_op (op_type op)) eqn:Hu.
  2:{ destruct (op_type op); try discriminate;
        (eexists; eexists; split; [reflexivity|];
         split; [apply prepared_kept_refl|discriminate]). }
  destruct (Hop Hm Hu) as (p & u & Hp & Hl & Hn).
  assert (Hbody :
    exists op' updates',
      (p0 ← op_upd op;
       upd ← updates !! p0;
       if is_reserve (upd_type upd) then
         Some (__wt_txn_op_free op,
               <[p0 := set_upd_txnid WT_TXN_ABORTED upd]> updates)
       else
         let upd0 := set_upd_prepared (t_prepare_timestamp txn) upd in
         let updates0 := <[p0 := upd0]> updates in
         let op0 := set_op_upd None op in
         match upd_next upd0 with
         | None => Some (op0, updates0)
         | Some q =>
             next ← updates0 !! q;
             if upd_txnid upd0 =? upd_txnid next then
               if is_reserve (upd_type next)
               then Some (set_op_key_reserved op0, updates0)
               else Some (set_op_key_repeated op0, updates0)
             else Some (op0, updates0)
         end) = Some (op', updates') /\
      prepared_kept (t_prepare_timestamp txn) updates updates' /\
      exists u', updates' !! p = Some u' /\
                 prepared_update (t_prepare_timestamp txn) u').
  { rewrite Hp. cbn [mbind option_bind]. rewrite Hl. cbn [mbind option_bind].
    assert (Hlt : (p < length updates)%nat) by (eapply lookup_lt_Some; exact Hl).
    assert (Hkept : forall v,
              upd_type v = upd_type u -> upd_next v = upd_next u ->
              prepared_update (t_prepare_timestamp txn) v ->
              prepared_kept (t_prepare_timestamp txn) updates (<[p := v]> updates)).
    { intros v Tv Nv Pv. split; [apply length_insert|].
      intros q w Hq. destruct (decide (q = p)) as [->|Hne].
      - exists v. rewrite list_lookup_insert_eq by exact Hlt.
        assert (w = u) by congruence. subst w. auto.
      - exists w. rewrite list_lookup_insert_ne by congruence. auto. }
    destruct (is_reserve (upd_type u)) eqn:Hres.
    - eexists; eexists. split; [reflexivity|].
      assert (Pv : prepared_update (t_prepare_timestamp txn)
                     (set_upd_txnid WT_TXN_ABORTED u)).
      { unfold prepared_update. cbn. rewrite Hres. reflexivity. }
      split; [apply (Hkept (set_upd_txnid WT_TXN_ABORTED u) eq_refl eq_refl Pv)|].
      eexists. split; [apply list_lookup_insert_eq; exact Hlt|exact Pv].
    - cbv zeta.
      assert (Pv : prepared_update (t_prepare_timestamp txn)
                     (set_upd_prepared (t_prepare_timestamp txn) u)).
      { unfold prepared_update. cbn. rewrite Hres. split; reflexivity. }
      pose proof (Hkept (set_upd_prepared (t_prepare_timestamp txn) u)
                    eq_refl eq_refl Pv) as Hk.
      assert (Hat : <[p := set_upd_prepared (t_prepare_timestamp txn) u]> updates
                    !! p = Some (set_upd_prepared (t_prepare_timestamp txn) u))
        by (apply list_lookup_insert_eq; exact Hlt).
      change (upd_next (set_upd_prepared (t_prepare_timestamp txn) u))
        with (upd_next u).
      destruct (upd_next u) as [q|].
      + destruct (lookup_lt_is_Some_2
                    (<[p := set_upd_prepared (t_prepare_timestamp txn) u]> updates) q)
          as [next Hnext]; [rewrite length_insert; exact Hn|].
        rewrite Hnext. cbn [mbind option_bind].
        destruct (_ =? _); [destruct (is_reserve (upd_type next))|];
          (eexists; eexists; split; [reflexivity|]; split; [exact Hk|];
           eexists; split; [exact Hat|exact Pv]).
      + eexists; eexists. split; [reflexivity|]. split; [exact Hk|].
        eexists. split; [exact Hat|exact Pv]. }
  destruct Hbody as (op' & updates' & Hrun & Hk & u' & Hl' & Pu').
  exists op', updates'.
  split; [|split; [exact Hk|intros _; exists p, u'; auto]].
  destruct (op_type op); try discriminate; exact Hrun.
Qed.

(** Prepare's loop. *)
Lemma prepare_ops_ok txn rops : forall updates,
  Forall (op_points updates) rops ->
  exists rops' updates',
    prepare_ops txn rops updates = Some (rops', updates') /\
    length rops' = length rops /\
    prepared_kept (t_prepare_timestamp txn) updates updates' /\
    forall op, op ∈ rops -> op_metadata op = false ->
      is_update_op (op_type op) = true ->
      exists p u', op_upd op = Some p /\ updates' !! p = Some u' /\
                   prepared_update (t_prepare_timestamp txn) u'.
Proof.
  induction rops as [|op rest IH]; intros updates Hall.
  - exists [], updates. split; [reflexivity|]. split; [reflexivity|].
    split; [apply prepared_kept_refl|]. intros op Hin. inversion Hin.
  - apply Forall_cons in Hall as [Hop Hrest]. cbn [prepare_ops].
    destruct (op_metadata op) eqn:Hm.
    + destruct (IH updates Hrest) as (rops' & updates' & Hrun & Hlen & Hk & Hall).
      rewrite Hrun. cbn [mbind option_bind].
      exists (op :: rops'), updates'. split; [reflexivity|].
      split; [cbn; congruence|]. split; [exact Hk|].
      intros op' Hin Hm' Hu'. apply elem_of_cons in Hin as [->|Hin];
        [congruence|]. apply (Hall op' Hin Hm' Hu').
    + destruct (prepare_op_ok txn op updates Hm Hop)
        as (op1 & updates1 & Hrun1 & Hk1 & Hp1).
      rewrite Hrun1. cbn [mbind option_bind].
      assert (Hrest1 : Forall (op_points updates1) rest).
      { eapply Forall_impl; [exact Hrest|].
        intros o Ho. apply (op_points_kept _ _ _ _ Hk1 Ho). }
      destruct (IH updates1 Hrest1) as (rops' & updates' & Hrun & Hlen & Hk & Hall).
      rewrite Hrun. cbn [mbind option_bind].
      exists (op1 :: rops'), updates'. split; [reflexivity|].
      split; [cbn; congruence|].
      split; [apply (prepared_kept_trans _ _ _ _ Hk1 Hk)|].
      intros op' Hin Hm' Hu'. apply elem_of_cons in Hin as [->|Hin].
      * destruct (Hp1 Hu') as (p & u1 & Hp & Hl1 & P1).
        destruct Hk as [_ Hk]. destruct (Hk p u1 Hl1) as (u' & Hl' & _ & _ & P').
        exists p, u'. auto.
      * apply (Hall op' Hin Hm' Hu').
Qed.

Lemma txn_isset_txn_set f g st :
  txn_isset (txn_set f st) g = bool_decide (g = f) || txn_isset st g.
Proof. unfold txn_isset, txn_set, upd_txn, st_txn. cbn. apply F_ISSET_F_SET. Qed.

(** What setting the timestamps of a configuration leaves alone. *)
Lemma __wt_txn_set_timestamp_kept cfg st st1 :
  __wt_txn_set_timestamp cfg st = Next tt st1 ->
  fst st1 = fst st /\
  ss_id (snd st1) = ss_id (snd st) /\
  ss_ncursors (snd st1) = ss_ncursors (snd st) /\
  t_mod (st_txn st1) = t_mod (st_txn st) /\
  t_id (st_txn st1) = t_id (st_txn st) /\
  forall f, f <> WT_TXN_HAS_TS_COMMIT -> f <> WT_TXN_HAS_TS_DURABLE ->
            f <> WT_TXN_HAS_TS_PREPARE -> txn_isset st1 f = txn_isset st f.
Proof.
  assert (Hstep : forall (g : txn_flag) (h : WT_TXN -> WT_TXN) s,
            (forall t, t_mod (h t) = t_mod t /\ t_id (h t) = t_id t /\
                       t_flags (h t) = t_flags t) ->
            fst (txn_set g (upd_txn h s)) = fst s /\
            ss_id (snd (txn_set g (upd_txn h s))) = ss_id (snd s) /\
            ss_ncursors (snd (txn_set g (upd_txn h s))) = ss_ncursors (snd s) /\
            t_mod (st_txn (txn_set g (upd_txn h s))) = t_mod (st_txn s) /\
            t_id (st_txn (txn_set g (upd_txn h s))) = t_id (st_txn s) /\
            forall f, f <> g ->
              txn_isset (txn_set g (upd_txn h s)) f = txn_isset s f).
  { intros g h s Hh. destruct (Hh (st_txn s)) as (H1 & H2 & H3).
    repeat split; try assumption.
    intros f Hf. rewrite txn_isset_txn_set.
    rewrite bool_decide_eq_false_2 by exact Hf. cbn [orb].
    unfold txn_isset, upd_txn, st_txn in *. cbn. rewrite H3. reflexivity. }
  assert (Hsame : forall s : state,
            fst s = fst s /\ ss_id (snd s) = ss_id (snd s) /\
            ss_ncursors (snd s) = ss_ncursors (snd s) /\
            t_mod (st_txn s) = t_mod (st_txn s) /\
            t_id (st_txn s) = t_id (st_txn s) /\
            forall f : txn_flag, txn_isset s f = txn_isset s f)
    by (intros; repeat split).
  unfold __wt_txn_set_timestamp, mbind, M_bind.
  destruct (set_commit_timestamp cfg st) as [[] sa| | |] eqn:Ha; try discriminate.
  destruct (set_durable_timestamp cfg sa) as [[] sb| | |] eqn:Hb; try discriminate.
  intros Hc.
  assert (Ka : fst sa = fst st /\ ss_id (snd sa) = ss_id (snd st) /\
               ss_ncursors (snd sa) = ss_ncursors (snd st) /\
               t_mod (st_txn sa) = t_mod (st_txn st) /\
               t_id (st_txn sa) = t_id (st_txn st) /\
               forall f, f <> WT_TXN_HAS_TS_COMMIT ->
                 txn_isset sa f = txn_isset st f).
  { unfold set_commit_timestamp in Ha.
    destruct (cfg_commit_timestamp cfg) as [ts|].
    - destruct (_ && _); inversion Ha. apply Hstep. intros t. repeat split.
    - inversion Ha. destruct (Hsame sa) as (? & ? & ? & ? & ? & ?).
      repeat split; auto. }
  assert (Kb : fst sb = fst sa /\ ss_id (snd sb) = ss_id (snd sa) /\
               ss_ncursors (snd sb) = ss_ncursors (snd sa) /\
               t_mod (st_txn sb) = t_mod (st_txn sa) /\
               t_id (st_txn sb) = t_id (st_txn sa) /\
               forall f, f <> WT_TXN_HAS_TS_DURABLE ->
                 txn_isset sb f = txn_isset sa f).
  { unfold set_durable_timestamp in Hb.
    destruct (cfg_durable_timestamp cfg) as [ts|]; inversion Hb.
    - apply Hstep. intros t. repeat split.
    - repeat split; auto. }
  assert (Kc : fst st1 = fst sb /\ ss_id (snd st1) = ss_id (snd sb) /\
               ss_ncursors (snd st1) = ss_ncursors (snd sb) /\
               t_mod (st_txn st1) = t_mod (st_txn sb) /\
               t_id (st_txn st1) = t_id (st_txn sb) /\
               forall f, f <> WT_TXN_HAS_TS_PREPARE ->
                 txn_isset st1 f = txn_isset sb f).
  { unfold set_prepare_timestamp in Hc.
    destruct (cfg_prepare_timestamp cfg) as [ts|]; inversion Hc.
    - apply Hstep. intros t. repeat split.
    - repeat split; auto. }
  destruct Ka as (A1 & A2 & A3 & A4 & A5 & A6).
  destruct Kb as (B1 & B2 & B3 & B4 & B5 & B6).
  destruct Kc as (C1 & C2 & C3 & C4 & C5 & C6).
  repeat split; try congruence.
  intros f F1 F2 F3. rewrite (C6 f F3), (B6 f F2), (A6 f F1). reflexivity.
Qed.

(** What [__wt_txn_release_snapshot] leaves of the session. *)
Lemma __wt_txn_release_snapshot_kept st :
  t_flags (st_txn (__wt_txn_release_snapshot st)) =
    F_CLR (t_flags (st_txn st)) WT_TXN_HAS_SNAPSHOT /\
  t_mod (st_txn (__wt_txn_release_snapshot st)) = t_mod (st_txn st) /\
  t_id (st_txn (__wt_txn_release_snapshot st)) = t_id (st_txn st) /\
  c_updates (fst (__wt_txn_release_snapshot st)) = c_updates (fst st) /\
  ss_id (snd (__wt_txn_release_snapshot st)) = ss_id (snd st) /\
  g_states (st_global (__wt_txn_release_snapshot st)) =
    alter (fun s => set_s_metadata_pinned WT_TXN_NONE
                      (set_s_pinned_id WT_TXN_NONE s))
      (ss_id (snd st)) (g_states (st_global st)).
Proof.
  unfold __wt_txn_release_snapshot. cbv zeta.
  destruct (WT_SESSION_IS_CHECKPOINT _); repeat split.
Qed.

(** X10 -- What prepare does.  A call of [__wt_txn_prepare] whose
    timestamps are accepted and include a prepare timestamp, whose cursors (if
    any are positioned) are copied without error, and whose update
    operations point at updates of the arena, returns 0 and leaves the
    transaction prepared: the PREPARE flag is on, the snapshot is released,
    the transaction keeps its id but, having one, no longer publishes it in
    its slot, and every update of the operation list is in the prepare state
    in progress with the prepare timestamp as its start timestamp -- or
    carries the aborted id, when it is a reserved update. *)
Theorem prepare_marks_updates (E : WT_EXTERN) (cfg : txn_cfg) (st st1 : state) :
  (c_log_debug_mode (fst st) = true \/ t_logrec (st_txn st) = false) ->
  __wt_txn_set_timestamp cfg st = Next tt st1 ->
  txn_isset st1 WT_TXN_HAS_TS_PREPARE = true ->
  (0 < ss_ncursors (snd st) -> x_session_copy_values E = 0) ->
  Forall (op_points (c_updates (fst st))) (t_mod (st_txn st)) ->
  exists st',
    __wt_txn_prepare E cfg st = Returns 0 st' /\
    txn_isset st' WT_TXN_PREPARE = true /\
    txn_isset st' WT_TXN_HAS_SNAPSHOT = false /\
    t_id (st_txn st') = t_id (st_txn st) /\
    length (t_mod (st_txn st')) = length (t_mod (st_txn st)) /\
    (txn_isset st WT_TXN_HAS_ID = true ->
     forall s, g_states (st_global st') !! ss_id (snd st) = Some s ->
               s_id s = WT_TXN_NONE) /\
    (forall op, op ∈ t_mod (st_txn st) -> op_metadata op = false ->
       is_update_op (op_type op) = true ->
       exists p u, op_upd op = Some p /\ c_updates (fst st') !! p = Some u /\
                   prepared_update (t_prepare_timestamp (st_txn st1)) u).
Proof.
  intros Hlog Hts Hprep Hcur Hall.
  destruct (__wt_txn_set_timestamp_kept cfg st st1 Hts)
    as (K1 & K2 & K3 & K4 & K5 & K6).
  assert (Hall1 : Forall (op_points (c_updates (fst st1)))
                    (rev (t_mod (st_txn st1)))).
  { rewrite K1, K4. apply Forall_rev. exact Hall. }
  destruct (prepare_ops_ok (st_txn st1) _ _ Hall1)
    as (rops' & updates' & Hloop & Hlen & _ & Hmarked).
  set (st2 := store_ops (rev rops') updates' st1).
  set (st3 := txn_set WT_TXN_PREPARE st2).
  set (st4 := __wt_txn_release_snapshot st3).
  set (st' := if txn_isset st4 WT_TXN_HAS_ID
              then __txn_remove_from_global_table st4 else st4).
  assert (Hrun : __wt_txn_prepare E cfg st = Returns 0 st').
  { unfold __wt_txn_prepare, prepare_body.
    rewrite (bind_Next _ _ st tt st).
    2:{ cbv beta. destruct Hlog as [-> | Hl]; [reflexivity|].
        destruct (negb _); [|reflexivity].
        unfold WT_RET_ASSERT. rewrite Hl. reflexivity. }
    rewrite (bind_Next _ _ _ _ _ Hts).
    rewrite (bind_Next _ _ st1 tt st1) by (cbv beta; rewrite Hprep; reflexivity).
    rewrite (bind_Next _ _ st1 tt st1).
    2:{ cbv beta. rewrite K3.
        destruct (Z.ltb_spec 0 (ss_ncursors (snd st))) as [Hc|Hc];
          [|reflexivity].
        unfold WT_RET. rewrite (Hcur Hc). reflexivity. }
    rewrite (bind_Next _ _ st1 tt st2) by (cbv beta; rewrite Hloop; reflexivity).
    rewrite (bind_Next _ _ st2 tt st3) by reflexivity.
    rewrite (bind_Next _ _ st3 tt st4) by reflexivity.
    rewrite (bind_Next _ _ st4 tt st') by reflexivity.
    reflexivity. }
  destruct (__wt_txn_release_snapshot_kept st3)
    as (R1 & R2 & R3 & R4 & R5 & R6).
  fold st4 in R1, R2, R3, R4, R5, R6.
  assert (Hflags4 : forall f, f <> WT_TXN_HAS_SNAPSHOT -> f <> WT_TXN_PREPARE ->
            txn_isset st4 f = txn_isset st1 f).
  { intros f F1 F2. unfold txn_isset. rewrite R1, F_ISSET_F_CLR.
    rewrite bool_decide_eq_false_2 by exact F1. cbn [negb andb].
    change (F_ISSET (t_flags (st_txn st3)) f) with (txn_isset st3 f).
    unfold st3. rewrite txn_isset_txn_set.
    rewrite bool_decide_eq_false_2 by exact F2. reflexivity. }
  assert (Hview : forall (P : state -> Prop),
            P (__txn_remove_from_global_table st4) -> P st4 -> P st').
  { intros P Ha Hb. unfold st'. destruct (txn_isset st4 WT_TXN_HAS_ID); assumption. }
  exists st'. split; [exact Hrun|].
  split; [|split; [|split; [|split; [|split]]]].
  - apply Hview;
      change (F_ISSET (t_flags (st_txn st4)) WT_TXN_PREPARE = true);
      rewrite R1, F_ISSET_F_CLR;
      (rewrite bool_decide_eq_false_2 by discriminate); cbn [negb andb];
      change (txn_isset st3 WT_TXN_PREPARE = true); unfold st3;
      rewrite txn_isset_txn_set;
      (rewrite bool_decide_eq_true_2 by reflexivity); reflexivity.
  - apply Hview;
      change (F_ISSET (t_flags (st_txn st4)) WT_TXN_HAS_SNAPSHOT = false);
      rewrite R1, F_ISSET_F_CLR;
      (rewrite bool_decide_eq_true_2 by reflexivity); reflexivity.
  - apply Hview;
      change (t_id (st_txn st4) = t_id (st_txn st)); rewrite R3, <- K5;
      reflexivity.
  - apply Hview;
      change (length (t_mod (st_txn st4)) = length (t_mod (st_txn st)));
      rewrite R2, <- K4; change (length (rev rops') = length (t_mod (st_txn st1)));
      rewrite length_rev, Hlen, length_rev; reflexivity.
  - intros Hid s. unfold st'.
    rewrite (Hflags4 WT_TXN_HAS_ID) by discriminate.
    rewrite (K6 WT_TXN_HAS_ID) by discriminate. rewrite Hid.
    unfold __txn_remove_from_global_table, upd_txn_state, upd_global, st_global.
    cbn [fst snd c_txn_global set_c_txn_global g_states set_g_states].
    rewrite R5. change (ss_id (snd st3)) with (ss_id (snd st1)). rewrite K2.
    rewrite list_lookup_alter_eq.
    destruct (_ !! _) as [s0|]; cbn; intros H; inversion H. reflexivity.
  - intros op Hin Hm Hu.
    destruct (Hmarked op) as (p & u & Hp & Hl & Pu);
      [apply list_elem_of_In, (proj1 (in_rev _ _)), list_elem_of_In;
       rewrite K4; exact Hin|exact Hm|exact Hu|].
    exists p, u. split; [exact Hp|]. split; [|exact Pu].
    apply Hview;
      change (c_updates (fst st4) !! p = Some u); rewrite R4; exact Hl.
Qed.

Lemma prepare_marks_updates_witness :
  exists st',
    __wt_txn_prepare ex_extern (mk_cfg None None (Some 100) "")
      ex_two_updates_state = Returns 0 st' /\
    txn_isset st' WT_TXN_PREPARE = true /\
    (s_id <$> g_states (st_global st') !! 0%nat) = Some WT_TXN_NONE /\
    ((fun u => (upd_prepare_state u, upd_start_ts u)) <$> c_updates (fst st') !! 1%nat)
    = Some (WT_PREPARE_INPROGRESS, 100).
Proof.
  edestruct (prepare_marks_updates ex_extern (mk_cfg None None (Some 100) "")
               ex_two_updates_state _ (or_intror eq_refl) eq_refl eq_refl)
    as (st' & Hrun & Hprep & _ & _ & _ & Hslot & Hupd).
  - cbn. lia.
  - repeat constructor; intros _ _.
    + exists 0%nat. eexists. repeat split.
    + exists 1%nat. eexists. repeat split. cbn. lia.
  - exists st'. split; [exact Hrun|]. split; [exact Hprep|]. split.
    + destruct (g_states (st_global st') !! 0%nat) as [s|] eqn:Hs.
      * cbn. rewrite (Hslot eq_refl s Hs). reflexivity.
      * exfalso. vm_compute in Hrun. inversion Hrun; subst st'.
        vm_compute in Hs. discriminate.
    + destruct (Hupd (mk_op WT_TXN_OP_BASIC_ROW 3 false (Some 1%nat) 1 false false))
        as (p & u & Hp & Hl & Pu); [|reflexivity|reflexivity|].
      { apply elem_of_cons. right. apply elem_of_cons. left. reflexivity. }
      inversion Hp; subst p. rewrite Hl. cbn.
      unfold prepared_update in Pu.
      destruct (is_reserve (upd_type u)) eqn:Hres.
      * exfalso. vm_compute in Hrun. inversion Hrun; subst st'.
        vm_compute in Hl. inversion Hl; subst u. discriminate.
      * destruct Pu as [-> ->]. reflexivity.
Defined.

(** X11 -- A failing prepare prepares nothing.  When [__wt_txn_prepare]
    returns a value other than 0, the operation list, the update arena, the
    table and the PREPARE and HAS_SNAPSHOT flags of the transaction are as
    they were at the call: the errors of prepare (a log record without
    debug-mode logging, rejected timestamps, no prepare timestamp, a failing
    copy of the cursors' values) all come before the first update is
    touched. *)
Theorem prepare_failure_prepares_nothing (E : WT_EXTERN) (cfg : txn_cfg)
    (st : state) (r : Z) (st' : state) :
  __wt_txn_prepare E cfg st = Returns r st' ->
  r <> 0 ->
  fst st' = fst st /\
  t_mod (st_txn st') = t_mod (st_txn st) /\
  txn_isset st' WT_TXN_PREPARE = txn_isset st WT_TXN_PREPARE /\
  txn_isset st' WT_TXN_HAS_SNAPSHOT = txn_isset st WT_TXN_HAS_SNAPSHOT.
Proof.
  unfold __wt_txn_prepare, prepare_body. intros H Hr.
  unfold mbind at 1, M_bind at 1 in H. cbv beta in H.
  assert (Hsame : fst st = fst st /\ t_mod (st_txn st) = t_mod (st_txn st) /\
                  txn_isset st WT_TXN_PREPARE = txn_isset st WT_TXN_PREPARE /\
                  txn_isset st WT_TXN_HAS_SNAPSHOT =
                  txn_isset st WT_TXN_HAS_SNAPSHOT) by (repeat split).
  match type of H with
  | match match ?a with _ => _ end with _ => _ end = _ =>
      assert (Ha : a = Next tt st \/ a = Exit EINVAL st)
  end.
  { destruct (negb _); [|left; reflexivity]. unfold WT_RET_ASSERT.
    destruct (negb _); [left|right]; reflexivity. }
  destruct Ha as [Ha|Ha]; rewrite Ha in H.
  2:{ inversion H; subst. exact Hsame. }
  unfold mbind at 1, M_bind at 1 in H.
  destruct (__wt_txn_set_timestamp cfg st) as [[] st1|r1 st1| |] eqn:Hts;
    try discriminate.
  2:{ inversion H; subst.
      (* the timestamps were rejected: the state is the one of the call *)
      revert Hts. unfold __wt_txn_set_timestamp, mbind, M_bind.
      unfold set_commit_timestamp, set_durable_timestamp, set_prepare_timestamp.
      destruct (cfg_commit_timestamp cfg); [destruct (_ && _)|];
        destruct (cfg_durable_timestamp cfg);
        destruct (cfg_prepare_timestamp cfg); intros Hts; inversion Hts;
        subst; exact Hsame. }
  destruct (__wt_txn_set_timestamp_kept cfg st st1 Hts)
    as (K1 & _ & _ & K4 & _ & K6).
  assert (Hst1 : fst st1 = fst st /\ t_mod (st_txn st1) = t_mod (st_txn st) /\
                 txn_isset st1 WT_TXN_PREPARE = txn_isset st WT_TXN_PREPARE /\
                 txn_isset st1 WT_TXN_HAS_SNAPSHOT =
                 txn_isset st WT_TXN_HAS_SNAPSHOT).
  { split; [exact K1|]. split; [exact K4|].
    split; apply K6; discriminate. }
  unfold mbind at 1, M_bind at 1 in H. cbv beta in H.
  destruct (negb (txn_isset st1 WT_TXN_HAS_TS_PREPARE)).
  { unfold WT_RET_MSG in H. inversion H; subst. exact Hst1. }
  unfold mbind at 1, M_bind at 1 in H. cbv beta in H.
  match type of H with
  | match match ?a with _ => _ end with _ => _ end = _ =>
      assert (Hb : a = Next tt st1 \/ exists e, a = Exit e st1)
  end.
  { destruct (0 <? _); [|left; reflexivity]. unfold WT_RET.
    destruct (_ =? 0); [left; reflexivity|right; eexists; reflexivity]. }
  destruct Hb as [Hb|[e Hb]]; rewrite Hb in H.
  2:{ inversion H; subst. exact Hst1. }
  unfold mbind at 1, M_bind at 1 in H. cbv beta in H.
  destruct (prepare_ops _ _ _) as [[rops updates]|]; [|discriminate].
  cbn in H. inversion H. congruence.
Qed.

Lemma prepare_failure_prepares_nothing_witness :
  exists st',
    __wt_txn_prepare ex_extern (ex_cfg None None) ex_two_updates_state
    = Returns EINVAL st' /\
    fst st' = fst ex_two_updates_state /\
    txn_isset st' WT_TXN_PREPARE = false.
Proof.
  destruct (__wt_txn_prepare ex_extern (ex_cfg None None) ex_two_updates_state)
    as [r st'| |] eqn:H; try (vm_compute in H; discriminate).
  assert (Hr : r = EINVAL) by (vm_compute in H; inversion H; reflexivity).
  subst r. exists st'. split; [reflexivity|].
  destruct (prepare_failure_prepares_nothing _ _ _ _ _ H ltac:(discriminate))
    as (A & _ & B & _).
  split; [exact A|]. rewrite B. reflexivity.
Defined.

(** ** Commit *)

Lemma txn_isset_txn_clr f g st :
  txn_isset (txn_clr f st) g = negb (bool_decide (g = f)) && txn_isset st g.
Proof. unfold txn_isset, txn_clr, upd_txn, st_txn. cbn. apply F_ISSET_F_CLR. Qed.

Lemma commit_kept_refl st : commit_kept st st.
Proof. repeat split. Qed.

Lemma commit_kept_trans st1 st2 st3 :
  commit_kept st1 st2 -> commit_kept st2 st3 -> commit_kept st1 st3.
Proof.
  intros (A1 & A2 & A3 & A4 & A5) (B1 & B2 & B3 & B4 & B5).
  repeat split; congruence.
Qed.

Lemma commit_kept_keys_off st st' : commit_kept st st' -> keys_off st -> keys_off st'.
Proof. intros (_ & _ & _ & A4 & A5) [K1 K2]. split; congruence. Qed.

Lemma commit_kept_upd_txn (h : WT_TXN -> WT_TXN) st :
  (forall t, t_mod (h t) = t_mod t /\ t_flags (h t) = t_flags t) ->
  commit_kept st (upd_txn h st).
Proof.
  intros Hh. destruct (Hh (st_txn st)) as [H1 H2].
  unfold commit_kept, txn_isset, upd_txn, st_txn in *. cbn.
  rewrite H1, H2. repeat split.
Qed.

Lemma commit_kept_txn_set g st :
  g <> WT_TXN_PREPARE -> g <> WT_TXN_TS_COMMIT_KEYS ->
  g <> WT_TXN_TS_DURABLE_KEYS -> commit_kept st (txn_set g st).
Proof.
  intros G1 G2 G3. unfold commit_kept. rewrite !txn_isset_txn_set.
  rewrite !bool_decide_eq_false_2 by congruence. repeat split.
Qed.

Lemma commit_kept_txn_clr g st :
  g <> WT_TXN_PREPARE -> g <> WT_TXN_TS_COMMIT_KEYS ->
  g <> WT_TXN_TS_DURABLE_KEYS -> commit_kept st (txn_clr g st).
Proof.
  intros G1 G2 G3. unfold commit_kept. rewrite !txn_isset_txn_clr.
  rewrite !bool_decide_eq_false_2 by congruence. repeat split.
Qed.

Lemma commit_kept_release_snapshot st :
  commit_kept st (__wt_txn_release_snapshot st).
Proof.
  destruct (__wt_txn_release_snapshot_kept st) as (R1 & R2 & _ & R4 & _).
  unfold commit_kept, txn_isset. rewrite R1, R2, R4, !F_ISSET_F_CLR.
  rewrite !bool_decide_eq_false_2 by discriminate. repeat split.
Qed.

Lemma runs_kept_bind {A B} (m : M A) (k : A -> M B) :
  runs_kept m -> (forall a, runs_kept (k a)) -> runs_kept (m ≫= k).
Proof.
  intros Hm Hk st Hoff. specialize (Hm st Hoff). unfold mbind, M_bind.
  destruct (m st) as [a st1|r st1|st1|]; auto.
  specialize (Hk a st1 (commit_kept_keys_off _ _ Hm Hoff)).
  destruct (k a st1); auto; eapply commit_kept_trans; eassumption.
Qed.

Lemma runs_kept_WT_RET a : runs_kept (WT_RET a).
Proof. intros st _. unfold WT_RET. destruct (a =? 0); apply commit_kept_refl. Qed.

Lemma commit_timestamps_runs_kept cfg prepare :
  runs_kept (commit_timestamps cfg prepare).
Proof.
  unfold commit_timestamps, __wt_txn_set_timestamp.
  repeat (apply runs_kept_bind; [|intros _]).
  - intros st _. cbn. destruct (negb prepare);
      [apply commit_kept_txn_clr; discriminate|apply commit_kept_refl].
  - intros st _. unfold set_commit_timestamp.
    destruct (cfg_commit_timestamp cfg); [|apply commit_kept_refl].
    destruct (_ && _); [apply commit_kept_refl|].
    eapply commit_kept_trans;
      [apply (commit_kept_upd_txn (set_t_commit_timestamp z)); intros t; split;
       reflexivity|apply commit_kept_txn_set; discriminate].
  - intros st _. unfold set_durable_timestamp.
    destruct (cfg_durable_timestamp cfg); [|apply commit_kept_refl].
    eapply commit_kept_trans;
      [apply (commit_kept_upd_txn (set_t_durable_timestamp z)); intros t; split;
       reflexivity|apply commit_kept_txn_set; discriminate].
  - intros st _. unfold set_prepare_timestamp.
    destruct (cfg_prepare_timestamp cfg); [|apply commit_kept_refl].
    eapply commit_kept_trans;
      [apply (commit_kept_upd_txn (set_t_prepare_timestamp z)); intros t; split;
       reflexivity|apply commit_kept_txn_set; discriminate].
  - intros st _. unfold commit_check_timestamps, WT_RET_MSG.
    repeat (destruct_innermost; cbv beta iota); apply commit_kept_refl.
Qed.

Lemma commit_prepare_to_resolve_runs_kept E cfg prepare :
  runs_kept (commit_prepare_to_resolve E cfg prepare).
Proof.
  unfold commit_prepare_to_resolve.
  apply runs_kept_bind; [|intros _; apply runs_kept_bind;
    [|intros _; apply runs_kept_bind;
      [|intros _; apply runs_kept_bind; [|intros _]]]].
  - intros st [K1 K2]. unfold __txn_commit_timestamps_assert. cbv zeta.
    unfold txn_isset in K1, K2. rewrite K1, K2. cbn [orb negb].
    repeat (destruct_innermost; cbv beta iota); apply commit_kept_refl.
  - intros st _. unfold commit_sync.
    repeat (destruct_innermost; cbv beta iota);
      first [apply commit_kept_refl
            |apply commit_kept_upd_txn; intros t; split; reflexivity].
  - intros st Hoff. unfold commit_notify.
    destruct (t_notify (st_txn st)); [apply runs_kept_WT_RET; exact Hoff|].
    apply commit_kept_refl.
  - intros st Hoff. unfold commit_copy_values.
    destruct (_ && _); [apply runs_kept_WT_RET; exact Hoff|].
    apply commit_kept_refl.
  - intros st Hoff. unfold commit_log.
    destruct (_ && _); [|apply commit_kept_refl].
    unfold WT_RET. destruct (_ =? 0); apply commit_kept_release_snapshot.
Qed.

(** Commit's loop on a transaction that is not prepared: nothing is
    resolved, every operation is freed. *)
Lemma commit_ops_running E txn las ops : forall updates acc,
  (forall t op u, length (x_op_set_timestamp E t op u) = length u) ->
  Forall (op_in_arena (length updates)) ops ->
  exists updates',
    commit_ops E txn false las ops updates acc =
      OpsDone (map __wt_txn_op_free ops) updates' acc /\
    length updates' = length updates.
Proof.
  intros updates acc Hset. revert updates acc.
  induction ops as [|op rest IH]; intros updates acc Hall.
  - exists updates. split; reflexivity.
  - apply Forall_cons in Hall as [Hop Hrest]. cbn [commit_ops map].
    assert (Hstep : exists updates1,
              commit_op E txn false las op updates acc = OpNext updates1 acc /\
              length updates1 = length updates).
    { unfold commit_op. cbn [negb].
      destruct (is_update_op (op_type op)) eqn:Hu.
      - destruct (Hop Hu) as (p & Hp & Hlt). rewrite Hp.
        destruct (lookup_lt_is_Some_2 updates p Hlt) as [upd Hupd].
        rewrite Hupd.
        assert (Hbody : exists updates1,
          (if is_reserve (upd_type upd)
           then OpNext (<[p:=set_upd_txnid WT_TXN_ABORTED upd]> updates) acc
           else if negb (las =? 0) && (op_fileid op =? las)
                then OpNext (<[p:=set_upd_txnid WT_TXN_NONE upd]> updates) acc
                else OpNext (x_op_set_timestamp E txn op updates) acc)
          = OpNext updates1 acc /\ length updates1 = length updates).
        { destruct (is_reserve _); [|destruct (_ && _)];
            eexists; (split; [reflexivity|]);
            first [apply length_insert|apply Hset]. }
        destruct (op_type op); try discriminate; exact Hbody.
      - destruct (op_type op); try discriminate;
          eexists; (split; [reflexivity|]); first [reflexivity|apply Hset]. }
    destruct Hstep as (updates1 & Hstep & Hlen1). rewrite Hstep.
    rewrite <- Hlen1 in Hrest.
    destruct (IH updates1 acc Hrest) as (updates' & Hrun & Hlen).
    exists updates'. rewrite Hrun. split; [reflexivity|congruence].
Qed.

(** Rollback of a transaction that is not prepared, its update operations
    pointing into the arena. *)
Lemma rollback_running_terminal E st :
  txn_isset st WT_TXN_PREPARE = false ->
  Forall (op_in_arena (length (c_updates (fst st)))) (t_mod (st_txn st)) ->
  exists r st', __wt_txn_rollback E st = Returns r st' /\
                t_mod (st_txn st') = [] /\ t_flags (st_txn st') = [].
Proof.
  intros Hprep Hall.
  assert (Hready : Forall (fun op =>
            op_metadata op = false -> is_update_op (op_type op) = true ->
            exists p, op_upd op = Some p /\
                      (p < length (c_updates (fst st)))%nat)
            (t_mod (st_txn st))).
  { eapply Forall_impl; [exact Hall|]. intros op Hop _ Hu. apply (Hop Hu). }
  destruct (rollback_ops_running E (st_txn st) (t_mod (st_txn st)) Hprep
              (c_updates (fst st))
              (mk_acc (rollback_notify (st_txn st)) 0 0 false) Hready)
    as (updates' & Hrun & _ & _).
  unfold __wt_txn_rollback. cbv zeta. rewrite Hrun. unfold WT_RET_ASSERT.
  cbn [ra_skip_update_assert ra_resolved_update_count
       ra_visited_update_count ra_ret orb Z.eqb].
  eexists; eexists. split; [reflexivity|]. split.
  - rewrite (proj1 (__wt_txn_release_kept _)). reflexivity.
  - apply __wt_txn_release_flags.
Qed.

(** X12 -- Commit ends the transaction.  For a transaction that is not
    prepared, with the per-key timestamp checks off and its update
    operations pointing into the arena (whose size setting timestamps does
    not change), [__wt_txn_commit] returns, and whatever it returns -- 0, or
    the error that made it roll back -- the transaction is over: its
    operation list is empty and all its flags are cleared. *)
Theorem commit_ends_transaction (E : WT_EXTERN) (cfg : txn_cfg) (st : state) :
  txn_isset st WT_TXN_PREPARE = false ->
  keys_off st ->
  (forall t op u, length (x_op_set_timestamp E t op u) = length u) ->
  Forall (op_in_arena (length (c_updates (fst st)))) (t_mod (st_txn st)) ->
  exists r st',
    __wt_txn_commit E cfg st = Returns r st' /\
    t_mod (st_txn st') = [] /\ t_flags (st_txn st') = [].
Proof.
  intros Hprep Hoff Hset Hall.
  assert (Herr : forall r1 st1, commit_kept st st1 ->
            exists r st', commit_err r1 (__wt_txn_rollback E st1) = Returns r st' /\
                          t_mod (st_txn st') = [] /\ t_flags (st_txn st') = []).
  { intros r1 st1 (A1 & A2 & A3 & _).
    destruct (rollback_running_terminal E st1) as (r & st' & Hrb & Hm & Hf).
    - congruence.
    - rewrite A1, A2. exact Hall.
    - rewrite Hrb. cbn [commit_err]. eexists; eexists. split; [reflexivity|].
      split; assumption. }
  unfold __wt_txn_commit, commit_body. rewrite Hprep.
  pose proof (commit_timestamps_runs_kept cfg false st Hoff) as K1.
  unfold mbind at 1, M_bind at 1.
  destruct (commit_timestamps cfg false st) as [[] st1|r1 st1|st1|];
    [|apply (Herr r1 st1 K1)|contradiction|contradiction].
  pose proof (commit_kept_keys_off _ _ K1 Hoff) as Hoff1.
  pose proof (commit_prepare_to_resolve_runs_kept E cfg false st1 Hoff1) as K2.
  unfold mbind at 1, M_bind at 1.
  destruct (commit_prepare_to_resolve E cfg false st1) as [[] st2|r2 st2|st2|];
    [|apply (Herr r2 st2 (commit_kept_trans _ _ _ K1 K2))
     |contradiction|contradiction].
  pose proof (commit_kept_trans _ _ _ K1 K2) as (A1 & A2 & _).
  destruct (commit_ops_running E (st_txn st2) (c_las_fileid (fst st2))
              (t_mod (st_txn st2)) (c_updates (fst st2))
              (mk_acc 0 0 0 false) Hset) as (updates' & Hloop & _).
  { rewrite A1, A2. exact Hall. }
  unfold mbind at 1, M_bind at 1.
  unfold commit_resolve at 1. unfold mbind at 1, M_bind at 1.
  unfold commit_process_updates. rewrite Hloop.
  unfold WT_RET_ASSERT.
  cbn [ra_skip_update_assert ra_resolved_update_count
       ra_visited_update_count orb Z.eqb modify].
  eexists; eexists. split; [reflexivity|].
  unfold commit_finish. cbv zeta.
  assert (Hfin : forall s readonly candidate,
            st_txn (commit_update_durable E candidate
                      (if negb readonly then __wt_gen_next s else s)) = st_txn s).
  { intros s readonly candidate. unfold commit_update_durable.
    destruct (durable_history _ _ _). destruct (negb readonly); reflexivity. }
  rewrite Hfin. split.
  - rewrite (proj1 (__wt_txn_release_kept _)). reflexivity.
  - apply __wt_txn_release_flags.
Qed.

Lemma commit_ends_transaction_witness :
  (exists st',
     __wt_txn_commit ex_extern (ex_cfg (Some 120) None) ex_two_updates_state
     = Returns 0 st' /\ t_mod (st_txn st') = [] /\ t_flags (st_txn st') = []) /\
  (exists st',
     __wt_txn_commit ex_extern (ex_cfg (Some 120) (Some 130)) ex_two_updates_state
     = Returns EINVAL st' /\ t_mod (st_txn st') = [] /\ t_flags (st_txn st') = []).
Proof.
  assert (Hall : Forall (op_in_arena (length (c_updates (fst ex_two_updates_state))))
                   (t_mod (st_txn ex_two_updates_state))).
  { repeat constructor; intros _; eexists; (split; [reflexivity|cbn; lia]). }
  assert (Hoff : keys_off ex_two_updates_state) by (split; reflexivity).
  split.
  - destruct (commit_ends_transaction ex_extern (ex_cfg (Some 120) None)
                ex_two_updates_state eq_refl Hoff (fun _ _ _ => eq_refl) Hall)
      as (r & st' & Hrun & Hm & Hf).
    exists st'. split; [|split; assumption].
    rewrite Hrun. f_equal. vm_compute in Hrun. inversion Hrun. reflexivity.
  - destruct (commit_ends_transaction ex_extern (ex_cfg (Some 120) (Some 130))
                ex_two_updates_state eq_refl Hoff (fun _ _ _ => eq_refl) Hall)
      as (r & st' & Hrun & Hm & Hf).
    exists st'. split; [|split; assumption].
    rewrite Hrun. f_equal. vm_compute in Hrun. inversion Hrun. reflexivity.
Defined.

(** ** Ids and [current] *)

(** Nothing is ahead of [current].  In every state the table reaches
    through the calls of its sessions, [current] is positive, every id a slot
    publishes and every id a transaction carries is below [current], and a
    snapshot a transaction holds was cut at a [snap_max] that is not above
    [current], all of its entries below [current]. *)
Theorem reachable_ids_below_current (sy : system) :
  reachable sy ->
  let g := c_txn_global (sy_conn sy) in
  0 < g_current g /\
  (forall j s, g_states g !! j = Some s -> s_id s < g_current g) /\
  (forall i se, sy_sessions sy !! i = Some se ->
     t_id (ss_txn se) < g_current g /\
     (F_ISSET (t_flags (ss_txn se)) WT_TXN_HAS_SNAPSHOT = true ->
      t_snap_max (ss_txn se) <= g_current g /\
      forall x, x ∈ t_snapshot (ss_txn se) -> x < g_current g)).
Proof.
  intros Hr. cbv zeta.
  pose proof (reachable_sys_inv sy Hr)
    as (_ & _ & _ & _ & _ & I6 & I7 & I8 & _ & I10).
  split; [exact I6|]. split; [exact I7|].
  intros i se Hi. split; [apply (I8 i se Hi)|].
  intros Hsnap. destruct (I10 i se Hi Hsnap) as [Hmax Hall].
  split; [exact Hmax|]. intros x Hx. destruct (Hall x Hx) as [Hlt _]. lia.
Qed.

Lemma reachable_ids_below_current_witness :
  let g := c_txn_global (sy_conn ex_trace_system) in
  0 < g_current g /\
  (forall j s, g_states g !! j = Some s -> s_id s < g_current g) /\
  (forall i se, sy_sessions ex_trace_system !! i = Some se ->
     t_id (ss_txn se) < g_current g /\
     (F_ISSET (t_flags (ss_txn se)) WT_TXN_HAS_SNAPSHOT = true ->
      t_snap_max (ss_txn se) <= g_current g /\
      forall x, x ∈ t_snapshot (ss_txn se) -> x < g_current g)).
Proof.
  apply (reachable_ids_below_current ex_trace_system).
  apply ex_trace_system_reachable.
Defined.

(** ** The partition step of the snapshot sort *)

Lemma aget_None_ge (array : list Z) i :
  Z.of_nat (length array) <= i -> aget array i = None.
Proof. intros H. unfold aget. apply lookup_ge_None. lia. Qed.

(** What [scan_down] passes over is above the pivot. *)
Lemma scan_down_above fuel : forall (array : list Z) pivot j j',
  scan_down fuel array pivot j = Some j' ->
  0 <= j <= Z.of_nat (length array) -> Z.of_nat (length array) < 2 ^ 32 ->
  0 <= j' < j /\
  forall k v, j' < k < j -> aget array k = Some v -> pivot < v.
Proof.
  induction fuel as [|fuel IH]; intros array pivot j j' H Hj Hlen;
    [discriminate|].
  cbn [scan_down] in H.
  destruct (Z.eq_dec j 0) as [->|Hne].
  { rewrite aget_None_ge in H; [discriminate|].
    unfold wrap32. change ((0 - 1) mod 2 ^ 32) with (2 ^ 32 - 1). lia. }
  rewrite (wrap32_small (j - 1)) in H by lia.
  destruct (aget array (j - 1)) as [v|] eqn:Hv; [|discriminate].
  cbn [mbind option_bind] in H.
  destruct (Z.ltb_spec pivot v) as [Hlt|Hge].
  - destruct (IH array pivot (j - 1) j' H) as [Hr Hall]; [lia|exact Hlen|].
    split; [lia|]. intros k w Hk Hw.
    destruct (Z.eq_dec k (j - 1)) as [->|Hk'].
    + rewrite Hv in Hw. inversion Hw; subst. exact Hlt.
    + apply (Hall k w); [lia|exact Hw].
  - inversion H; subst. split; [lia|]. intros k w Hk. lia.
Qed.

(** What [scan_up] passes over is below the pivot. *)
Lemma scan_up_below fuel : forall (array : list Z) pivot i i',
  scan_up fuel array pivot (wrap32 i) = Some i' ->
  -1 <= i < 2 ^ 32 - 1 -> Z.of_nat (length array) < 2 ^ 32 ->
  i < i' < Z.of_nat (length array) /\
  forall k v, i < k < i' -> aget array k = Some v -> v < pivot.
Proof.
  induction fuel as [|fuel IH]; intros array pivot i i' H Hi Hlen;
    [discriminate|].
  cbn [scan_up] in H.
  replace (wrap32 (wrap32 i + 1)) with (i + 1) in H.
  2:{ unfold wrap32. rewrite Zplus_mod_idemp_l. rewrite Z.mod_small; lia. }
  destruct (aget array (i + 1)) as [v|] eqn:Hv; [|discriminate].
  cbn [mbind option_bind] in H.
  assert (Hb : i + 1 < Z.of_nat (length array))
    by (apply (aget_Some_lt array (i + 1) v); [lia|exact Hv]).
  destruct (Z.ltb_spec v pivot) as [Hlt|Hge].
  - rewrite <- (wrap32_small (i + 1)) in H at 1 by lia.
    destruct (IH array pivot (i + 1) i' H) as [Hr Hall]; [lia|exact Hlen|].
    split; [lia|]. intros k w Hk Hw.
    destruct (Z.eq_dec k (i + 1)) as [->|Hk'].
    + rewrite Hv in Hw. inversion Hw; subst. exact Hlt.
    + apply (Hall k w); [lia|exact Hw].
  - inversion H; subst. split; [lia|]. intros k w Hk. lia.
Qed.

Lemma partition_loop_split fuel : forall (array : list Z) pivot f l i j array' m,
  partition_loop fuel array pivot (wrap32 i) j = Some (array', m) ->
  0 <= f -> l < Z.of_nat (length array) -> Z.of_nat (length array) < 2 ^ 32 ->
  f - 1 <= i -> i < j -> j <= l + 1 ->
  (exists p vp, f <= p /\ i <= p /\ p < j /\ aget array p = Some vp /\ vp <= pivot) ->
  (exists q vq, i < q /\ q <= l /\ q <= j /\ aget array q = Some vq /\ pivot <= vq /\
                (q < l \/ j <= l)) ->
  (forall k v, f <= k <= i -> aget array k = Some v -> v <= pivot) ->
  (forall k v, j <= k <= l -> aget array k = Some v -> pivot <= v) ->
  (forall k v, f <= k <= m -> aget array' k = Some v -> v <= pivot) /\
  (forall k v, m < k <= l -> aget array' k = Some v -> pivot <= v) /\
  (forall k, 0 <= k -> k < f \/ l < k -> aget array' k = aget array k).
Proof.
  induction fuel as [|fuel IH];
    intros array pivot f l i j array' m H Hf Hl Hlen Hi Hij Hj
      (p & vp & Hp1 & Hp2 & Hp3 & Hp4 & Hp5)
      (q & vq & Hq1 & Hq2 & Hq3 & Hq4 & Hq5 & Hq6) Hlow Hhigh;
    [discriminate|].
  cbn [partition_loop] in H.
  destruct (scan_down_stops (S (length array)) array pivot j p vp)
    as (j' & vj & Hsd & Hj' & Hgj & Hvj); try lia; auto.
  destruct (scan_up_stops (S (length array)) array pivot i q vq)
    as (i' & vi & Hsu & Hi' & Hgi & Hvi); try lia; auto.
  destruct (scan_down_above _ _ _ _ _ Hsd) as [_ Habove]; [lia|exact Hlen|].
  destruct (scan_up_below _ _ _ _ _ Hsu) as [_ Hbelow]; [lia|exact Hlen|].
  rewrite Hsd, Hsu in H. cbn [mbind option_bind] in H.
  destruct (Z.ltb_spec i' j') as [Hlt|Hge].
  - rewrite Hgi, Hgj in H. cbn [mbind option_bind] in H.
    set (array2 := aset (aset array i' vj) j' vi) in *.
    assert (Hlen2 : length array2 = length array)
      by (unfold array2; rewrite !aset_length; reflexivity).
    assert (Hi2 : aget array2 i' = Some vj).
    { unfold array2. rewrite aget_aset_ne by lia. apply aget_aset_eq. lia. }
    assert (Hj2 : aget array2 j' = Some vi).
    { unfold array2. apply aget_aset_eq. rewrite aset_length. lia. }
    assert (Hother : forall k, 0 <= k -> k <> i' -> k <> j' ->
                               aget array2 k = aget array k).
    { intros k Hk K1 K2. unfold array2. rewrite !aget_aset_ne by lia.
      reflexivity. }
    rewrite <- (wrap32_small i') in H by lia.
    destruct (IH array2 pivot f l i' j' array' m H) as (R1 & R2 & R3);
      try lia.
    + exists i', vj. repeat split; try lia. exact Hi2.
    + exists j', vi. repeat split; try lia. exact Hj2.
    + intros k v Hk Hv.
      destruct (Z.eq_dec k i') as [->|K1];
        [rewrite Hi2 in Hv; inversion Hv; subst; exact Hvj|].
      rewrite Hother in Hv by lia.
      destruct (Z_le_gt_dec k i) as [Hle|Hgt].
      * apply (Hlow k v); [lia|exact Hv].
      * pose proof (Hbelow k v ltac:(lia) Hv). lia.
    + intros k v Hk Hv.
      destruct (Z.eq_dec k j') as [->|K1];
        [rewrite Hj2 in Hv; inversion Hv; subst; exact Hvi|].
      rewrite Hother in Hv by lia.
      destruct (Z_le_gt_dec j k) as [Hle|Hgt].
      * apply (Hhigh k v); [lia|exact Hv].
      * pose proof (Habove k v ltac:(lia) Hv). lia.
    + split; [exact R1|]. split; [exact R2|].
      intros k Hk Hout. rewrite (R3 k Hk Hout). apply Hother; lia.
  - inversion H; subst array' m. split; [|split; [|reflexivity]].
    + intros k v Hk Hv.
      destruct (Z_le_gt_dec k i) as [Hle|Hgt];
        [apply (Hlow k v); [lia|exact Hv]|].
      destruct (Z.eq_dec k i') as [->|K1].
      * assert (j' = i') by lia. subst j'. rewrite Hgj in Hv.
        inversion Hv; subst. exact Hvj.
      * pose proof (Hbelow k v ltac:(lia) Hv). lia.
    + intros k v Hk Hv.
      destruct (Z_le_gt_dec j k) as [Hle|Hgt];
        [apply (Hhigh k v); [lia|exact Hv]|].
      pose proof (Habove k v ltac:(lia) Hv). lia.
Qed.

(** X8 -- The partition step.  On a range [f..l] of the array that holds an
    entry not above the pivot and, before [l], an entry not below it (as the
    median of three does), [__snapsort_partition] returns a split point [m]
    with [f <= m < l] and an array that is a permutation of the one it was
    given, the same outside the range, with every entry of [f..m] at or below
    the pivot and every entry of [m+1..l] at or above it. *)
Theorem snapsort_partition_splits (array : list Z) (f l pivot : Z) :
  0 <= f -> f < l -> l < Z.of_nat (length array) ->
  Z.of_nat (length array) < 2 ^ 32 ->
  (exists p vp, f <= p <= l /\ aget array p = Some vp /\ vp <= pivot) ->
  (exists q vq, f <= q < l /\ aget array q = Some vq /\ pivot <= vq) ->
  exists array' m,
    __snapsort_partition array f l pivot = Some (array', m) /\
    array ≡ₚ array' /\ f <= m < l /\
    (forall k v, f <= k <= m -> aget array' k = Some v -> v <= pivot) /\
    (forall k v, m < k <= l -> aget array' k = Some v -> pivot <= v) /\
    (forall k, 0 <= k -> k < f \/ l < k -> aget array' k = aget array k).
Proof.
  intros Hf Hfl Hl Hlen Hp Hq.
  destruct (__snapsort_partition_ok array f l pivot Hf Hfl Hl Hlen Hp Hq)
    as (array' & m & Hrun & Hperm & Hm).
  exists array', m. split; [exact Hrun|]. split; [exact Hperm|].
  split; [exact Hm|].
  destruct Hp as (p & vp & Hp & Hgp & Hvp). destruct Hq as (q & vq & Hq & Hgq & Hvq).
  unfold __snapsort_partition in Hrun.
  rewrite (wrap32_small (l + 1)) in Hrun by lia.
  apply (partition_loop_split (S (length array)) array pivot f l (f - 1) (l + 1)
           array' m Hrun); try lia.
  - exists p, vp. repeat split; auto; lia.
  - exists q, vq. repeat split; auto; lia.
Qed.

Lemma snapsort_partition_splits_witness :
  exists array' m,
    __snapsort_partition [9; 4; 7; 1; 8; 2; 6] 0 6 6 = Some (array', m) /\
    0 <= m < 6 /\
    (forall k v, 0 <= k <= m -> aget array' k = Some v -> v <= 6) /\
    (forall k v, m < k <= 6 -> aget array' k = Some v -> 6 <= v).
Proof.
  destruct (snapsort_partition_splits [9; 4; 7; 1; 8; 2; 6] 0 6 6)
    as (array' & m & Hrun & _ & Hm & Hlow & Hhigh & _).
  - lia.
  - lia.
  - cbn. lia.
  - cbn. lia.
  - exists 1, 4. repeat split; cbn; lia.
  - exists 0, 9. repeat split; cbn; lia.
  - exists array', m. auto.
Defined.

(** ** The sort on arrays with repeated entries *)

(** X9 -- The sort does not need distinct entries.  On every array of more
    than one and fewer than 2^31 entries, repeated entries included,
    [__snapsort] returns, and what it returns is the array in ascending
    order: an ascending permutation of the input, the only one there is. *)
Theorem snapsort_sorts_any_array (array : list Z) (size : Z) :
  size = Z.of_nat (length array) -> 1 < size < 2 ^ 31 ->
  exists out,
    __snapsort array size = Some out /\
    StronglySorted Z.le out /\ array ≡ₚ out /\
    forall sorted, StronglySorted Z.le sorted -> sorted ≡ₚ array ->
                   sorted = out.
Proof.
  intros Hsize Hrange.
  destruct (__snapsort_ok array size Hsize Hrange) as (out & Hrun & Hs & Hp).
  exists out. split; [exact Hrun|]. split; [exact Hs|]. split; [exact Hp|].
  intros sorted Hsorted Hperm.
  apply (StronglySorted_unique Z.le); [exact Hsorted|exact Hs|].
  rewrite Hperm. exact Hp.
Qed.

Lemma snapsort_sorts_any_array_witness :
  exists out,
    __snapsort [5; 3; 5; 1; 3; 9; 9; 2; 5; 1; 7; 7; 4; 4; 8; 6; 6; 0; 2; 8] 20
    = Some out /\
    StronglySorted Z.le out /\
    (forall sorted, StronglySorted Z.le sorted ->
       sorted ≡ₚ [5; 3; 5; 1; 3; 9; 9; 2; 5; 1; 7; 7; 4; 4; 8; 6; 6; 0; 2; 8] ->
       sorted = out).
Proof.
  destruct (snapsort_sorts_any_array
              [5; 3; 5; 1; 3; 9; 9; 2; 5; 1; 7; 7; 4; 4; 8; 6; 6; 0; 2; 8] 20)
    as (out & Hrun & Hs & _ & Hu).
  - reflexivity.
  - lia.
  - exists out. auto.
Defined.

(** ** The published oldest id and the pinned ids *)

Lemma __txn_oldest_scan_pinned g sc :
  __txn_oldest_scan g = Some sc ->
  forall s, s ∈ g_states g -> s_pinned_id s <> WT_TXN_NONE ->
            sc_oldest_id sc <= s_pinned_id s.
Proof.
  unfold __txn_oldest_scan. intros H.
  destruct (oldest_scan_walk 0 (g_states g) (g_oldest_id g) _) as [acc|] eqn:Hw;
    [|discriminate].
  apply oldest_scan_walk_bounds in Hw.
  cbn [sc_oldest_id sc_last_running sc_metadata_pinned] in Hw.
  destruct Hw as (_ & _ & _ & Hall).
  cbn in H. inversion H; subst sc; clear H.
  cbn [sc_oldest_id]. intros s Hin Hne.
  destruct (Hall s Hin) as (A1 & _). specialize (A1 Hne).
  id_cmp; cbn in *; lia.
Qed.

(** X4 -- The published oldest id stays behind the pinned ids.  If the
    oldest id the table publishes is above no id pinned in a slot, it still
    is above none after a call of [__wt_txn_update_oldest], whatever the call
    returns; the slots themselves are not touched. *)
Theorem update_oldest_respects_pins (E : WT_EXTERN) (strict wait : bool)
    (st : state) (r : Z) (st' : state) :
  __wt_txn_update_oldest E strict wait st = Some (r, st') ->
  (forall s, s ∈ g_states (st_global st) -> s_pinned_id s <> WT_TXN_NONE ->
             g_oldest_id (st_global st) <= s_pinned_id s) ->
  g_states (st_global st') = g_states (st_global st) /\
  forall s, s ∈ g_states (st_global st') -> s_pinned_id s <> WT_TXN_NONE ->
            g_oldest_id (st_global st') <= s_pinned_id s.
Proof.
  intros H Hpins.
  assert (Hsame : g_states (st_global st) = g_states (st_global st) /\
                  forall s, s ∈ g_states (st_global st) ->
                    s_pinned_id s <> WT_TXN_NONE ->
                    g_oldest_id (st_global st) <= s_pinned_id s)
    by (split; [reflexivity|exact Hpins]).
  revert H. unfold __wt_txn_update_oldest. cbv zeta.
  destruct (strict && negb (x_update_pinned_timestamp E =? 0)).
  { intros H. inversion H; subst. exact Hsame. }
  match goal with |- (if ?c then _ else _) = _ -> _ => destruct c end.
  { intros H. inversion H; subst. exact Hsame. }
  destruct (negb wait && negb (x_try_readlock E =? 0)).
  { intros H. inversion H; subst. exact Hsame. }
  destruct (__txn_oldest_scan (st_global st)) as [sc|] eqn:Hsc; [|discriminate].
  cbn [mbind option_bind].
  match goal with |- (if ?c then _ else _) = _ -> _ => destruct c end.
  { intros H. inversion H; subst. exact Hsame. }
  destruct (negb wait && negb (x_try_writelock E =? 0)).
  { intros H. inversion H; subst. exact Hsame. }
  match goal with |- (if ?c then _ else _) = _ -> _ => destruct c end.
  { intros H. inversion H; subst. exact Hsame. }
  intros H. inversion H; subst; clear H.
  unfold st_global, upd_global.
  cbn [fst snd c_txn_global set_c_txn_global set_g_ids g_states g_oldest_id].
  fold (st_global st). split; [reflexivity|].
  intros s Hin Hne.
  pose proof (__txn_oldest_scan_pinned _ _ Hsc s Hin Hne).
  pose proof (Hpins s Hin Hne).
  unfold WT_TXNID_LT.
  destruct (Z.ltb_spec (g_oldest_id (st_global st)) (sc_oldest_id sc)); lia.
Qed.

Lemma update_oldest_respects_pins_witness :
  exists st',
    __wt_txn_update_oldest ex_extern true true ex_busy_table_state
    = Some (0, st') /\
    g_oldest_id (st_global st') <= 3.
Proof.
  destruct (__wt_txn_update_oldest ex_extern true true ex_busy_table_state)
    as [[r st']|] eqn:H; [|vm_compute in H; discriminate].
  assert (Hr : r = 0) by (vm_compute in H; inversion H; reflexivity).
  subst r. exists st'. split; [reflexivity|].
  destruct (update_oldest_respects_pins _ _ _ _ _ _ H) as [Hs Hp].
  - intros s Hin Hne.
    repeat (apply elem_of_cons in Hin as [->|Hin]); cbn in *;
      try lia; try (exfalso; apply Hne; reflexivity).
    inversion Hin.
  - apply (Hp (mk_state 5 3 0 false)); [|discriminate].
    rewrite Hs. apply elem_of_cons. right. apply elem_of_cons. left. reflexivity.
Defined.
